(** * Revision controller: reconciliation engine

    A shallow embedding of [pkg/controller/revision/controller.go] (the
    Revision reconciler of the elafros/serving controller) and the
    properties the design document states about it.

    The controller talks to its collaborators through Go interfaces: the
    Kubernetes clientset, the Ela clientset, the informer's lister and the
    workqueue.  They are modelled by the classes [Clientset] and
    [Workqueue] over an arbitrary world type; the controller is written
    once, against those interfaces, in a small monad that threads the
    world, records every API call and log line in a trace, and can panic.
    [Module Fake] gives the in-memory implementation that tests substitute
    for the API server. *)

From Stdlib Require Import String Ascii List Bool.
From stdpp Require Import base option gmap strings list.
Import ListNotations.
Local Open Scope string_scope.
Local Open Scope list_scope.

(** ** Errors ([k8s.io/apimachinery/pkg/api/errors]) *)

Inductive StatusReason :=
| StatusReasonUnknown
| StatusReasonNotFound
| StatusReasonAlreadyExists
| StatusReasonConflict
| StatusReasonInternalError.

(** A non-nil Go [error]; a nilable one is an [option error]. *)
Record error := { ErrReason : StatusReason; ErrMessage : string }.

Definition ReasonForError (err : option error) : StatusReason :=
  match err with
  | Some e => ErrReason e
  | None => StatusReasonUnknown
  end.

Definition IsNotFound (err : option error) : bool :=
  match ReasonForError err with
  | StatusReasonNotFound => true
  | _ => false
  end.

(** What a call with Go signature [(T, error)] hands back: the clients
    return a usable value exactly when the error is nil. *)
Inductive result (T : Type) :=
| Ok (v : T)
| Err (e : error).
Arguments Ok {T} v.
Arguments Err {T} e.

Definition err_of {T} (r : result T) : option error :=
  match r with
  | Ok _ => None
  | Err e => Some e
  end.

(** [err != nil] *)
Definition nonnil (err : option error) : bool :=
  match err with
  | Some _ => true
  | None => false
  end.

(** ** Data model *)

Definition Time := nat.

Record OwnerReference := {
  OwnerAPIVersion : string;
  OwnerKind : string;
  OwnerName : string;
  OwnerUID : string;
  OwnerController : option bool;
  OwnerBlockOwnerDeletion : option bool }.

Record ObjectMeta := {
  Name : string;
  Namespace : string;
  UID : string;
  Labels : list (string * string);
  OwnerReferences : list OwnerReference;
  DeletionTimestamp : option Time;
  Finalizers : list string }.

Record RevisionCondition := {
  CondType : string;
  CondStatus : string;
  CondReason : string }.

Record RevisionStatus := {
  ServiceName : string;
  Conditions : list RevisionCondition }.

(** Modelled from the spec: the declaration of [v1alpha1.RevisionSpec] is
    not part of the sources at hand.  The controller reads [Spec.Service];
    the document lists a container image and a concurrency model. *)
Record RevisionSpec := {
  Service : string;
  ContainerImage : string;
  ConcurrencyModel : string }.

Record Revision := {
  RevMeta : ObjectMeta;
  Spec : RevisionSpec;
  Status : RevisionStatus }.

Definition with_Status (st : RevisionStatus) (u : Revision) : Revision :=
  {| RevMeta := RevMeta u; Spec := Spec u; Status := st |}.

Definition with_ServiceName (n : string) (u : Revision) : Revision :=
  with_Status {| ServiceName := n; Conditions := Conditions (Status u) |} u.

Definition with_Conditions (cs : list RevisionCondition) (u : Revision) : Revision :=
  with_Status {| ServiceName := ServiceName (Status u); Conditions := cs |} u.

Record GroupVersion := { Group : string; Version : string }.
Record GroupVersionKind := { GVKGroup : string; GVKVersion : string; GVKKind : string }.

Definition WithKind (gv : GroupVersion) (kind : string) : GroupVersionKind :=
  {| GVKGroup := Group gv; GVKVersion := Version gv; GVKKind := kind |}.

Definition GroupVersion_String (gvk : GroupVersionKind) : string :=
  if String.eqb (GVKGroup gvk) "" then GVKVersion gvk
  else String.append (GVKGroup gvk) (String.append "/" (GVKVersion gvk)).

(** [metav1.NewControllerRef] *)
Definition NewControllerRef (owner : ObjectMeta) (gvk : GroupVersionKind) : OwnerReference :=
  {| OwnerAPIVersion := GroupVersion_String gvk;
     OwnerKind := GVKKind gvk;
     OwnerName := Name owner;
     OwnerUID := UID owner;
     OwnerController := Some true;
     OwnerBlockOwnerDeletion := Some true |}.

Inductive DeletionPropagation :=
| DeletePropagationOrphan
| DeletePropagationBackground
| DeletePropagationForeground.

Record DeleteOptions := { PropagationPolicy : option DeletionPropagation }.

(** What comes off the workqueue, an [interface{}]: a string, as the
    controller puts them there, or something else. *)
Inductive Item :=
| ItemString (key : string)
| ItemOther (repr : string).

(** The five kinds of core objects the controller touches. *)
Inductive Kind := Pods | Deployments | HorizontalPodAutoscalers | ConfigMaps | Services.


(** The child objects.  What is inside a pod, deployment, service or
    autoscaler spec is built by functions outside the reconciler and never
    inspected by it, so those structs stay abstract. *)
Section Objects.
Context {PodSpec DeploymentSpec ServiceSpec AutoscalerSpec : Type}.

Inductive Payload :=
| PodPayload (spec : PodSpec)
| DeploymentPayload (spec : DeploymentSpec) (template_spec : PodSpec)
| AutoscalerPayload (spec : AutoscalerSpec)
| ConfigMapPayload (data : list (string * string))
| ServicePayload (spec : ServiceSpec).

Record Object := { ObjMeta : ObjectMeta; ObjPayload : Payload }.

(** [o.OwnerReferences = append(o.OwnerReferences, ref)] *)
Definition append_OwnerReference (ref : OwnerReference) (o : Object) : Object :=
  {| ObjMeta :=
       {| Name := Name (ObjMeta o);
          Namespace := Namespace (ObjMeta o);
          UID := UID (ObjMeta o);
          Labels := Labels (ObjMeta o);
          OwnerReferences := OwnerReferences (ObjMeta o) ++ [ref];
          DeletionTimestamp := DeletionTimestamp (ObjMeta o);
          Finalizers := Finalizers (ObjMeta o) |};
     ObjPayload := ObjPayload o |}.

(** [deployment.Spec.Template.Spec = podSpec] *)
Definition set_Template_Spec (podSpec : PodSpec) (o : Object) : Object :=
  {| ObjMeta := ObjMeta o;
     ObjPayload :=
       match ObjPayload o with
       | DeploymentPayload spec _ => DeploymentPayload spec podSpec
       | p => p
       end |}.

(** ** The trace: API calls and log lines, in program order *)

Inductive LogArg :=
| ArgString (s : string)
| ArgError (err : option error)
| ArgBool (b : bool)
| ArgTime (t : option Time)
| ArgConditions (cs : list RevisionCondition)
| ArgItem (obj : Item).

Inductive ApiCall :=
| KubeGet (k : Kind) (ns name : string)
| KubeCreate (k : Kind) (ns : string) (o : Object)
| KubeDelete (k : Kind) (ns name : string) (opts : DeleteOptions)
| ElaGet (ns name : string)
| ElaUpdate (ns : string) (r : Revision)
| ListerGet (ns name : string)
| GetOrCreateRevisionNamespace (ns : string).

(** A call is recorded with the error it came back with; next to the
    calls, the lines written with [log.Printf], [glog.Infof] and
    [runtime.HandleError], and what is done to the workqueue. *)
Inductive Event :=
| Call (c : ApiCall) (err : option error)
| Log (format : string) (args : list LogArg)
| Info (format : string) (args : list LogArg)
| HandleError (format : string) (args : list LogArg)
| Dequeued (obj : Item) (shutdown : bool)
| QueueForget (obj : Item)
| QueueDone (obj : Item).

Definition is_call (e : Event) : option ApiCall :=
  match e with
  | Call c _ => Some c
  | _ => None
  end.

(** The API calls of a trace, log lines dropped. *)
Definition calls (tr : list Event) : list ApiCall := omap is_call tr.

(** ** The collaborators *)

(** [kubernetes.Interface], [clientset.Interface] (the Ela client),
    [listers.RevisionLister] and [util.GetOrCreateRevisionNamespace], as
    transitions of a world [W] the controller cannot see into. *)
Class Clientset (W : Type) := {
  kube_Get : Kind -> string -> string -> W -> result Object * W;
  kube_Create : Kind -> string -> Object -> W -> result Object * W;
  kube_Delete : Kind -> string -> string -> DeleteOptions -> W -> option error * W;
  ela_Get : string -> string -> W -> result Revision * W;
  ela_Update : string -> Revision -> W -> result Revision * W;
  lister_Get : string -> string -> W -> result Revision * W;
  util_GetOrCreateRevisionNamespace : string -> W -> result string * W }.

(** The helpers of [pkg/controller/util], the payload builders of the
    package and the library functions the reconciler calls; none of them
    touches the cluster. *)
Class Helpers := {
  GetRevisionDeploymentName : Revision -> string;
  GetRevisionAutoscalerName : Revision -> string;
  GetRevisionNginxConfigMapName : Revision -> string;
  GetElaK8SServiceNameForRevision : Revision -> string;
  GetRevisionPodName : Revision -> string;
  GetElaNamespaceName : string -> string;
  MakeElaPodSpec : Revision -> PodSpec;
  MakeElaDeployment : Revision -> string -> Object;
  MakeElaAutoscaler : Revision -> string -> Object;
  MakeRevisionK8sService : Revision -> string -> Object;
  NginxConfigFile : string;
  UpstreamToAppServer : string;
  UpStreamToQueue : string;
  ProxyPassToAppServer : string;
  ProxyPassToQueue : string;
  strings_Replace : string -> string -> string -> string;
  SchemeGroupVersion : GroupVersion;
  SplitMetaNamespaceKey : string -> result (string * string) }.
End Objects.

Arguments Payload : clear implicits.
Arguments Object : clear implicits.
Arguments ApiCall : clear implicits.
Arguments Event : clear implicits.
Arguments Clientset : clear implicits.
Arguments Helpers : clear implicits.

(** [workqueue.RateLimitingInterface], as far as the worker uses it. *)
Class Workqueue (W : Type) := {
  queue_Get : W -> (Item * bool) * W;
  queue_Forget : Item -> W -> W;
  queue_Done : Item -> W -> W }.

(** ** The monad of the controller

    A computation takes the state, ends by returning a value or by
    panicking, and leaves a state behind. *)

Inductive Outcome (A : Type) :=
| Returns (a : A)
| Panics (msg : string).
Arguments Returns {A} a.
Arguments Panics {A} msg.

Section Monad.
Context {S : Type}.

Definition M (A : Type) : Type := S -> Outcome A * S.

Definition ret {A} (a : A) : M A := fun s => (Returns a, s).

Definition bind {A B} (m : M A) (k : A -> M B) : M B :=
  fun s =>
    match m s with
    | (Returns a, s') => k a s'
    | (Panics msg, s') => (Panics msg, s')
    end.

Definition panic {A} (msg : string) : M A := fun s => (Panics msg, s).
End Monad.
Arguments M : clear implicits.

Notation "'let*' x := c 'in' k" := (bind c (fun x => k))
  (at level 10, x name, c at level 100, k at level 200).
Notation "c >> k" := (bind c (fun _ => k))
  (at level 100, k at level 200, right associativity).

(** ** The controller *)

Definition elaServiceLabel : string := "elaservice".
Definition elaVersionLabel : string := "revision".

Section Controller.
Context {PodSpec DeploymentSpec ServiceSpec AutoscalerSpec W : Type}.
Context {cs : Clientset PodSpec DeploymentSpec ServiceSpec AutoscalerSpec W}.
Context {wq : Workqueue W}.
Context {hp : Helpers PodSpec DeploymentSpec ServiceSpec AutoscalerSpec}.

Local Abbreviation Obj := (Object PodSpec DeploymentSpec ServiceSpec AutoscalerSpec).
Local Abbreviation Ev := (Event PodSpec DeploymentSpec ServiceSpec AutoscalerSpec).
Local Abbreviation Api := (ApiCall PodSpec DeploymentSpec ServiceSpec AutoscalerSpec).

(** The state: the world behind the clients and the trace so far. *)
Definition St : Type := W * list Ev.

Definition emit (e : Ev) : M St unit :=
  fun s => (Returns tt, (fst s, snd s ++ [e])).

(** [log.Printf] *)
Definition logf (format : string) (args : list LogArg) : M St unit :=
  emit (Log format args).

(** [glog.Infof] *)
Definition infof (format : string) (args : list LogArg) : M St unit :=
  emit (Info format args).

(** [runtime.HandleError(fmt.Errorf(...))] *)
Definition handleError (format : string) (args : list LogArg) : M St unit :=
  emit (HandleError format args).

(** [c.workqueue.Get()], [c.workqueue.Forget(obj)], [c.workqueue.Done(obj)] *)
Definition queueGet : M St (Item * bool) :=
  fun s =>
    (Returns (fst (queue_Get (fst s))),
     (snd (queue_Get (fst s)),
      snd s ++ [Dequeued (fst (fst (queue_Get (fst s)))) (snd (fst (queue_Get (fst s))))])).

Definition queueForget (obj : Item) : M St unit :=
  fun s => (Returns tt, (queue_Forget obj (fst s), snd s ++ [QueueForget obj])).

Definition queueDone (obj : Item) : M St unit :=
  fun s => (Returns tt, (queue_Done obj (fst s), snd s ++ [QueueDone obj])).

(** [defer]: the deferred call runs when the body is over, however it
    ended. *)
Definition defer {A} (deferred : M St unit) (body : M St A) : M St A :=
  fun s => (fst (body s), snd (deferred (snd (body s)))).

(** One round trip to a collaborator: the world moves on and the call
    joins the trace with its error. *)
Definition call {A} (c : Api) (errf : A -> option error) (h : W -> A * W) : M St A :=
  fun s =>
    (Returns (fst (h (fst s))),
     (snd (h (fst s)), snd s ++ [Call c (errf (fst (h (fst s))))])).

Definition kubeGet (k : Kind) (ns name : string) : M St (result Obj) :=
  call (KubeGet k ns name) err_of (kube_Get k ns name).
Definition kubeCreate (k : Kind) (ns : string) (o : Obj) : M St (result Obj) :=
  call (KubeCreate k ns o) err_of (kube_Create k ns o).
Definition kubeDelete (k : Kind) (ns name : string) (opts : DeleteOptions)
  : M St (option error) :=
  call (KubeDelete k ns name opts) id (kube_Delete k ns name opts).
Definition elaGet (ns name : string) : M St (result Revision) :=
  call (ElaGet ns name) err_of (ela_Get ns name).
Definition elaUpdate (ns : string) (r : Revision) : M St (result Revision) :=
  call (ElaUpdate ns r) err_of (ela_Update ns r).
Definition listerGet (ns name : string) : M St (result Revision) :=
  call (ListerGet ns name) err_of (lister_Get ns name).
Definition getOrCreateRevisionNamespace (ns : string) : M St (result string) :=
  call (GetOrCreateRevisionNamespace ns) err_of (util_GetOrCreateRevisionNamespace ns).

Definition controllerKind : GroupVersionKind :=
  WithKind SchemeGroupVersion "ElaDeployment".

(** [&metav1.DeleteOptions{PropagationPolicy: &tmp}] with
    [tmp := metav1.DeletePropagationForeground] *)
Definition foreground : DeleteOptions :=
  let tmp := DeletePropagationForeground in
  {| PropagationPolicy := Some tmp |}.

(** Helper to make sure we log error messages returned by Reconcile(). *)
Definition printErr (err : option error) : M St (option error) :=
  if nonnil err then logf "Logging error: %s" [ArgError err] >> ret err
  else ret err.

Definition getNginxConfig (enableQueue : bool) : string :=
  let nginxConfiguration := NginxConfigFile in
  if enableQueue then
    let nginxConfiguration :=
      strings_Replace nginxConfiguration UpstreamToAppServer UpStreamToQueue in
    strings_Replace nginxConfiguration ProxyPassToAppServer ProxyPassToQueue
  else nginxConfiguration.

(** The [apiv1.ConfigMap] literal [MakeNginxConfigMap] returns. *)
Definition NginxConfigMap (u : Revision) (namespace nginxConfiguration : string) : Obj :=
  {| ObjMeta :=
       {| Name := GetRevisionNginxConfigMapName u;
          Namespace := namespace;
          UID := "";
          Labels := [(elaServiceLabel, Service (Spec u));
                     (elaVersionLabel, Name (RevMeta u))];
          OwnerReferences := [];
          DeletionTimestamp := None;
          Finalizers := [] |};
     ObjPayload := ConfigMapPayload [("nginx.conf", nginxConfiguration)] |}.

(** MakeNginxConfigMap creates a ConfigMap that gets mounted for nginx
    container on the pod. *)
Definition MakeNginxConfigMap (u : Revision) (namespace : string) : M St Obj :=
  let enableQueue := false in
  logf "Queue enabled: %t" [ArgBool enableQueue] >>
  let nginxConfiguration := getNginxConfig enableQueue in
  ret (NginxConfigMap u namespace nginxConfiguration).

(** *** The status updater *)

Definition updateStatus (u : Revision) : M St (result Revision) :=
  let* r := elaGet (Namespace (RevMeta u)) (Name (RevMeta u)) in
  match r with
  | Err err => ret (Err err)
  | Ok newu =>
      let newu := with_Status (Status u) newu in
      elaUpdate (Namespace (RevMeta u)) newu
  end.

(** *** delete-X *)

Definition deleteDeployment (u : Revision) (ns : string) : M St (option error) :=
  let deploymentName := GetRevisionDeploymentName u in
  let* r := kubeGet Deployments ns deploymentName in
  let err := err_of r in
  if nonnil err && IsNotFound err then ret None
  else
    logf "Deleting Deployment %q" [ArgString deploymentName] >>
    let* err := kubeDelete Deployments ns deploymentName foreground in
    if nonnil err && negb (IsNotFound err) then
      logf "deployments.Delete for %q failed: %s"
        [ArgString deploymentName; ArgError err] >>
      ret err
    else ret None.

Definition deleteNginxConfig (u : Revision) (ns : string) : M St (option error) :=
  let configMapName := GetRevisionNginxConfigMapName u in
  let* r := kubeGet ConfigMaps ns configMapName in
  let err := err_of r in
  if nonnil err && IsNotFound err then ret None
  else
    logf "Deleting configmap %q" [ArgString configMapName] >>
    let* err := kubeDelete ConfigMaps ns configMapName foreground in
    if nonnil err && negb (IsNotFound err) then
      logf "configMap.Delete for %q failed: %s"
        [ArgString configMapName; ArgError err] >>
      ret err
    else ret None.

Definition deleteService (u : Revision) (ns : string) : M St (option error) :=
  let serviceName := GetElaK8SServiceNameForRevision u in
  logf "Deleting service %q" [ArgString serviceName] >>
  let* err := kubeDelete Services ns serviceName foreground in
  if nonnil err && negb (IsNotFound err) then
    logf "service.Delete for %q failed: %s" [ArgString serviceName; ArgError err] >>
    ret err
  else ret None.

Definition deleteAutoscaler (u : Revision) (ns : string) : M St (option error) :=
  let autoscalerName := GetRevisionAutoscalerName u in
  let* r := kubeGet HorizontalPodAutoscalers ns autoscalerName in
  let err := err_of r in
  if nonnil err && IsNotFound err then ret None
  else
    logf "Deleting autoscaler %q" [ArgString autoscalerName] >>
    let* err := kubeDelete HorizontalPodAutoscalers ns autoscalerName foreground in
    if nonnil err && negb (IsNotFound err) then
      logf "autoscaler.Delete for %q failed: %s"
        [ArgString autoscalerName; ArgError err] >>
      ret err
    else ret None.
(** *** reconcile-X *)

Definition reconcileDeployment (u : Revision) (ns : string) : M St (option error) :=
  (* First, check if deployment exists already. *)
  let deploymentName := GetRevisionDeploymentName u in
  let* r := kubeGet Deployments ns deploymentName in
  let err := err_of r in
  if nonnil err then
    if negb (IsNotFound err) then
      logf "deployments.Get for %q failed: %s" [ArgString deploymentName; ArgError err] >>
      ret err
    else
      logf "Deployment %q doesn't exist, creating" [ArgString deploymentName] >>
      (* Create the deployment. *)
      let controllerRef := NewControllerRef (RevMeta u) controllerKind in
      (* Create a single pod so that it gets created before deployment->RS
         to try to speed things up *)
      let podSpec := MakeElaPodSpec u in
      let pod : Obj :=
        {| ObjMeta :=
             {| Name := GetRevisionPodName u;
                Namespace := ns;
                UID := "";
                Labels := [];
                OwnerReferences := [];
                DeletionTimestamp := None;
                Finalizers := [] |};
           ObjPayload := PodPayload podSpec |} in
      let pod := append_OwnerReference controllerRef pod in
      let* r := kubeCreate Pods ns pod in
      let err := err_of r in
      (if nonnil err then
         (* It's fine if this doesn't work because deployment creates
            things below, just slower. *)
         logf "Failed to create pod: %s" [ArgError err]
       else ret tt) >>
      let deployment := MakeElaDeployment u ns in
      let deployment := append_OwnerReference controllerRef deployment in
      let deployment := set_Template_Spec podSpec deployment in
      logf "Creating Deployment: %q" [ArgString (Name (ObjMeta deployment))] >>
      let* r := kubeCreate Deployments ns deployment in
      let createErr := err_of r in
      ret createErr
  else
    logf "Found existing deployment %q" [ArgString deploymentName] >>
    ret None.

Definition reconcileNginxConfig (u : Revision) (ns : string) : M St (option error) :=
  let configMapName := GetRevisionNginxConfigMapName u in
  let* r := kubeGet ConfigMaps ns configMapName in
  let err := err_of r in
  if nonnil err then
    if negb (IsNotFound err) then
      logf "configmaps.Get for %q failed: %s" [ArgString configMapName; ArgError err] >>
      ret err
    else
      logf "ConfigMap %q doesn't exist, creating" [ArgString configMapName] >>
      let controllerRef := NewControllerRef (RevMeta u) controllerKind in
      let* configMap := MakeNginxConfigMap u ns in
      let configMap := append_OwnerReference controllerRef configMap in
      logf "Creating configmap: %q" [ArgString (Name (ObjMeta configMap))] >>
      let* r := kubeCreate ConfigMaps ns configMap in
      ret (err_of r)
  else
    logf "Found existing ConfigMap %q" [ArgString configMapName] >>
    ret None.

Definition reconcileService (u : Revision) (ns : string)
  : M St (string * option error) :=
  let serviceName := GetElaK8SServiceNameForRevision u in
  let* r := kubeGet Services ns serviceName in
  let err := err_of r in
  if nonnil err then
    if negb (IsNotFound err) then
      logf "services.Get for %q failed: %s" [ArgString serviceName; ArgError err] >>
      ret ("", err)
    else
      logf "serviceName %q doesn't exist, creating" [ArgString serviceName] >>
      let controllerRef := NewControllerRef (RevMeta u) controllerKind in
      let service := MakeRevisionK8sService u ns in
      let service := append_OwnerReference controllerRef service in
      logf "Creating service: %q" [ArgString (Name (ObjMeta service))] >>
      let* r := kubeCreate Services ns service in
      ret (serviceName, err_of r)
  else
    logf "Found existing service %q" [ArgString serviceName] >>
    ret (serviceName, None).

Definition reconcileAutoscaler (u : Revision) (ns : string) : M St (option error) :=
  let autoscalerName := GetRevisionAutoscalerName u in
  let* r := kubeGet HorizontalPodAutoscalers ns autoscalerName in
  let err := err_of r in
  if nonnil err then
    if negb (IsNotFound err) then
      logf "autoscaler.Get for %q failed: %s" [ArgString autoscalerName; ArgError err] >>
      ret err
    else
      logf "Autoscaler %q doesn't exist, creating" [ArgString autoscalerName] >>
      let controllerRef := NewControllerRef (RevMeta u) controllerKind in
      let autoscaler := MakeElaAutoscaler u ns in
      let autoscaler := append_OwnerReference controllerRef autoscaler in
      logf "Creating autoscaler: %q" [ArgString (Name (ObjMeta autoscaler))] >>
      let* r := kubeCreate HorizontalPodAutoscalers ns autoscaler in
      ret (err_of r)
  else
    logf "Found existing Autoscaler %q" [ArgString autoscalerName] >>
    ret None.

(** *** The two paths

    Both assign to [u.Status] through the pointer they are given; here the
    working copy as the path leaves it is returned next to the error. *)

Definition logIf (err : option error) (format : string) : M St unit :=
  if nonnil err then logf format [ArgError err] else ret tt.

Definition deleteK8SResources (u : Revision) (ns : string)
  : M St (option error * Revision) :=
  logf "Deleting the resources for %s\n" [ArgString (Name (RevMeta u))] >>
  let* err := deleteDeployment u ns in
  logIf err "Failed to delete a deployment: %s" >>
  logf "Deleted deployment" [] >>
  let* err := deleteAutoscaler u ns in
  logIf err "Failed to delete autoscaler: %s" >>
  logf "Deleted autoscaler" [] >>
  let* err := deleteNginxConfig u ns in
  logIf err "Failed to delete configmap: %s" >>
  logf "Deleted nginx configmap" [] >>
  let* err := deleteService u ns in
  logIf err "Failed to delete k8s service: %s" >>
  logf "Deleted service" [] >>
  (* And the deployment is no longer ready, so update that *)
  let u := with_Conditions
             [ {| CondType := "Ready"; CondStatus := "False"; CondReason := "Inactive" |} ]
             u in
  logf "2. Updating status with the following conditions %+v"
    [ArgConditions (Conditions (Status u))] >>
  let* r := updateStatus u in
  let err := err_of r in
  if nonnil err then
    logf "Error recording build completion: %s" [ArgError err] >>
    ret (err, u)
  else ret (None, u).

Definition createK8SResources (u : Revision) (ns : string)
  : M St (option error * Revision) :=
  (* Fire off a Deployment.. *)
  let* err := reconcileDeployment u ns in
  if nonnil err then
    logf "Failed to create a deployment: %s" [ArgError err] >>
    ret (err, u)
  else
    (* Autoscale the service *)
    let* err := reconcileAutoscaler u ns in
    logIf err "Failed to create autoscaler: %s" >>
    (* Create nginx config *)
    let* err := reconcileNginxConfig u ns in
    logIf err "Failed to create nginx configmap: %s" >>
    (* Create k8s service *)
    let* res := reconcileService u ns in
    let serviceName := fst res in
    let err := snd res in
    let* u :=
      (if nonnil err then
         logf "Failed to create k8s service: %s" [ArgError err] >> ret u
       else ret (with_ServiceName serviceName u)) in
    (* By updating our deployment status we will trigger a Reconcile()
       that will watch for Deployment completion. *)
    let u := with_Conditions
               [ {| CondType := "Ready"; CondStatus := "False"; CondReason := "Deploying" |} ]
               u in
    logf "2. Updating status with the following conditions %+v"
      [ArgConditions (Conditions (Status u))] >>
    let* r := updateStatus u in
    let err := err_of r in
    if nonnil err then
      logf "Error recording build completion: %s" [ArgError err] >>
      ret (err, u)
    else ret (None, u).

(** [meta.Accessor] on a Revision hands back its object metadata. *)
Definition meta_Accessor (u : Revision) : ObjectMeta * option error :=
  (RevMeta u, None).

(** reconcileWithImage handles enqueued messages that have an image. *)
Definition reconcileWithImage (u : Revision) (ns : string)
  : M St (option error * Revision) :=
  let accessor := fst (meta_Accessor u) in
  let err := snd (meta_Accessor u) in
  if nonnil err then
    logf "Failed to get metadata: %s" [ArgError err] >>
    panic "Failed to get metadata"
  else
    let deletionTimestamp := DeletionTimestamp accessor in
    logf "Check the deletionTimestamp: %s\n" [ArgTime deletionTimestamp] >>
    let elaNS := GetElaNamespaceName (Namespace (RevMeta u)) in
    match deletionTimestamp with
    | None =>
        logf "Creating or reconciling resources for %s\n"
          [ArgString (Name (RevMeta u))] >>
        createK8SResources u elaNS
    | Some _ => deleteK8SResources u elaNS
    end.

(** syncHandler compares the actual state with the desired, and attempts
    to converge the two. It then updates the Status block of the resource
    with the current status of the resource. *)
Definition syncHandler (key : string) : M St (option error) :=
  (* Convert the namespace/name string into a distinct namespace and name *)
  match SplitMetaNamespaceKey key with
  | Err _ =>
      handleError "invalid resource key: %s" [ArgString key] >>
      ret None
  | Ok (namespace, name) =>
      logf "Running reconcile Revision for %q:%q\n"
        [ArgString namespace; ArgString name] >>
      (* Get the Revision resource with this namespace/name *)
      let* r := listerGet namespace name in
      match r with
      | Err e =>
          (* The resource may no longer exist, in which case we stop
             processing. *)
          if IsNotFound (Some e) then
            handleError "revision '%s' in work queue no longer exists"
              [ArgString key] >>
            ret None
          else ret (Some e)
      | Ok rev =>
          let* r := getOrCreateRevisionNamespace namespace in
          match r with
          | Err e =>
              logf "Failed to create namespace: %s" [ArgError (Some e)] >>
              panic "Failed to create namespace"
          | Ok ns =>
              logf "Namespace %q validated to exist, moving on" [ArgString ns] >>
              let* res := reconcileWithImage rev namespace in
              printErr (fst res)
          end
      end
  end.

(** processNextWorkItem will read a single work item off the workqueue and
    attempt to process it, by calling the syncHandler.  The error of the
    wrapped block is a [fmt.Errorf] value, kept as its format and
    arguments. *)
Definition processNextWorkItem : M St bool :=
  let* got := queueGet in
  let obj := fst got in
  let shutdown := snd got in
  if shutdown then ret false
  else
    (* We wrap this block in a func so we can defer c.workqueue.Done. *)
    let* err :=
      defer (queueDone obj)
        (match obj with
         | ItemString key =>
             (* Run the syncHandler, passing it the namespace/name string
                of the resource to be synced. *)
             let* err := syncHandler key in
             if nonnil err then
               ret (Some ("error syncing '%s': %s", [ArgString key; ArgError err]))
             else
               (* Finally, if no error occurs we Forget this item so it
                  does not get queued again until another change happens. *)
               queueForget obj >>
               infof "Successfully synced '%s'" [ArgString key] >>
               ret None
         | _ =>
             (* As the item in the workqueue is actually invalid, we call
                Forget here else we'd go into a loop of attempting to
                process a work item that is invalid. *)
             queueForget obj >>
             handleError "expected string in workqueue but got %#v" [ArgItem obj] >>
             ret None
         end) in
    match err with
    | Some (format, args) => handleError format args >> ret true
    | None => ret true
    end.
End Controller.

#[global] Instance Item_eq_dec : EqDecision Item.
Proof. solve_decision. Defined.

#[global] Instance Kind_eq_dec : EqDecision Kind.
Proof. solve_decision. Defined.

#[global] Instance Kind_countable : Countable Kind.
Proof.
  refine (inj_countable'
            (fun k => match k with
                      | Pods => 0 | Deployments => 1 | HorizontalPodAutoscalers => 2
                      | ConfigMaps => 3 | Services => 4
                      end)
            (fun n => match n with
                      | 0 => Pods | 1 => Deployments | 2 => HorizontalPodAutoscalers
                      | 3 => ConfigMaps | _ => Services
                      end) _).
  by intros [].
Defined.

(** ** Vocabulary of the properties *)

(** The four children of a Revision. *)
Inductive Child := Deployment | Autoscaler | NginxConfig | K8sService.

Definition children : list Child := [Deployment; Autoscaler; NginxConfig; K8sService].

Definition kind (c : Child) : Kind :=
  match c with
  | Deployment => Deployments
  | Autoscaler => HorizontalPodAutoscalers
  | NginxConfig => ConfigMaps
  | K8sService => Services
  end.

Section Vocabulary.
Context {PodSpec DeploymentSpec ServiceSpec AutoscalerSpec W : Type}.
Context {cs : Clientset PodSpec DeploymentSpec ServiceSpec AutoscalerSpec W}.
Context {hp : Helpers PodSpec DeploymentSpec ServiceSpec AutoscalerSpec}.

Local Abbreviation Obj := (Object PodSpec DeploymentSpec ServiceSpec AutoscalerSpec).
Local Abbreviation Ev := (Event PodSpec DeploymentSpec ServiceSpec AutoscalerSpec).
Local Abbreviation Api := (ApiCall PodSpec DeploymentSpec ServiceSpec AutoscalerSpec).
Local Abbreviation State := (St (W := W) (PodSpec := PodSpec) (DeploymentSpec := DeploymentSpec)
                                (ServiceSpec := ServiceSpec) (AutoscalerSpec := AutoscalerSpec)).

(** The deterministic name of a child. *)
Definition child_name (c : Child) (u : Revision) : string :=
  match c with
  | Deployment => GetRevisionDeploymentName u
  | Autoscaler => GetRevisionAutoscalerName u
  | NginxConfig => GetRevisionNginxConfigMapName u
  | K8sService => GetElaK8SServiceNameForRevision u
  end.

(** reconcile-X and delete-X of each child; of reconcile-service, the
    error. *)
Definition reconcile (c : Child) (u : Revision) (ns : string) : M State (option error) :=
  match c with
  | Deployment => reconcileDeployment u ns
  | Autoscaler => reconcileAutoscaler u ns
  | NginxConfig => reconcileNginxConfig u ns
  | K8sService => let* res := reconcileService u ns in ret (snd res)
  end.

Definition delete_child (c : Child) (u : Revision) (ns : string) : M State (option error) :=
  match c with
  | Deployment => deleteDeployment u ns
  | Autoscaler => deleteAutoscaler u ns
  | NginxConfig => deleteNginxConfig u ns
  | K8sService => deleteService u ns
  end.

(** The owner-reference back to the Revision. *)
Definition owner_ref (u : Revision) : OwnerReference :=
  NewControllerRef (RevMeta u) controllerKind.

(** The payload of a child, owner-reference attached. *)
Definition desired (c : Child) (u : Revision) (ns : string) : Obj :=
  match c with
  | Deployment =>
      set_Template_Spec (MakeElaPodSpec u)
        (append_OwnerReference (owner_ref u) (MakeElaDeployment u ns))
  | Autoscaler => append_OwnerReference (owner_ref u) (MakeElaAutoscaler u ns)
  | NginxConfig =>
      append_OwnerReference (owner_ref u) (NginxConfigMap u ns (getNginxConfig false))
  | K8sService => append_OwnerReference (owner_ref u) (MakeRevisionK8sService u ns)
  end.

(** The pod that goes ahead of the deployment. *)
Definition desired_pod (u : Revision) (ns : string) : Obj :=
  append_OwnerReference (owner_ref u)
    {| ObjMeta :=
         {| Name := GetRevisionPodName u; Namespace := ns; UID := ""; Labels := [];
            OwnerReferences := []; DeletionTimestamp := None; Finalizers := [] |};
       ObjPayload := PodPayload (MakeElaPodSpec u) |}.

(** What can be seen of a run from outside: how it ended, the world it
    left and the API calls made, log lines aside. *)
Definition observe {A} (r : Outcome A * State) : Outcome A * W * list Api :=
  (fst r, fst (snd r), calls (snd (snd r))).

(** The state after [if err != nil { log.Printf(format, err) }]. *)
Definition logged (format : string) (err : option error) (s : State) : State :=
  if nonnil err then (fst s, snd s ++ [Log format [ArgError err]]) else s.

Definition log_line (format : string) (args : list LogArg) (s : State) : State :=
  (fst s, snd s ++ [Log format args]).

(** The status each path writes. *)
Definition not_ready (reason : string) : list RevisionCondition :=
  [ {| CondType := "Ready"; CondStatus := "False"; CondReason := reason |} ].

(** delete-X as the document words it: fetch by the derived name and
    succeed if not found; otherwise a foreground-cascading delete, whose
    not-found is success and whose other errors are returned. *)
Definition delete_protocol (k : Kind) (ns name : string) : M State (option error) :=
  let* r := kubeGet k ns name in
  if IsNotFound (err_of r) then ret None
  else
    let* err := kubeDelete k ns name foreground in
    if IsNotFound err then ret None else ret err.

Definition follows_delete_protocol (c : Child) : Prop :=
  forall (u : Revision) (ns : string) (s : State),
    observe (delete_child c u ns s) = observe (delete_protocol (kind c) ns (child_name c u) s).

(** The same without the fetch. *)
Definition delete_unfetched (k : Kind) (ns name : string) : M State (option error) :=
  let* err := kubeDelete k ns name foreground in
  if IsNotFound err then ret None else ret err.

(** An error of the deployment operation ends the path there and is the
    path's error. *)
Definition deployment_error_aborts
    (path : Revision -> string -> M State (option error * Revision))
    (deployment_op : Revision -> string -> M State (option error)) : Prop :=
  forall (u : Revision) (ns : string) (s s1 : State) (e : error),
    deployment_op u ns s = (Returns (Some e), s1) ->
    fst (path u ns s) = Returns (Some e, u) /\
    fst (snd (path u ns s)) = fst s1 /\
    calls (snd (snd (path u ns s))) = calls (snd s1).

(** [m], started in [s], returns [a] and leaves [s']. *)
Definition runs {A} (m : M State A) (s : State) (a : A) (s' : State) : Prop :=
  m s = (Returns a, s').

(** The create path past the deployment: every later step runs from the
    state its predecessor left, a failure adding a log line and nothing
    else, and the path's error is the status updater's. *)
Definition create_path_continues (u : Revision) (ns : string) (s s1 : State) : Prop :=
  exists (ea : option error) (s2 : State) (ec : option error) (s3 : State)
         (res : string * option error) (s4 : State) (r : result Revision) (s5 : State),
    runs (reconcileAutoscaler u ns) s1 ea s2 /\
    runs (reconcileNginxConfig u ns)
         (logged "Failed to create autoscaler: %s" ea s2) ec s3 /\
    runs (reconcileService u ns)
         (logged "Failed to create nginx configmap: %s" ec s3) res s4 /\
    let u' := with_Conditions (not_ready "Deploying")
                (if nonnil (snd res) then u else with_ServiceName (fst res) u) in
    runs (updateStatus u')
         (log_line "2. Updating status with the following conditions %+v"
            [ArgConditions (not_ready "Deploying")]
            (logged "Failed to create k8s service: %s" (snd res) s4)) r s5 /\
    runs (createK8SResources u ns) s (err_of r, u')
         (logged "Error recording build completion: %s" (err_of r) s5).

(** The delete path: the four deletes in order, none cutting the path
    short, then the status update, whose error is the path's. *)
Definition delete_path_continues (u : Revision) (ns : string) (s : State) : Prop :=
  exists (e1 : option error) (s1 : State) (e2 : option error) (s2 : State)
         (e3 : option error) (s3 : State) (e4 : option error) (s4 : State)
         (r : result Revision) (s5 : State),
    runs (deleteDeployment u ns)
         (log_line "Deleting the resources for %s\n" [ArgString (Name (RevMeta u))] s)
         e1 s1 /\
    runs (deleteAutoscaler u ns)
         (log_line "Deleted deployment" []
            (logged "Failed to delete a deployment: %s" e1 s1)) e2 s2 /\
    runs (deleteNginxConfig u ns)
         (log_line "Deleted autoscaler" []
            (logged "Failed to delete autoscaler: %s" e2 s2)) e3 s3 /\
    runs (deleteService u ns)
         (log_line "Deleted nginx configmap" []
            (logged "Failed to delete configmap: %s" e3 s3)) e4 s4 /\
    let u' := with_Conditions (not_ready "Inactive") u in
    runs (updateStatus u')
         (log_line "2. Updating status with the following conditions %+v"
            [ArgConditions (not_ready "Inactive")]
            (log_line "Deleted service" []
               (logged "Failed to delete k8s service: %s" e4 s4))) r s5 /\
    runs (deleteK8SResources u ns) s (err_of r, u')
         (logged "Error recording build completion: %s" (err_of r) s5).

(** The cluster reports the child gone: to the fetch, or, for the service,
    which is deleted unfetched, to the delete. *)
Definition answers_not_found (c : Child) (u : Revision) (ns : string) (w : W) : bool :=
  match c with
  | K8sService =>
      IsNotFound (fst (kube_Delete (kind c) ns (child_name c u) foreground w))
  | _ => IsNotFound (err_of (fst (kube_Get (kind c) ns (child_name c u) w)))
  end.

Definition creates_kind (k : Kind) (c : Api) : bool :=
  match c with
  | KubeCreate k' _ _ => bool_decide (k' = k)
  | _ => false
  end.


End Vocabulary.

(** ** An in-memory cluster

    The object tracker behind the fake clientsets: objects live in finite
    maps keyed by kind, namespace and name; a get of a missing object and
    a delete of a missing object answer not-found, a create of a present
    one answers already-exists.  Reactors, as tests prepend them, let a
    verb on a resource fail with a chosen error before the tracker is
    consulted. *)

Module Fake.
Section Fake.
Context {PodSpec DeploymentSpec ServiceSpec AutoscalerSpec : Type}.
Context {hp : Helpers PodSpec DeploymentSpec ServiceSpec AutoscalerSpec}.

Local Abbreviation Obj := (Object PodSpec DeploymentSpec ServiceSpec AutoscalerSpec).

Record Reactor := { verb : string; resource : string; reaction : error }.

Record World := {
  objects : gmap (Kind * string * string) Obj;
  revisions : gmap (string * string) Revision;
  informer : gmap (string * string) Revision;
  namespaces : gset string;
  reactors : list Reactor;
  queue : list Item;
  processing : list Item;
  forgotten : list Item }.

Definition resource_of (k : Kind) : string :=
  match k with
  | Pods => "pods"
  | Deployments => "deployments"
  | HorizontalPodAutoscalers => "horizontalpodautoscalers"
  | ConfigMaps => "configmaps"
  | Services => "services"
  end.

Definition NewNotFound (res name : string) : error :=
  {| ErrReason := StatusReasonNotFound;
     ErrMessage := String.append res (String.append " " (String.append name " not found")) |}.

Definition NewAlreadyExists (res name : string) : error :=
  {| ErrReason := StatusReasonAlreadyExists;
     ErrMessage := String.append res (String.append " " (String.append name " already exists")) |}.

(** The first reactor registered for the verb and resource decides. *)
Fixpoint react (v res : string) (rs : list Reactor) : option error :=
  match rs with
  | [] => None
  | r :: rs =>
      if String.eqb (verb r) v && String.eqb (resource r) res then Some (reaction r)
      else react v res rs
  end.

Definition with_objects (m : gmap (Kind * string * string) Obj) (w : World) : World :=
  {| objects := m; revisions := revisions w; informer := informer w;
     namespaces := namespaces w; reactors := reactors w;
     queue := queue w; processing := processing w; forgotten := forgotten w |}.

Definition with_revisions (m : gmap (string * string) Revision) (w : World) : World :=
  {| objects := objects w; revisions := m; informer := informer w;
     namespaces := namespaces w; reactors := reactors w;
     queue := queue w; processing := processing w; forgotten := forgotten w |}.

Definition with_namespaces (m : gset string) (w : World) : World :=
  {| objects := objects w; revisions := revisions w; informer := informer w;
     namespaces := m; reactors := reactors w;
     queue := queue w; processing := processing w; forgotten := forgotten w |}.

Definition with_queue (q p f : list Item) (w : World) : World :=
  {| objects := objects w; revisions := revisions w; informer := informer w;
     namespaces := namespaces w; reactors := reactors w;
     queue := q; processing := p; forgotten := f |}.

Definition get (k : Kind) (ns name : string) (w : World) : result Obj * World :=
  match react "get" (resource_of k) (reactors w) with
  | Some e => (Err e, w)
  | None =>
      match objects w !! (k, ns, name) with
      | Some o => (Ok o, w)
      | None => (Err (NewNotFound (resource_of k) name), w)
      end
  end.

Definition create (k : Kind) (ns : string) (o : Obj) (w : World) : result Obj * World :=
  match react "create" (resource_of k) (reactors w) with
  | Some e => (Err e, w)
  | None =>
      match objects w !! (k, ns, Name (ObjMeta o)) with
      | Some _ => (Err (NewAlreadyExists (resource_of k) (Name (ObjMeta o))), w)
      | None => (Ok o, with_objects (<[(k, ns, Name (ObjMeta o)) := o]> (objects w)) w)
      end
  end.

Definition delete (k : Kind) (ns name : string) (opts : DeleteOptions) (w : World)
  : option error * World :=
  match react "delete" (resource_of k) (reactors w) with
  | Some e => (Some e, w)
  | None =>
      match objects w !! (k, ns, name) with
      | Some _ => (None, with_objects (base.delete (k, ns, name) (objects w)) w)
      | None => (Some (NewNotFound (resource_of k) name), w)
      end
  end.

Definition get_revision (ns name : string) (w : World) : result Revision * World :=
  match react "get" "revisions" (reactors w) with
  | Some e => (Err e, w)
  | None =>
      match revisions w !! (ns, name) with
      | Some r => (Ok r, w)
      | None => (Err (NewNotFound "revisions" name), w)
      end
  end.

Definition update_revision (ns : string) (r : Revision) (w : World)
  : result Revision * World :=
  match react "update" "revisions" (reactors w) with
  | Some e => (Err e, w)
  | None =>
      match revisions w !! (ns, Name (RevMeta r)) with
      | Some _ => (Ok r, with_revisions (<[(ns, Name (RevMeta r)) := r]> (revisions w)) w)
      | None => (Err (NewNotFound "revisions" (Name (RevMeta r))), w)
      end
  end.

(** The lister reads the informer's cache. *)
Definition lister_get (ns name : string) (w : World) : result Revision * World :=
  match informer w !! (ns, name) with
  | Some r => (Ok r, w)
  | None => (Err (NewNotFound "revision" name), w)
  end.

(** Modelled from the spec: [util.GetOrCreateRevisionNamespace] is not
    part of the sources at hand; the document has it ensure that the
    derived namespace for the child resources exists, create-if-absent. *)
Definition get_or_create_namespace (ns : string) (w : World) : result string * World :=
  let name := GetElaNamespaceName ns in
  match react "get" "namespaces" (reactors w) with
  | Some e => (Err e, w)
  | None =>
      if bool_decide (name ∈ namespaces w) then (Ok name, w)
      else
        match react "create" "namespaces" (reactors w) with
        | Some e => (Err e, w)
        | None => (Ok name, with_namespaces ({[name]} ∪ namespaces w) w)
        end
  end.

(** The queue hands out its head and keeps it as in process until it is
    done; an empty queue stands for one that was shut down.  Forgetting an
    item clears its back-off record. *)
Definition dequeue (w : World) : (Item * bool) * World :=
  match queue w with
  | [] => ((ItemOther "", true), w)
  | obj :: q => ((obj, false), with_queue q (obj :: processing w) (forgotten w) w)
  end.

Definition forget (obj : Item) (w : World) : World :=
  with_queue (queue w) (processing w) (obj :: forgotten w) w.

Definition done (obj : Item) (w : World) : World :=
  with_queue (queue w) (filter (fun o => o <> obj) (processing w)) (forgotten w) w.

#[global] Instance workqueue : Workqueue World :=
  {| queue_Get := dequeue; queue_Forget := forget; queue_Done := done |}.

#[global] Instance clientset
  : Clientset PodSpec DeploymentSpec ServiceSpec AutoscalerSpec World :=
  {| kube_Get := get;
     kube_Create := create;
     kube_Delete := delete;
     ela_Get := get_revision;
     ela_Update := update_revision;
     lister_Get := lister_get;
     util_GetOrCreateRevisionNamespace := get_or_create_namespace |}.
End Fake.
End Fake.

(** ** Vocabulary of the scenarios on the in-memory cluster *)

Section Scenarios.
Context {PodSpec DeploymentSpec ServiceSpec AutoscalerSpec : Type}.
Context {hp : Helpers PodSpec DeploymentSpec ServiceSpec AutoscalerSpec}.

Local Abbreviation Obj := (Object PodSpec DeploymentSpec ServiceSpec AutoscalerSpec).
Local Abbreviation Api := (ApiCall PodSpec DeploymentSpec ServiceSpec AutoscalerSpec).
Local Abbreviation World :=
  (Fake.World (PodSpec := PodSpec) (DeploymentSpec := DeploymentSpec)
              (ServiceSpec := ServiceSpec) (AutoscalerSpec := AutoscalerSpec)).

(** Where the reconciler looks for a child. *)
Definition key (c : Child) (u : Revision) (ns : string) : Kind * string * string :=
  (kind c, ns, child_name c u).

Definition present (w : World) (c : Child) (u : Revision) (ns : string) : bool :=
  bool_decide (is_Some (Fake.objects w !! key c u ns)).

Definition absent (w : World) (c : Child) (u : Revision) (ns : string) : Prop :=
  Fake.objects w !! key c u ns = None.

(** The Revision is in the store, under its own name. *)
Definition stored (w : World) (u : Revision) : Prop :=
  exists v : Revision,
    Fake.revisions w !! (Namespace (RevMeta u), Name (RevMeta u)) = Some v /\
    Name (RevMeta v) = Name (RevMeta u).

(** The builders name each child by its derived name. *)
Definition named_as_derived (u : Revision) (ns : string) : Prop :=
  forall c : Child, Name (ObjMeta (desired c u ns)) = child_name c u.

(** The derived names do not depend on the status block. *)
Definition names_ignore_status (u : Revision) : Prop :=
  forall (c : Child) (st : RevisionStatus), child_name c (with_Status st u) = child_name c u.

(** The cluster after reconcile-X, and the calls it made: a fetch, and
    for an absent child its create (for the deployment, the pod's
    first). *)
Definition ensure (k : Kind) (ns : string) (o : Obj)
    (m : gmap (Kind * string * string) Obj) : gmap (Kind * string * string) Obj :=
  match m !! (k, ns, Name (ObjMeta o)) with
  | Some _ => m
  | None => <[(k, ns, Name (ObjMeta o)) := o]> m
  end.

Definition after_reconcile (c : Child) (u : Revision) (ns : string) (w : World) : World :=
  if present w c u ns then w
  else
    Fake.with_objects
      (<[key c u ns := desired c u ns]>
         (match c with
          | Deployment => ensure Pods ns (desired_pod u ns) (Fake.objects w)
          | _ => Fake.objects w
          end))
      w.

Definition reconcile_calls (w : World) (c : Child) (u : Revision) (ns : string) : list Api :=
  KubeGet (kind c) ns (child_name c u)
  :: (if present w c u ns then []
      else
        match c with
        | Deployment => [KubeCreate Pods ns (desired_pod u ns)]
        | _ => []
        end ++ [KubeCreate (kind c) ns (desired c u ns)]).

(** The same for the children the create path goes through, in order. *)
Fixpoint after_children (l : list Child) (u : Revision) (ns : string) (w : World) : World :=
  match l with
  | [] => w
  | c :: l => after_children l u ns (after_reconcile c u ns w)
  end.

Fixpoint children_calls (l : list Child) (u : Revision) (ns : string) (w : World)
  : list Api :=
  match l with
  | [] => []
  | c :: l => reconcile_calls w c u ns ++ children_calls l u ns (after_reconcile c u ns w)
  end.

(** How many creates of a kind a run made. *)
Definition creates_of (k : Kind) (cl : list Api) : nat :=
  length (filter (fun c => creates_kind k c = true) cl).

(** The namespace the children of a Revision live in. *)
Definition elaNS (u : Revision) : string :=
  GetElaNamespaceName (Namespace (RevMeta u)).

(** The calls of a create path that finds no child, up to the status
    update. *)
Definition fresh_create_calls (u : Revision) (ns : string) : list Api :=
  [ KubeGet Deployments ns (child_name Deployment u);
    KubeCreate Pods ns (desired_pod u ns);
    KubeCreate Deployments ns (desired Deployment u ns);
    KubeGet HorizontalPodAutoscalers ns (child_name Autoscaler u);
    KubeCreate HorizontalPodAutoscalers ns (desired Autoscaler u ns);
    KubeGet ConfigMaps ns (child_name NginxConfig u);
    KubeCreate ConfigMaps ns (desired NginxConfig u ns);
    KubeGet Services ns (child_name K8sService u);
    KubeCreate Services ns (desired K8sService u ns) ].

(** The calls of a delete path, up to the status update. *)
Definition delete_calls_clean (u : Revision) (ns : string) : list Api :=
  [ KubeGet Deployments ns (child_name Deployment u);
    KubeGet HorizontalPodAutoscalers ns (child_name Autoscaler u);
    KubeGet ConfigMaps ns (child_name NginxConfig u);
    KubeDelete Services ns (child_name K8sService u) foreground ].
End Scenarios.

(** ** A sample instantiation

    Concrete helpers and a concrete Revision, to run the controller on the
    in-memory cluster. *)

Module Sample.
Definition suffixed (suffix : string) (u : Revision) : string :=
  String.append (Name (RevMeta u)) suffix.

Fixpoint count_slashes (s : string) : nat :=
  match s with
  | EmptyString => 0
  | String c s => (if Ascii.eqb c "/"%char then 1 else 0) + count_slashes s
  end.

Fixpoint before_slash (s : string) : string :=
  match s with
  | EmptyString => EmptyString
  | String c s => if Ascii.eqb c "/"%char then EmptyString else String c (before_slash s)
  end.

Fixpoint after_slash (s : string) : string :=
  match s with
  | EmptyString => EmptyString
  | String c s => if Ascii.eqb c "/"%char then s else after_slash s
  end.

(** [cache.SplitMetaNamespaceKey]: one part is a name alone, two parts are
    namespace and name, anything else is an error. *)
Definition split_key (key : string) : result (string * string) :=
  match count_slashes key with
  | 0 => Ok ("", key)
  | 1 => Ok (before_slash key, after_slash key)
  | _ => Err {| ErrReason := StatusReasonUnknown;
                ErrMessage := String.append "unexpected key format: " key |}
  end.

Definition meta (name ns : string) : ObjectMeta :=
  {| Name := name; Namespace := ns; UID := ""; Labels := [];
     OwnerReferences := []; DeletionTimestamp := None; Finalizers := [] |}.

#[global] Instance helpers : Helpers string string string string :=
  {| GetRevisionDeploymentName := suffixed "-ela-deployment";
     GetRevisionAutoscalerName := suffixed "-autoscaler";
     GetRevisionNginxConfigMapName := suffixed "-proxy-configmap";
     GetElaK8SServiceNameForRevision := suffixed "-service";
     GetRevisionPodName := suffixed "-ela-pod";
     GetElaNamespaceName := fun ns => String.append ns "-ela";
     MakeElaPodSpec := fun u => ContainerImage (Spec u);
     MakeElaDeployment := fun u ns =>
       {| ObjMeta := meta (suffixed "-ela-deployment" u) ns;
          ObjPayload := DeploymentPayload "replicas: 2" "" |};
     MakeElaAutoscaler := fun u ns =>
       {| ObjMeta := meta (suffixed "-autoscaler" u) ns;
          ObjPayload := AutoscalerPayload "cpu: 10" |};
     MakeRevisionK8sService := fun u ns =>
       {| ObjMeta := meta (suffixed "-service" u) ns;
          ObjPayload := ServicePayload "port: 80" |};
     NginxConfigFile := "upstream app_server; proxy_pass app_server;";
     UpstreamToAppServer := "upstream app_server";
     UpStreamToQueue := "upstream queue";
     ProxyPassToAppServer := "proxy_pass app_server";
     ProxyPassToQueue := "proxy_pass queue";
     strings_Replace := fun s _ _ => s;
     SchemeGroupVersion := {| Group := "elafros.dev"; Version := "v1alpha1" |};
     SplitMetaNamespaceKey := split_key |}.

Definition r1 : Revision :=
  {| RevMeta :=
       {| Name := "r1"; Namespace := "default"; UID := "uid-r1"; Labels := [];
          OwnerReferences := []; DeletionTimestamp := None; Finalizers := [] |};
     Spec := {| Service := "svc"; ContainerImage := "gcr.io/app:1";
                ConcurrencyModel := "Multi" |};
     Status := {| ServiceName := ""; Conditions := [] |} |}.

(** [r1] after its owner asked for its removal. *)
Definition r1_terminating : Revision :=
  {| RevMeta :=
       {| Name := "r1"; Namespace := "default"; UID := "uid-r1"; Labels := [];
          OwnerReferences := []; DeletionTimestamp := Some 42; Finalizers := [] |};
     Spec := Spec r1;
     Status := Status r1 |}.

Definition internal_error : error :=
  {| ErrReason := StatusReasonInternalError; ErrMessage := "etcdserver: request timed out" |}.

Definition Cluster : Type :=
  Fake.World (PodSpec := string) (DeploymentSpec := string)
             (ServiceSpec := string) (AutoscalerSpec := string).

(** A cluster that stores [u], knows it in the informer's cache, and holds
    the objects [objs]. *)
Definition cluster (objs : gmap (Kind * string * string) (Object string string string string))
    (u : Revision) (rs : list Fake.Reactor) : Cluster :=
  {| Fake.objects := objs;
     Fake.revisions := {[ (Namespace (RevMeta u), Name (RevMeta u)) := u ]};
     Fake.informer := {[ (Namespace (RevMeta u), Name (RevMeta u)) := u ]};
     Fake.namespaces := ∅;
     Fake.reactors := rs;
     Fake.queue := [];
     Fake.processing := [];
     Fake.forgotten := [] |}.

(** The deployment of [u], as the create path makes it. *)
Definition deployment_of (u : Revision)
  : gmap (Kind * string * string) (Object string string string string) :=
  {[ (Deployments, elaNS u, child_name Deployment u) := desired Deployment u (elaNS u) ]}.

Definition fails (v res : string) : Fake.Reactor :=
  {| Fake.verb := v; Fake.resource := res; Fake.reaction := internal_error |}.

(** A cluster that stores [u], knows it in the informer's cache, and holds
    no other object. *)
Definition cluster_with (u : Revision) (rs : list Fake.Reactor)
  : Fake.World (PodSpec := string) (DeploymentSpec := string)
               (ServiceSpec := string) (AutoscalerSpec := string) :=
  {| Fake.objects := ∅;
     Fake.revisions := {[ (Namespace (RevMeta u), Name (RevMeta u)) := u ]};
     Fake.informer := {[ (Namespace (RevMeta u), Name (RevMeta u)) := u ]};
     Fake.namespaces := ∅;
     Fake.reactors := rs;
     Fake.queue := [];
     Fake.processing := [];
     Fake.forgotten := [] |}.

(** The same with [key] waiting in the workqueue. *)
Definition enqueued (key : string) (w : Cluster) : Cluster :=
  Fake.with_queue [ItemString key] [] [] w.
End Sample.

(** ** The rest of the controller: finalizers and the worker loop *)

(** A Go slice of strings that starts at the head of its backing array:
    the array, shared with every other slice cut from it, and the length
    of this one. *)
Record StringSlice := { backing : list string; slice_len : nat }.

Definition slice_elements (s : StringSlice) : list string := take (slice_len s) (backing s).

(** [append(s[:i], s[i+1:]...)]: the entries after [i] move one place down
    inside the backing array, whose slots from the old last one on keep
    what they held, and the result is one shorter.  [s[i+1:]] is out of
    range, a run-time panic, when [i+1] exceeds the length of [s]. *)
Definition remove_index (i : nat) (s : StringSlice) : option StringSlice :=
  if decide (i + 1 <= slice_len s) then
    Some {| backing :=
              take i (backing s)
              ++ take (slice_len s - (i + 1)) (drop (i + 1) (backing s))
              ++ drop (slice_len s - 1) (backing s);
            slice_len := slice_len s - 1 |}
  else None.

Definition with_Finalizers (fs : list string) (u : Revision) : Revision :=
  {| RevMeta :=
       {| Name := Name (RevMeta u);
          Namespace := Namespace (RevMeta u);
          UID := UID (RevMeta u);
          Labels := Labels (RevMeta u);
          OwnerReferences := OwnerReferences (RevMeta u);
          DeletionTimestamp := DeletionTimestamp (RevMeta u);
          Finalizers := fs |};
     Spec := Spec u;
     Status := Status u |}.

Section Worker.
Context {PodSpec DeploymentSpec ServiceSpec AutoscalerSpec W : Type}.
Context {cs : Clientset PodSpec DeploymentSpec ServiceSpec AutoscalerSpec W}.
Context {wq : Workqueue W}.
Context {hp : Helpers PodSpec DeploymentSpec ServiceSpec AutoscalerSpec}.

Local Abbreviation State := (St (W := W) (PodSpec := PodSpec) (DeploymentSpec := DeploymentSpec)
                                (ServiceSpec := ServiceSpec) (AutoscalerSpec := AutoscalerSpec)).

(** [for i, v := range finalizers { if v == "controller" { finalizers =
    append(finalizers[:i], finalizers[i+1:]...) } }], with [k] rounds to
    go from index [i].  The range runs over the slice as it was when the
    loop began, so the number of rounds is fixed, while [v] is read from
    the backing array as the rounds before left it. *)
Fixpoint range_finalizers (k i : nat) (finalizers : StringSlice) : M State StringSlice :=
  match k with
  | 0 => ret finalizers
  | S k =>
      match backing finalizers !! i with
      | Some v =>
          if String.eqb v "controller" then
            match remove_index i finalizers with
            | Some finalizers => range_finalizers k (S i) finalizers
            | None => panic "runtime error: slice bounds out of range"
            end
          else range_finalizers k (S i) finalizers
      | None => ret finalizers
      end
  end.

Definition removeFinalizers (u : Revision) (ns : string) : M State (option error * Revision) :=
  logf "Removing finalizers for %q\n" [ArgString (Name (RevMeta u))] >>
  let accessor := fst (meta_Accessor u) in
  let err := snd (meta_Accessor u) in
  if nonnil err then
    logf "Failed to get metadata: %s" [ArgError err] >>
    panic "Failed to get metadata"
  else
    let finalizers :=
      {| backing := Finalizers accessor; slice_len := length (Finalizers accessor) |} in
    let* finalizers :=
      range_finalizers (length (Finalizers accessor)) 0 finalizers in
    let u := with_Finalizers (slice_elements finalizers) u in
    let* _ := elaUpdate (Namespace (RevMeta u)) u in
    logf "The finalizer 'controller' is removed." [] >>
    ret (None, u).

(** runWorker is a long-running function that will continually call the
    processNextWorkItem function in order to read and process a message on
    the workqueue.  The loop has no bound of its own; [fuel] bounds the
    rounds, and [None] says that it ran out before the queue shut down. *)
Fixpoint runWorker (fuel : nat) : M State (option unit) :=
  match fuel with
  | 0 => ret None
  | S fuel =>
      let* more := processNextWorkItem in
      if more then runWorker fuel else ret (Some tt)
  end.
End Worker.

(** ** Footprints

    What a run may touch: the calls it may make, and how the world it
    leaves relates to the one it found. *)

Section Footprints.
Context {PodSpec DeploymentSpec ServiceSpec AutoscalerSpec W : Type}.
Context {cs : Clientset PodSpec DeploymentSpec ServiceSpec AutoscalerSpec W}.
Context {hp : Helpers PodSpec DeploymentSpec ServiceSpec AutoscalerSpec}.

Local Abbreviation Obj := (Object PodSpec DeploymentSpec ServiceSpec AutoscalerSpec).
Local Abbreviation Ev := (Event PodSpec DeploymentSpec ServiceSpec AutoscalerSpec).
Local Abbreviation Api := (ApiCall PodSpec DeploymentSpec ServiceSpec AutoscalerSpec).
Local Abbreviation State := (St (W := W) (PodSpec := PodSpec) (DeploymentSpec := DeploymentSpec)
                                (ServiceSpec := ServiceSpec) (AutoscalerSpec := AutoscalerSpec)).

(** The world a call leaves behind. *)
Definition world_after (c : Api) (w : W) : W :=
  match c with
  | KubeGet k ns name => snd (kube_Get k ns name w)
  | KubeCreate k ns o => snd (kube_Create k ns o w)
  | KubeDelete k ns name opts => snd (kube_Delete k ns name opts w)
  | ElaGet ns name => snd (ela_Get ns name w)
  | ElaUpdate ns r => snd (ela_Update ns r w)
  | ListerGet ns name => snd (lister_Get ns name w)
  | GetOrCreateRevisionNamespace ns => snd (util_GetOrCreateRevisionNamespace ns w)
  end.

(** However [m] ends, it has only added to the trace, every call it added
    is an [allowed] one, and the world went from where it was to an
    [R]-related one. *)
Definition confined {A} (allowed : Api -> Prop) (R : W -> W -> Prop) (m : M State A) : Prop :=
  forall s : State,
    R (fst s) (fst (snd (m s))) /\
    exists evs : list Ev,
      snd (snd (m s)) = snd s ++ evs /\ Forall allowed (calls evs).

(** The calls of the create path: fetches and creates of the children
    and of the pod, by their derived names in the namespace given, and the
    read and the write of the Revision's own status. *)
Definition create_path_call (u : Revision) (ns : string) (c : Api) : Prop :=
  match c with
  | KubeGet k ns' name => ns' = ns /\ exists ch : Child, k = kind ch /\ name = child_name ch u
  | KubeCreate k ns' o =>
      ns' = ns /\
      ((k = Pods /\ o = desired_pod u ns) \/
       exists ch : Child, k = kind ch /\ o = desired ch u ns)
  | ElaGet ns' name => ns' = Namespace (RevMeta u) /\ name = Name (RevMeta u)
  | ElaUpdate ns' r =>
      ns' = Namespace (RevMeta u) /\ Conditions (Status r) = not_ready "Deploying"
  | KubeDelete _ _ _ _ | ListerGet _ _ | GetOrCreateRevisionNamespace _ => False
  end.

(** The calls of the delete path: fetches of the children but the
    service, foreground deletes of the four children, and the read and the
    write of the Revision's own status. *)
Definition delete_path_call (u : Revision) (ns : string) (c : Api) : Prop :=
  match c with
  | KubeGet k ns' name =>
      ns' = ns /\
      exists ch : Child, ch <> K8sService /\ k = kind ch /\ name = child_name ch u
  | KubeDelete k ns' name opts =>
      ns' = ns /\ opts = foreground /\
      exists ch : Child, k = kind ch /\ name = child_name ch u
  | ElaGet ns' name => ns' = Namespace (RevMeta u) /\ name = Name (RevMeta u)
  | ElaUpdate ns' r =>
      ns' = Namespace (RevMeta u) /\ Conditions (Status r) = not_ready "Inactive"
  | KubeCreate _ _ _ | ListerGet _ _ | GetOrCreateRevisionNamespace _ => False
  end.

(** The calls whose error can come back from the handler. *)
Definition retry_source (c : Api) : Prop :=
  match c with
  | ListerGet _ _ | ElaGet _ _ | ElaUpdate _ _ => True
  | KubeGet k _ _ | KubeCreate k _ _ => k = Deployments
  | KubeDelete _ _ _ _ | GetOrCreateRevisionNamespace _ => False
  end.

(** An error [m] returns is one the cluster gave to a call [m] made,
    and that call is one [source] admits. *)
Definition blames {A} (source : Api -> Prop) (err : A -> option error) (m : M State A)
  : Prop :=
  forall (s : State) (a : A) (s' : State) (e : error),
    m s = (Returns a, s') -> err a = Some e ->
    exists (evs : list Ev) (c : Api),
      snd s' = snd s ++ evs /\ In (Call c (Some e)) evs /\ source c.

(** [m] only adds to the trace, and returns the error [given] or none. *)
Definition passes {A} (given : option error) (err : A -> option error) (m : M State A)
  : Prop :=
  forall (s : State) (a : A) (s' : State),
    m s = (Returns a, s') ->
    (err a = None \/ err a = given) /\ exists evs : list Ev, snd s' = snd s ++ evs.

(** No condition on the calls, none on the world. *)
Definition any_call (c : Api) : Prop := True.
Definition any_world (w w' : W) : Prop := True.
End Footprints.

(** The same on the in-memory cluster. *)

Section Frames.
Context {PodSpec DeploymentSpec ServiceSpec AutoscalerSpec : Type}.
Context {hp : Helpers PodSpec DeploymentSpec ServiceSpec AutoscalerSpec}.

Local Abbreviation World :=
  (Fake.World (PodSpec := PodSpec) (DeploymentSpec := DeploymentSpec)
              (ServiceSpec := ServiceSpec) (AutoscalerSpec := AutoscalerSpec)).

(** Every object of [w] is in [w'], as it was. *)
Definition keeps_objects (w w' : World) : Prop :=
  forall k o, Fake.objects w !! k = Some o -> Fake.objects w' !! k = Some o.

(** Where the pod of a Revision goes. *)
Definition pod_key (u : Revision) (ns : string) : Kind * string * string :=
  (Pods, ns, GetRevisionPodName u).

(** [w] and [w'] hold the same objects but for the children of [u]. *)
Definition same_but_children (u : Revision) (ns : string) (w w' : World) : Prop :=
  forall k, (forall c : Child, k <> key c u ns) -> Fake.objects w' !! k = Fake.objects w !! k.

(** The queue is as it was. *)
Definition same_queue (w w' : World) : Prop :=
  Fake.queue w' = Fake.queue w /\
  Fake.processing w' = Fake.processing w /\
  Fake.forgotten w' = Fake.forgotten w.
End Frames.

(** * Properties *)

Ltac unfold_m :=
  unfold runs, bind, ret, panic, kubeGet, kubeCreate, kubeDelete, elaGet, elaUpdate,
    listerGet, getOrCreateRevisionNamespace, call, logIf, logf, handleError, emit in *;
  cbn [fst snd] in *.

Section Generic.
Context {PodSpec DeploymentSpec ServiceSpec AutoscalerSpec W : Type}.
Context {cs : Clientset PodSpec DeploymentSpec ServiceSpec AutoscalerSpec W}.
Context {hp : Helpers PodSpec DeploymentSpec ServiceSpec AutoscalerSpec}.

Local Abbreviation Obj := (Object PodSpec DeploymentSpec ServiceSpec AutoscalerSpec).
Local Abbreviation Ev := (Event PodSpec DeploymentSpec ServiceSpec AutoscalerSpec).
Local Abbreviation Api := (ApiCall PodSpec DeploymentSpec ServiceSpec AutoscalerSpec).
Local Abbreviation State := (St (W := W) (PodSpec := PodSpec) (DeploymentSpec := DeploymentSpec)
                                (ServiceSpec := ServiceSpec) (AutoscalerSpec := AutoscalerSpec)).

(** ** The trace *)

Lemma calls_app (tr1 tr2 : list Ev) : calls (tr1 ++ tr2) = calls tr1 ++ calls tr2.
Proof. unfold calls. apply omap_app. Qed.

Lemma calls_snoc_call (tr : list Ev) (c : Api) (err : option error) :
  calls (tr ++ [Call c err]) = calls tr ++ [c].
Proof. by rewrite calls_app. Qed.

Lemma calls_snoc_log (tr : list Ev) (format : string) (args : list LogArg) :
  calls (tr ++ [Log format args]) = calls tr.
Proof. rewrite calls_app. cbn. by rewrite app_nil_r. Qed.

Lemma calls_snoc_handle (tr : list Ev) (format : string) (args : list LogArg) :
  calls (tr ++ [HandleError format args]) = calls tr.
Proof. rewrite calls_app. cbn. by rewrite app_nil_r. Qed.

Lemma nonnil_and_not_found (err : option error) :
  nonnil err && IsNotFound err = IsNotFound err.
Proof. by destruct err. Qed.
End Generic.

Ltac trace_simpl :=
  repeat (rewrite calls_snoc_call || rewrite calls_snoc_log || rewrite calls_snoc_handle).

Section Children.
Context {PodSpec DeploymentSpec ServiceSpec AutoscalerSpec W : Type}.
Context {cs : Clientset PodSpec DeploymentSpec ServiceSpec AutoscalerSpec W}.
Context {hp : Helpers PodSpec DeploymentSpec ServiceSpec AutoscalerSpec}.

Local Abbreviation Obj := (Object PodSpec DeploymentSpec ServiceSpec AutoscalerSpec).
Local Abbreviation Ev := (Event PodSpec DeploymentSpec ServiceSpec AutoscalerSpec).
Local Abbreviation Api := (ApiCall PodSpec DeploymentSpec ServiceSpec AutoscalerSpec).
Local Abbreviation State := (St (W := W) (PodSpec := PodSpec) (DeploymentSpec := DeploymentSpec)
                                (ServiceSpec := ServiceSpec) (AutoscalerSpec := AutoscalerSpec)).

(** ** delete-X *)

Lemma deleteDeployment_protocol : follows_delete_protocol Deployment.
Proof.
  intros u ns [w tr].
  unfold delete_child, deleteDeployment, delete_protocol, observe, kind, child_name.
  unfold_m.
  destruct (kube_Get Deployments ns (GetRevisionDeploymentName u) w) as [r w1].
  cbn [fst snd]. rewrite nonnil_and_not_found.
  destruct (IsNotFound (err_of r)); [reflexivity|]. cbn [fst snd].
  destruct (kube_Delete Deployments ns (GetRevisionDeploymentName u) foreground w1)
    as [[e|] w2]; cbn [fst snd id nonnil andb].
  - destruct (IsNotFound (Some e)); cbn [negb fst snd]; by trace_simpl.
  - cbn [IsNotFound ReasonForError fst snd]. by trace_simpl.
Qed.

Lemma deleteAutoscaler_protocol : follows_delete_protocol Autoscaler.
Proof.
  intros u ns [w tr].
  unfold delete_child, deleteAutoscaler, delete_protocol, observe, kind, child_name.
  unfold_m.
  destruct (kube_Get HorizontalPodAutoscalers ns (GetRevisionAutoscalerName u) w) as [r w1].
  cbn [fst snd]. rewrite nonnil_and_not_found.
  destruct (IsNotFound (err_of r)); [reflexivity|]. cbn [fst snd].
  destruct (kube_Delete HorizontalPodAutoscalers ns (GetRevisionAutoscalerName u)
              foreground w1) as [[e|] w2]; cbn [fst snd id nonnil andb].
  - destruct (IsNotFound (Some e)); cbn [negb fst snd]; by trace_simpl.
  - cbn [IsNotFound ReasonForError fst snd]. by trace_simpl.
Qed.

Lemma deleteNginxConfig_protocol : follows_delete_protocol NginxConfig.
Proof.
  intros u ns [w tr].
  unfold delete_child, deleteNginxConfig, delete_protocol, observe, kind, child_name.
  unfold_m.
  destruct (kube_Get ConfigMaps ns (GetRevisionNginxConfigMapName u) w) as [r w1].
  cbn [fst snd]. rewrite nonnil_and_not_found.
  destruct (IsNotFound (err_of r)); [reflexivity|]. cbn [fst snd].
  destruct (kube_Delete ConfigMaps ns (GetRevisionNginxConfigMapName u) foreground w1)
    as [[e|] w2]; cbn [fst snd id nonnil andb].
  - destruct (IsNotFound (Some e)); cbn [negb fst snd]; by trace_simpl.
  - cbn [IsNotFound ReasonForError fst snd]. by trace_simpl.
Qed.

Lemma deleteService_unfetched (u : Revision) (ns : string) (s : State) :
  observe (deleteService u ns s)
  = observe (delete_unfetched Services ns (GetElaK8SServiceNameForRevision u) s).
Proof.
  destruct s as [w tr]. unfold deleteService, delete_unfetched, observe. unfold_m.
  destruct (kube_Delete Services ns (GetElaK8SServiceNameForRevision u) foreground w)
    as [[e|] w2]; cbn [fst snd id nonnil andb].
  - destruct (IsNotFound (Some e)); cbn [negb fst snd]; by trace_simpl.
  - cbn [IsNotFound ReasonForError fst snd]. by trace_simpl.
Qed.

(** C5, as amended: delete-deployment, delete-autoscaler and
    delete-configmap fetch the child by its derived name and return
    success if it is not found, otherwise issue a foreground-cascading
    delete, take a not-found answer of the delete for success and return
    any other delete error; delete-service issues that delete straight
    away, without a fetch, and treats its answer the same way. *)
Theorem delete_child_protocol (c : Child) (u : Revision) (ns : string) (s : State) :
  observe (delete_child c u ns s)
  = observe (match c with
             | K8sService => delete_unfetched (kind c) ns (child_name c u) s
             | _ => delete_protocol (kind c) ns (child_name c u) s
             end).
Proof.
  destruct c.
  - apply deleteDeployment_protocol.
  - apply deleteAutoscaler_protocol.
  - apply deleteNginxConfig_protocol.
  - apply deleteService_unfetched.
Qed.

(** ** The status updater *)

(** C7: update-status fetches the stored Revision under the working
    copy's namespace and name; if the fetch fails, that error is returned
    and nothing is written; otherwise the object written is the fetched
    one with the working copy's status, metadata and spec as fetched. *)
Theorem updateStatus_merges_onto_latest (u : Revision) (w : W) (tr : list Ev) :
  let ns := Namespace (RevMeta u) in
  let name := Name (RevMeta u) in
  match ela_Get ns name w with
  | (Err e, w1) =>
      updateStatus u (w, tr)
      = (Returns (Err e), (w1, tr ++ [Call (ElaGet ns name) (Some e)]))
  | (Ok newu, w1) =>
      let written := {| RevMeta := RevMeta newu; Spec := Spec newu; Status := Status u |} in
      updateStatus u (w, tr)
      = (Returns (fst (ela_Update ns written w1)),
         (snd (ela_Update ns written w1),
          tr ++ [Call (ElaGet ns name) None;
                 Call (ElaUpdate ns written) (err_of (fst (ela_Update ns written w1)))]))
  end.
Proof.
  intros ns name. unfold updateStatus. unfold_m. fold ns name.
  destruct (ela_Get ns name w) as [[newu|e] w1]; cbn [fst snd err_of].
  - unfold with_Status. by rewrite <- app_assoc.
  - reflexivity.
Qed.
(** ** reconcile-X *)

Lemma owner_ref_attached (c : Child) (u : Revision) (ns : string) :
  In (owner_ref u) (OwnerReferences (ObjMeta (desired c u ns))).
Proof.
  destruct c; cbn; try (apply in_or_app; right); by left.
Qed.

Lemma reconcile_observed
    (c : Child) (u : Revision) (ns : string) (w : W) (tr : list Ev) :
  let fetch := KubeGet (kind c) ns (child_name c u) in
  match kube_Get (kind c) ns (child_name c u) w with
  | (Ok _, w1) =>
      observe (reconcile c u ns (w, tr)) = (Returns None, w1, calls tr ++ [fetch])
  | (Err e, w1) =>
      if IsNotFound (Some e) then
        let w2 := match c with
                  | Deployment => snd (kube_Create Pods ns (desired_pod u ns) w1)
                  | _ => w1
                  end in
        let ahead := match c with
                     | Deployment => [KubeCreate Pods ns (desired_pod u ns)]
                     | _ => []
                     end in
        let made := kube_Create (kind c) ns (desired c u ns) w2 in
        observe (reconcile c u ns (w, tr))
        = (Returns (err_of (fst made)), snd made,
           calls tr ++ [fetch] ++ ahead ++ [KubeCreate (kind c) ns (desired c u ns)])
      else
        observe (reconcile c u ns (w, tr)) = (Returns (Some e), w1, calls tr ++ [fetch])
  end.
Proof.
  intros fetch. subst fetch.
  destruct c; cbn [kind child_name reconcile desired];
    unfold reconcileDeployment, reconcileAutoscaler, reconcileNginxConfig,
      reconcileService, MakeNginxConfigMap, observe; unfold_m;
    match goal with
    | |- context [kube_Get ?k ?n ?m w] => destruct (kube_Get k n m w) as [[o|e] w1]
    end; cbn [fst snd err_of nonnil]; try by trace_simpl.
  all: destruct (IsNotFound (Some e)); cbn [negb fst snd]; try by trace_simpl.
  all: fold (owner_ref u); fold (desired_pod u ns).
  - destruct (kube_Create Pods ns (desired_pod u ns) w1) as [[p|e'] w2];
      cbn [fst snd err_of nonnil]; trace_simpl; by rewrite <- !app_assoc.
  - trace_simpl. by rewrite <- !app_assoc.
  - trace_simpl. by rewrite <- !app_assoc.
  - trace_simpl. by rewrite <- !app_assoc.
Qed.

(** C6: reconcile-X fetches the child by its derived name.  Found: no
    write, success.  Not found: the payload, owner-reference attached, is
    created and the create call's outcome returned (reconcile-deployment
    creates a pod of the same pod spec on the way).  Any other fetch
    error: returned as it is, no create attempted. *)
Theorem reconcile_creates_only_if_absent
    (c : Child) (u : Revision) (ns : string) (w : W) (tr : list Ev) :
  let fetch := KubeGet (kind c) ns (child_name c u) in
  In (owner_ref u) (OwnerReferences (ObjMeta (desired c u ns))) /\
  match kube_Get (kind c) ns (child_name c u) w with
  | (Ok _, w1) =>
      observe (reconcile c u ns (w, tr)) = (Returns None, w1, calls tr ++ [fetch])
  | (Err e, w1) =>
      if IsNotFound (Some e) then
        let w2 := match c with
                  | Deployment => snd (kube_Create Pods ns (desired_pod u ns) w1)
                  | _ => w1
                  end in
        let ahead := match c with
                     | Deployment => [KubeCreate Pods ns (desired_pod u ns)]
                     | _ => []
                     end in
        let made := kube_Create (kind c) ns (desired c u ns) w2 in
        observe (reconcile c u ns (w, tr))
        = (Returns (err_of (fst made)), snd made,
           calls tr ++ [fetch] ++ ahead ++ [KubeCreate (kind c) ns (desired c u ns)])
      else
        observe (reconcile c u ns (w, tr)) = (Returns (Some e), w1, calls tr ++ [fetch])
  end.
Proof.
  intros fetch. split; [apply owner_ref_attached | apply reconcile_observed].
Qed.

(** What [observe] leaves out is the log. *)
Lemma observed_run {A} (m : M State A) (s : State) (a : A) (w' : W) (cl : list Api) :
  observe (m s) = (Returns a, w', cl) ->
  exists tr' : list Ev, m s = (Returns a, (w', tr')) /\ calls tr' = cl.
Proof.
  unfold observe. destruct (m s) as [o [w1 tr1]]. cbn. intros [= -> -> <-]. eauto.
Qed.
End Children.

Section Paths.
Context {PodSpec DeploymentSpec ServiceSpec AutoscalerSpec W : Type}.
Context {cs : Clientset PodSpec DeploymentSpec ServiceSpec AutoscalerSpec W}.
Context {hp : Helpers PodSpec DeploymentSpec ServiceSpec AutoscalerSpec}.

Local Abbreviation Obj := (Object PodSpec DeploymentSpec ServiceSpec AutoscalerSpec).
Local Abbreviation Ev := (Event PodSpec DeploymentSpec ServiceSpec AutoscalerSpec).
Local Abbreviation Api := (ApiCall PodSpec DeploymentSpec ServiceSpec AutoscalerSpec).
Local Abbreviation State := (St (W := W) (PodSpec := PodSpec) (DeploymentSpec := DeploymentSpec)
                                (ServiceSpec := ServiceSpec) (AutoscalerSpec := AutoscalerSpec)).

(** ** No child operation panics *)

Ltac returns_by_cases :=
  unfold_m;
  repeat match goal with
    | |- context [kube_Get ?k ?n ?m ?w] => destruct (kube_Get k n m w) as [[?|?] ?]
    | |- context [kube_Create ?k ?n ?o ?w] => destruct (kube_Create k n o w) as [[?|?] ?]
    | |- context [kube_Delete ?k ?n ?m ?o ?w] => destruct (kube_Delete k n m o w) as [[?|] ?]
    | |- context [ela_Get ?n ?m ?w] => destruct (ela_Get n m w) as [[?|?] ?]
    | |- context [ela_Update ?n ?r ?w] => destruct (ela_Update n r w) as [[?|?] ?]
    | |- context [IsNotFound (Some ?e)] => destruct (IsNotFound (Some e))
    | _ => progress cbn [fst snd err_of nonnil andb negb id IsNotFound ReasonForError]
    end;
  eauto.

Lemma reconcile_returns (c : Child) (u : Revision) (ns : string) (s : State) :
  exists err s', reconcile c u ns s = (Returns err, s').
Proof.
  destruct s as [w tr].
  destruct c; cbn [reconcile];
    unfold reconcileDeployment, reconcileAutoscaler, reconcileNginxConfig,
      reconcileService, MakeNginxConfigMap;
    returns_by_cases.
Qed.

Lemma reconcileService_returns (u : Revision) (ns : string) (s : State) :
  exists res s', reconcileService u ns s = (Returns res, s').
Proof. destruct s as [w tr]. unfold reconcileService. returns_by_cases. Qed.

Lemma delete_child_returns (c : Child) (u : Revision) (ns : string) (s : State) :
  exists err s', delete_child c u ns s = (Returns err, s').
Proof.
  destruct s as [w tr].
  destruct c; cbn [delete_child];
    unfold deleteDeployment, deleteAutoscaler, deleteNginxConfig, deleteService;
    returns_by_cases.
Qed.

Lemma updateStatus_returns (u : Revision) (s : State) :
  exists r s', updateStatus u s = (Returns r, s').
Proof. destruct s as [w tr]. unfold updateStatus. returns_by_cases. Qed.

(** ** The two paths, step by step *)

Lemma create_path_aborts : deployment_error_aborts createK8SResources reconcileDeployment.
Proof.
  intros u ns s s1 e H. unfold createK8SResources. unfold_m. rewrite H.
  cbn [nonnil fst snd]. by trace_simpl.
Qed.

Lemma bind_runs {A B} (m : M State A) (k : A -> M State B) (s s' : State) (a : A) :
  m s = (Returns a, s') -> bind m k s = k a s'.
Proof. intros H. unfold bind. by rewrite H. Qed.

Lemma logIf_runs (err : option error) (format : string) (s : State) :
  logIf err format s = (Returns tt, logged format err s).
Proof. unfold logIf, logged. by destruct err. Qed.

Lemma logf_runs (format : string) (args : list LogArg) (s : State) :
  logf format args s = (Returns tt, log_line format args s).
Proof. reflexivity. Qed.

Ltac step :=
  erewrite bind_runs;
  [| first [eassumption | apply logIf_runs | apply logf_runs | reflexivity]].

Lemma create_path_steps (u : Revision) (ns : string) (s s1 : State) :
  reconcileDeployment u ns s = (Returns None, s1) ->
  create_path_continues u ns s s1.
Proof.
  intros H. unfold create_path_continues.
  destruct (reconcile_returns Autoscaler u ns s1) as (ea & s2 & Ha).
  destruct (reconcile_returns NginxConfig u ns
              (logged "Failed to create autoscaler: %s" ea s2)) as (ec & s3 & Hc).
  destruct (reconcileService_returns u ns
              (logged "Failed to create nginx configmap: %s" ec s3)) as (res & s4 & Hs).
  set (u' := with_Conditions (not_ready "Deploying")
               (if nonnil (snd res) then u else with_ServiceName (fst res) u)).
  destruct (updateStatus_returns u'
              (log_line "2. Updating status with the following conditions %+v"
                 [ArgConditions (not_ready "Deploying")]
                 (logged "Failed to create k8s service: %s" (snd res) s4)))
    as (r & s5 & Hu).
  cbn [reconcile] in Ha, Hc.
  exists ea, s2, ec, s3, res, s4, r, s5. repeat split; try assumption.
  unfold createK8SResources, runs. step. cbn [nonnil]. do 5 step.
  assert (Hmid : (if nonnil (snd res)
                  then logf "Failed to create k8s service: %s" [ArgError (snd res)] >> ret u
                  else ret (with_ServiceName (fst res) u))
                   s4
                 = (Returns (if nonnil (snd res) then u else with_ServiceName (fst res) u),
                    logged "Failed to create k8s service: %s" (snd res) s4)).
  { unfold logged. by destruct (snd res). }
  do 3 step. fold u'.
  unfold logged. by destruct r.
Qed.

Lemma delete_path_steps (u : Revision) (ns : string) (s : State) :
  delete_path_continues u ns s.
Proof.
  unfold delete_path_continues.
  destruct (delete_child_returns Deployment u ns
              (log_line "Deleting the resources for %s\n" [ArgString (Name (RevMeta u))] s))
    as (e1 & s1 & H1).
  destruct (delete_child_returns Autoscaler u ns
              (log_line "Deleted deployment" []
                 (logged "Failed to delete a deployment: %s" e1 s1))) as (e2 & s2 & H2).
  destruct (delete_child_returns NginxConfig u ns
              (log_line "Deleted autoscaler" []
                 (logged "Failed to delete autoscaler: %s" e2 s2))) as (e3 & s3 & H3).
  destruct (delete_child_returns K8sService u ns
              (log_line "Deleted nginx configmap" []
                 (logged "Failed to delete configmap: %s" e3 s3))) as (e4 & s4 & H4).
  destruct (updateStatus_returns (with_Conditions (not_ready "Inactive") u)
              (log_line "2. Updating status with the following conditions %+v"
                 [ArgConditions (not_ready "Inactive")]
                 (log_line "Deleted service" []
                    (logged "Failed to delete k8s service: %s" e4 s4))))
    as (r & s5 & Hu).
  cbn [delete_child] in H1, H2, H3, H4.
  exists e1, s1, e2, s2, e3, s3, e4, s4, r, s5. repeat split; try assumption.
  unfold deleteK8SResources, runs. do 15 step.
  unfold logged. by destruct r.
Qed.
End Paths.

(** ** On the in-memory cluster *)

Section OnFake.
Context {PodSpec DeploymentSpec ServiceSpec AutoscalerSpec : Type}.
Context {hp : Helpers PodSpec DeploymentSpec ServiceSpec AutoscalerSpec}.

Local Abbreviation Obj := (Object PodSpec DeploymentSpec ServiceSpec AutoscalerSpec).
Local Abbreviation Ev := (Event PodSpec DeploymentSpec ServiceSpec AutoscalerSpec).
Local Abbreviation Api := (ApiCall PodSpec DeploymentSpec ServiceSpec AutoscalerSpec).
Local Abbreviation World :=
  (Fake.World (PodSpec := PodSpec) (DeploymentSpec := DeploymentSpec)
              (ServiceSpec := ServiceSpec) (AutoscalerSpec := AutoscalerSpec)).
Local Abbreviation State :=
  (St (W := World) (PodSpec := PodSpec) (DeploymentSpec := DeploymentSpec)
      (ServiceSpec := ServiceSpec) (AutoscalerSpec := AutoscalerSpec)).

Lemma fake_create_pod (u : Revision) (ns : string) (w : World) :
  Fake.reactors w = [] ->
  snd (Fake.create Pods ns (desired_pod u ns) w)
  = Fake.with_objects (ensure Pods ns (desired_pod u ns) (Fake.objects w)) w.
Proof.
  intros Hr. unfold Fake.create, ensure. rewrite Hr. cbn [Fake.react].
  destruct (Fake.objects w !! _); [|done].
  destruct w; by cbn.
Qed.

Lemma fake_reconcile (c : Child) (u : Revision) (ns : string) (w : World) (tr : list Ev) :
  Fake.reactors w = [] ->
  named_as_derived u ns ->
  exists tr' : list Ev,
    reconcile c u ns (w, tr) = (Returns None, (after_reconcile c u ns w, tr')) /\
    calls tr' = calls tr ++ reconcile_calls w c u ns.
Proof.
  intros Hr Hn. apply observed_run.
  pose proof (reconcile_observed c u ns w tr) as H. cbn zeta in H.
  unfold after_reconcile, reconcile_calls, present, key.
  cbn [kube_Get kube_Create Fake.clientset] in H.
  unfold Fake.get at 1 in H. rewrite Hr in H. cbn [Fake.react] in H.
  destruct (Fake.objects w !! (kind c, ns, child_name c u)) as [o|] eqn:Hk.
  - rewrite bool_decide_eq_true_2 by eauto. exact H.
  - rewrite bool_decide_eq_false_2 by (intros [? [=]]).
    cbn [IsNotFound ReasonForError Fake.NewNotFound ErrReason] in H. rewrite H. clear H.
    assert (Hmade : forall m : gmap (Kind * string * string) Obj,
               m !! (kind c, ns, child_name c u) = None ->
               Fake.create (kind c) ns (desired c u ns) (Fake.with_objects m w)
               = (Ok (desired c u ns),
                  Fake.with_objects (<[(kind c, ns, child_name c u) := desired c u ns]> m) w)).
    { intros m Hm. unfold Fake.create, Fake.with_objects. cbn [Fake.reactors Fake.objects].
      rewrite Hr. cbn [Fake.react]. rewrite (Hn c). by rewrite Hm. }
    assert (Hw : Fake.with_objects (Fake.objects w) w = w) by (by destruct w).
    destruct c; cbn [kind child_name] in *.
    + rewrite fake_create_pod by done. rewrite Hmade.
      * reflexivity.
      * unfold ensure. destruct (Fake.objects w !! (Pods, _, _)); [done|].
        by rewrite lookup_insert_ne.
    + rewrite <- Hw at 1 2. rewrite Hmade by done. by rewrite app_nil_l.
    + rewrite <- Hw at 1 2. rewrite Hmade by done. by rewrite app_nil_l.
    + rewrite <- Hw at 1 2. rewrite Hmade by done. by rewrite app_nil_l.
Qed.
(** What reconcile-X leaves alone. *)

Lemma after_reconcile_reactors (c : Child) (u : Revision) (ns : string) (w : World) :
  Fake.reactors (after_reconcile c u ns w) = Fake.reactors w.
Proof. unfold after_reconcile. by destruct (present w c u ns). Qed.

Lemma after_reconcile_revisions (c : Child) (u : Revision) (ns : string) (w : World) :
  Fake.revisions (after_reconcile c u ns w) = Fake.revisions w.
Proof. unfold after_reconcile. by destruct (present w c u ns). Qed.

Lemma after_children_reactors (l : list Child) (u : Revision) (ns : string) (w : World) :
  Fake.reactors (after_children l u ns w) = Fake.reactors w.
Proof.
  revert w. induction l as [|c l IH]; intros w; [done|].
  cbn. by rewrite IH, after_reconcile_reactors.
Qed.

Lemma after_children_revisions (l : list Child) (u : Revision) (ns : string) (w : World) :
  Fake.revisions (after_children l u ns w) = Fake.revisions w.
Proof.
  revert w. induction l as [|c l IH]; intros w; [done|].
  cbn. by rewrite IH, after_reconcile_revisions.
Qed.

Lemma kind_inj (c c' : Child) : kind c = kind c' -> c = c'.
Proof. by destruct c, c'. Qed.

Lemma kind_not_Pods (c : Child) : kind c <> Pods.
Proof. by destruct c. Qed.

(** Another child's slot is untouched... *)
Lemma after_reconcile_other (c c' : Child) (u u' : Revision) (ns ns' : string) (w : World) :
  c' <> c ->
  Fake.objects (after_reconcile c u ns w) !! key c' u' ns' = Fake.objects w !! key c' u' ns'.
Proof.
  intros Hne. unfold after_reconcile. destruct (present w c u ns); [done|].
  cbn [Fake.objects Fake.with_objects]. unfold key.
  rewrite lookup_insert_ne by (intros [= H%kind_inj]; congruence).
  destruct c; try done.
  unfold ensure. destruct (Fake.objects w !! (Pods, _, _)); [done|].
  rewrite lookup_insert_ne; [done|].
  intros [= H]. by apply (kind_not_Pods c').
Qed.

(** ... and the child's own slot is filled. *)
Lemma after_reconcile_present (c : Child) (u : Revision) (ns : string) (w : World) :
  present (after_reconcile c u ns w) c u ns = true.
Proof.
  unfold after_reconcile. destruct (present w c u ns) eqn:Hp; [done|].
  unfold present. cbn [Fake.objects Fake.with_objects].
  rewrite lookup_insert_eq. by apply bool_decide_eq_true_2.
Qed.

Lemma after_reconcile_made (c : Child) (u : Revision) (ns : string) (w : World) :
  absent w c u ns ->
  Fake.objects (after_reconcile c u ns w) !! key c u ns = Some (desired c u ns).
Proof.
  intros Ha. unfold after_reconcile, present. rewrite Ha.
  rewrite bool_decide_eq_false_2 by (intros [? [=]]).
  cbn [Fake.objects Fake.with_objects]. by rewrite lookup_insert_eq.
Qed.

Lemma after_reconcile_noop (c : Child) (u : Revision) (ns : string) (w : World) :
  present w c u ns = true -> after_reconcile c u ns w = w.
Proof. intros Hp. unfold after_reconcile. by rewrite Hp. Qed.
(** ** The create path on the in-memory cluster *)

Lemma reconcileService_of_reconcile
    (u : Revision) (ns : string) (s s' : State) (e : option error) :
  reconcile K8sService u ns s = (Returns e, s') ->
  exists n : string,
    reconcileService u ns s = (Returns (n, e), s') /\
    (e = None -> n = child_name K8sService u).
Proof.
  destruct s as [w tr]. cbn [reconcile child_name]. unfold reconcileService. unfold_m.
  destruct (kube_Get Services ns (GetElaK8SServiceNameForRevision u) w) as [[o|e0] w1];
    cbn [fst snd err_of nonnil].
  - intros [= <- <-]. eauto.
  - destruct (IsNotFound (Some e0)); cbn [negb fst snd].
    + intros [= <- <-]. eauto.
    + intros [= <- <-]. eexists. split; [reflexivity|]. intros [=].
Qed.

Ltac step :=
  erewrite bind_runs;
  [| first [eassumption | apply logIf_runs | apply logf_runs | reflexivity]].

Lemma fake_create_path (u : Revision) (ns : string) (w : World) (tr : list Ev) :
  Fake.reactors w = [] ->
  named_as_derived u ns ->
  let u' := with_Conditions (not_ready "Deploying")
              (with_ServiceName (child_name K8sService u) u) in
  exists (tr4 : list Ev) (r : result Revision) (s5 : State),
    calls tr4 = calls tr ++ children_calls children u ns w /\
    runs (updateStatus u') (after_children children u ns w, tr4) r s5 /\
    runs (createK8SResources u ns) (w, tr) (err_of r, u')
         (logged "Error recording build completion: %s" (err_of r) s5).
Proof.
  intros Hr Hn u'.
  destruct (fake_reconcile Deployment u ns w tr Hr Hn) as (tr1 & H1 & C1).
  set (w1 := after_reconcile Deployment u ns w) in *.
  assert (Hr1 : Fake.reactors w1 = []) by (unfold w1; by rewrite after_reconcile_reactors).
  destruct (fake_reconcile Autoscaler u ns w1 tr1 Hr1 Hn) as (tr2 & H2 & C2).
  set (w2 := after_reconcile Autoscaler u ns w1) in *.
  assert (Hr2 : Fake.reactors w2 = []) by (unfold w2; by rewrite after_reconcile_reactors).
  destruct (fake_reconcile NginxConfig u ns w2 tr2 Hr2 Hn) as (tr3 & H3 & C3).
  set (w3 := after_reconcile NginxConfig u ns w2) in *.
  assert (Hr3 : Fake.reactors w3 = []) by (unfold w3; by rewrite after_reconcile_reactors).
  destruct (fake_reconcile K8sService u ns w3 tr3 Hr3 Hn) as (tr4 & H4 & C4).
  set (w4 := after_reconcile K8sService u ns w3) in *.
  destruct (reconcileService_of_reconcile _ _ _ _ _ H4) as (n & H4' & Hname).
  specialize (Hname eq_refl). subst n.
  set (line := Log "2. Updating status with the following conditions %+v"
                 [ArgConditions (not_ready "Deploying")] : Ev).
  destruct (updateStatus_returns u' (w4, tr4 ++ [line])) as (r & s5 & Hu).
  cbn [reconcile] in H1, H2, H3.
  exists (tr4 ++ [line]), r, s5. split; [|split].
  - unfold line. trace_simpl. rewrite C4, C3, C2, C1. cbn [children_calls children].
    fold w1 w2 w3. by rewrite app_nil_r, <- !app_assoc.
  - exact Hu.
  - unfold createK8SResources, runs. step. cbn [nonnil]. do 6 step.
    cbn [fst snd nonnil]. unfold ret at 1. fold u'. do 2 step.
    unfold logged. by destruct r.
Qed.
End OnFake.

(** ** The dispatch on the deletion marker *)

Section Dispatch.
Context {PodSpec DeploymentSpec ServiceSpec AutoscalerSpec W : Type}.
Context {cs : Clientset PodSpec DeploymentSpec ServiceSpec AutoscalerSpec W}.
Context {hp : Helpers PodSpec DeploymentSpec ServiceSpec AutoscalerSpec}.

Local Abbreviation Ev := (Event PodSpec DeploymentSpec ServiceSpec AutoscalerSpec).
Local Abbreviation State := (St (W := W) (PodSpec := PodSpec) (DeploymentSpec := DeploymentSpec)
                                (ServiceSpec := ServiceSpec) (AutoscalerSpec := AutoscalerSpec)).

Lemma reconcileWithImage_active (u : Revision) (ns : string) (s : State) :
  DeletionTimestamp (RevMeta u) = None ->
  reconcileWithImage u ns s
  = createK8SResources u (elaNS u)
      (log_line "Creating or reconciling resources for %s\n" [ArgString (Name (RevMeta u))]
         (log_line "Check the deletionTimestamp: %s\n" [ArgTime None] s)).
Proof.
  intros H. unfold reconcileWithImage, meta_Accessor. cbn [fst snd nonnil]. rewrite H.
  reflexivity.
Qed.

Lemma reconcileWithImage_terminating (u : Revision) (ns : string) (s : State) (t : Time) :
  DeletionTimestamp (RevMeta u) = Some t ->
  reconcileWithImage u ns s
  = deleteK8SResources u (elaNS u)
      (log_line "Check the deletionTimestamp: %s\n" [ArgTime (Some t)] s).
Proof.
  intros H. unfold reconcileWithImage, meta_Accessor. cbn [fst snd nonnil]. rewrite H.
  reflexivity.
Qed.

Lemma observe_outcome {A} (r r' : Outcome A * State) :
  observe r = observe r' -> fst r = fst r'.
Proof. unfold observe. by intros [= -> _ _]. Qed.

Lemma absence_is_success (c : Child) (u : Revision) (ns : string) (w : W) (tr : list Ev) :
  answers_not_found c u ns w = true ->
  fst (delete_child c u ns (w, tr)) = Returns None.
Proof.
  intros H. unfold answers_not_found in H.
  destruct c; cbn [kind child_name] in H.
  - rewrite (observe_outcome _ _ (deleteDeployment_protocol u ns (w, tr))).
    unfold delete_protocol. unfold_m. cbn [kind child_name]. by rewrite H.
  - rewrite (observe_outcome _ _ (deleteAutoscaler_protocol u ns (w, tr))).
    unfold delete_protocol. unfold_m. cbn [kind child_name]. by rewrite H.
  - rewrite (observe_outcome _ _ (deleteNginxConfig_protocol u ns (w, tr))).
    unfold delete_protocol. unfold_m. cbn [kind child_name]. by rewrite H.
  - cbn [delete_child].
    rewrite (observe_outcome _ _ (deleteService_unfetched u ns (w, tr))).
    unfold delete_unfetched. unfold_m. cbn [id]. by rewrite H.
Qed.
End Dispatch.

(** ** One cycle of the sync handler *)

Section Cycle.
Context {PodSpec DeploymentSpec ServiceSpec AutoscalerSpec W : Type}.
Context {cs : Clientset PodSpec DeploymentSpec ServiceSpec AutoscalerSpec W}.
Context {wq : Workqueue W}.
Context {hp : Helpers PodSpec DeploymentSpec ServiceSpec AutoscalerSpec}.

Local Abbreviation Ev := (Event PodSpec DeploymentSpec ServiceSpec AutoscalerSpec).
Local Abbreviation State := (St (W := W) (PodSpec := PodSpec) (DeploymentSpec := DeploymentSpec)
                                (ServiceSpec := ServiceSpec) (AutoscalerSpec := AutoscalerSpec)).

(** C1, as amended: on the create path an error of reconcile-deployment
    ends the cycle there and is the cycle's error, while the autoscaler,
    configmap and service steps each run whatever the step before
    returned, a failure only adding its log line, and the status update
    follows; on the delete path the same holds of all four deletes, the
    deployment's included: none ends the cycle, and the cycle's error is
    the status updater's. *)
Theorem deployment_error_aborts_create_path_only :
  deployment_error_aborts createK8SResources reconcileDeployment /\
  (forall (u : Revision) (ns : string) (s s1 : State),
      reconcileDeployment u ns s = (Returns None, s1) ->
      create_path_continues u ns s s1) /\
  (forall (u : Revision) (ns : string) (s : State), delete_path_continues u ns s).
Proof.
  split; [apply create_path_aborts|]. split.
  - apply create_path_steps.
  - apply delete_path_steps.
Qed.

(** C8: the sync handler returns nil on a key that does not split, nil
    when the lister reports the Revision not found, and the lister's
    error when the fetch fails otherwise; in none of the three does it
    go any further.  The worker that took the key off the queue forgets
    the item when the handler returned nil, so that it is dropped, and
    does not forget it when the handler returned an error; in both cases
    it marks the item done. *)
Theorem syncHandler_drops_or_retries (key : string) (w : W) (tr : list Ev) :
  match SplitMetaNamespaceKey key with
  | Err _ =>
      syncHandler key (w, tr)
      = (Returns None, (w, tr ++ [HandleError "invalid resource key: %s" [ArgString key]]))
  | Ok (namespace, name) =>
      let started :=
        tr ++ [Log "Running reconcile Revision for %q:%q\n"
                 [ArgString namespace; ArgString name]] in
      match lister_Get namespace name w with
      | (Err e, w1) =>
          if IsNotFound (Some e) then
            syncHandler key (w, tr)
            = (Returns None,
               (w1, started ++ [Call (ListerGet namespace name) (Some e);
                                HandleError "revision '%s' in work queue no longer exists"
                                  [ArgString key]]))
          else
            syncHandler key (w, tr)
            = (Returns (Some e), (w1, started ++ [Call (ListerGet namespace name) (Some e)]))
      | (Ok _, _) => True
      end
  end /\
  forall (w0 : W) (err : option error) (s1 : State),
    queue_Get w = ((ItemString key, false), w0) ->
    syncHandler key (w0, tr ++ [Dequeued (ItemString key) false]) = (Returns err, s1) ->
    processNextWorkItem (w, tr)
    = (Returns true,
       match err with
       | None =>
           (queue_Done (ItemString key) (queue_Forget (ItemString key) (fst s1)),
            snd s1 ++ [QueueForget (ItemString key);
                       Info "Successfully synced '%s'" [ArgString key];
                       QueueDone (ItemString key)])
       | Some e =>
           (queue_Done (ItemString key) (fst s1),
            snd s1 ++ [QueueDone (ItemString key);
                       HandleError "error syncing '%s': %s"
                         [ArgString key; ArgError (Some e)]])
       end).
Proof.
  split.
  - unfold syncHandler.
    destruct (SplitMetaNamespaceKey key) as [[namespace name]|e0]; [|reflexivity].
    unfold_m.
    destruct (lister_Get namespace name w) as [[rev|e] w1]; [exact I|].
    cbn [fst snd err_of].
    destruct (IsNotFound (Some e)); cbn [fst snd]; by rewrite <- !app_assoc.
  - intros w0 err s1 Hq Hs.
    unfold processNextWorkItem, defer, queueGet, queueDone, queueForget, infof,
      handleError, emit, bind, ret.
    cbn [fst snd]. rewrite Hq. cbn [fst snd]. rewrite !Hs.
    destruct s1 as [w1 tr1].
    destruct err as [e|]; cbn [nonnil fst snd]; by rewrite <- ?app_assoc.
Qed.

(** C10: when the Revision is fetched from the cache and the get-or-create
    of its namespace fails, the sync handler logs the error and panics;
    it does not return. *)
Theorem syncHandler_panics_on_namespace_failure
    (key namespace name : string) (rev : Revision) (e : error) (w w1 w2 : W)
    (tr : list Ev) :
  SplitMetaNamespaceKey key = Ok (namespace, name) ->
  lister_Get namespace name w = (Ok rev, w1) ->
  util_GetOrCreateRevisionNamespace namespace w1 = (Err e, w2) ->
  syncHandler key (w, tr)
  = (Panics "Failed to create namespace",
     (w2, tr ++ [Log "Running reconcile Revision for %q:%q\n"
                   [ArgString namespace; ArgString name];
                 Call (ListerGet namespace name) None;
                 Call (GetOrCreateRevisionNamespace namespace) (Some e);
                 Log "Failed to create namespace: %s" [ArgError (Some e)]])).
Proof.
  intros Hk Hl Hn. unfold syncHandler. rewrite Hk. unfold_m. rewrite Hl.
  cbn [fst snd err_of]. rewrite Hn. cbn [fst snd err_of]. by rewrite <- !app_assoc.
Qed.
End Cycle.

(** ** The calls of the create path, on any cluster *)

Section CreateCalls.
Context {PodSpec DeploymentSpec ServiceSpec AutoscalerSpec W : Type}.
Context {cs : Clientset PodSpec DeploymentSpec ServiceSpec AutoscalerSpec W}.
Context {hp : Helpers PodSpec DeploymentSpec ServiceSpec AutoscalerSpec}.

Local Abbreviation Obj := (Object PodSpec DeploymentSpec ServiceSpec AutoscalerSpec).
Local Abbreviation Ev := (Event PodSpec DeploymentSpec ServiceSpec AutoscalerSpec).
Local Abbreviation Api := (ApiCall PodSpec DeploymentSpec ServiceSpec AutoscalerSpec).
Local Abbreviation State := (St (W := W) (PodSpec := PodSpec) (DeploymentSpec := DeploymentSpec)
                                (ServiceSpec := ServiceSpec) (AutoscalerSpec := AutoscalerSpec)).





End CreateCalls.

(** ** The scenarios *)

Section Reconciled.
Context {PodSpec DeploymentSpec ServiceSpec AutoscalerSpec : Type}.
Context {hp : Helpers PodSpec DeploymentSpec ServiceSpec AutoscalerSpec}.

Local Abbreviation Obj := (Object PodSpec DeploymentSpec ServiceSpec AutoscalerSpec).
Local Abbreviation Ev := (Event PodSpec DeploymentSpec ServiceSpec AutoscalerSpec).
Local Abbreviation Api := (ApiCall PodSpec DeploymentSpec ServiceSpec AutoscalerSpec).
Local Abbreviation World :=
  (Fake.World (PodSpec := PodSpec) (DeploymentSpec := DeploymentSpec)
              (ServiceSpec := ServiceSpec) (AutoscalerSpec := AutoscalerSpec)).
Local Abbreviation State :=
  (St (W := World) (PodSpec := PodSpec) (DeploymentSpec := DeploymentSpec)
      (ServiceSpec := ServiceSpec) (AutoscalerSpec := AutoscalerSpec)).

(** *** The status updater on the in-memory cluster *)

Lemma fake_updateStatus_frame (u : Revision) (w w' : World) (tr tr' : list Ev)
    (r : result Revision) :
  updateStatus u (w, tr) = (Returns r, (w', tr')) ->
  Fake.objects w' = Fake.objects w /\
  Fake.reactors w' = Fake.reactors w /\
  exists l : list Api, calls tr' = calls tr ++ l /\ forall k, creates_of k l = 0.
Proof.
  unfold updateStatus. unfold_m. cbn [ela_Get ela_Update Fake.clientset].
  unfold Fake.get_revision, Fake.update_revision.
  destruct (Fake.react "get" "revisions" (Fake.reactors w)) as [e|]; cbn [fst snd err_of].
  { intros [= <- <- <-]. repeat split. eexists. by rewrite calls_snoc_call. }
  destruct (Fake.revisions w !! _) as [v|]; cbn [fst snd err_of].
  2:{ intros [= <- <- <-]. repeat split. eexists. by rewrite calls_snoc_call. }
  destruct (Fake.react "update" "revisions" (Fake.reactors w)) as [e|]; cbn [fst snd err_of].
  { intros [= <- <- <-]. repeat split. eexists. trace_simpl. by rewrite <- app_assoc. }
  destruct (Fake.revisions w !! _) as [v'|]; cbn [fst snd err_of].
  - intros [= <- <- <-]. repeat split. eexists. trace_simpl. by rewrite <- app_assoc.
  - intros [= <- <- <-]. repeat split. eexists. trace_simpl. by rewrite <- app_assoc.
Qed.

Lemma fake_updateStatus (u : Revision) (w : World) (tr : list Ev) :
  Fake.reactors w = [] ->
  stored w u ->
  exists (v : Revision) (w' : World) (tr' : list Ev),
    Fake.revisions w !! (Namespace (RevMeta u), Name (RevMeta u)) = Some v /\
    updateStatus u (w, tr) = (Returns (Ok (with_Status (Status u) v)), (w', tr')) /\
    stored w' u /\
    calls tr' = calls tr ++ [ElaGet (Namespace (RevMeta u)) (Name (RevMeta u));
                             ElaUpdate (Namespace (RevMeta u)) (with_Status (Status u) v)].
Proof.
  intros Hr (v & Hv & Hname).
  unfold updateStatus. unfold_m. cbn [ela_Get ela_Update Fake.clientset].
  unfold Fake.get_revision, Fake.update_revision. rewrite Hr. cbn [Fake.react].
  rewrite Hv. cbn [fst snd err_of with_Status RevMeta]. rewrite Hr. cbn [Fake.react].
  rewrite Hname, Hv. cbn [fst snd]. exists v. do 2 eexists.
  split; [reflexivity|]. split; [reflexivity|]. split.
  - unfold stored. cbn [Fake.revisions Fake.with_revisions].
    eexists. rewrite lookup_insert_eq. split; [reflexivity|]. exact Hname.
  - trace_simpl. by rewrite <- app_assoc.
Qed.

(** *** delete-X of a child that is not there *)

Lemma fake_delete_absent (c : Child) (u : Revision) (ns : string) (w : World) (tr : list Ev) :
  Fake.reactors w = [] ->
  absent w c u ns ->
  exists tr' : list Ev,
    delete_child c u ns (w, tr) = (Returns None, (w, tr')) /\
    calls tr' = calls tr ++ [match c with
                             | K8sService => KubeDelete (kind c) ns (child_name c u) foreground
                             | _ => KubeGet (kind c) ns (child_name c u)
                             end].
Proof.
  intros Hr Ha. apply observed_run. unfold absent, key in Ha.
  assert (Hg : Fake.get (kind c) ns (child_name c u) w
               = (Err (Fake.NewNotFound (Fake.resource_of (kind c)) (child_name c u)), w)).
  { unfold Fake.get. by rewrite Hr, Ha. }
  assert (Hd : Fake.delete (kind c) ns (child_name c u) foreground w
               = (Some (Fake.NewNotFound (Fake.resource_of (kind c)) (child_name c u)), w)).
  { unfold Fake.delete. by rewrite Hr, Ha. }
  destruct c; cbn [kind child_name] in *.
  - rewrite (deleteDeployment_protocol u ns (w, tr)).
    unfold delete_protocol, observe. unfold_m. cbn [kube_Get Fake.clientset kind child_name].
    rewrite Hg. cbn -[calls]. by trace_simpl.
  - rewrite (deleteAutoscaler_protocol u ns (w, tr)).
    unfold delete_protocol, observe. unfold_m. cbn [kube_Get Fake.clientset kind child_name].
    rewrite Hg. cbn -[calls]. by trace_simpl.
  - rewrite (deleteNginxConfig_protocol u ns (w, tr)).
    unfold delete_protocol, observe. unfold_m. cbn [kube_Get Fake.clientset kind child_name].
    rewrite Hg. cbn -[calls]. by trace_simpl.
  - cbn [delete_child]. rewrite (deleteService_unfetched u ns (w, tr)).
    unfold delete_unfetched, observe. unfold_m. cbn [kube_Delete Fake.clientset id].
    rewrite Hd. cbn -[calls]. by trace_simpl.
Qed.
(** *** Presence along the create path *)

Lemma present_after_other (c c' : Child) (u u' : Revision) (ns ns' : string) (w : World) :
  c' <> c ->
  present (after_reconcile c u ns w) c' u' ns' = present w c' u' ns'.
Proof. intros H. unfold present. by rewrite after_reconcile_other. Qed.

Lemma present_objects (w w' : World) (c : Child) (u : Revision) (ns : string) :
  Fake.objects w' = Fake.objects w -> present w' c u ns = present w c u ns.
Proof. intros H. unfold present. by rewrite H. Qed.

Lemma absent_not_present (w : World) (c : Child) (u : Revision) (ns : string) :
  absent w c u ns -> present w c u ns = false.
Proof.
  intros H. unfold present. rewrite H. apply bool_decide_eq_false_2. by intros [? [=]].
Qed.

Lemma children_calls_fresh (u : Revision) (ns : string) (w : World) :
  (forall c, absent w c u ns) ->
  children_calls children u ns w = fresh_create_calls u ns.
Proof.
  intros Ha. cbn [children_calls children]. unfold reconcile_calls.
  rewrite !present_after_other by done.
  rewrite !absent_not_present by done. reflexivity.
Qed.

Lemma after_children_fresh (u : Revision) (ns : string) (w : World) (c : Child) :
  (forall c, absent w c u ns) ->
  Fake.objects (after_children children u ns w) !! key c u ns = Some (desired c u ns).
Proof.
  intros Ha. cbn [after_children children].
  destruct c; rewrite ?after_reconcile_other by done;
    apply after_reconcile_made; unfold absent;
    rewrite ?after_reconcile_other by done; apply Ha.
Qed.

Lemma after_children_present (u : Revision) (ns : string) (w : World) (c : Child) :
  present (after_children children u ns w) c u ns = true.
Proof.
  cbn [after_children children].
  destruct c; rewrite ?present_after_other by done; apply after_reconcile_present.
Qed.

Lemma children_all_present (u : Revision) (ns : string) (w : World) :
  (forall c, present w c u ns = true) ->
  after_children children u ns w = w /\
  children_calls children u ns w
  = [ KubeGet Deployments ns (child_name Deployment u);
      KubeGet HorizontalPodAutoscalers ns (child_name Autoscaler u);
      KubeGet ConfigMaps ns (child_name NginxConfig u);
      KubeGet Services ns (child_name K8sService u) ].
Proof.
  intros Hp. cbn [after_children children_calls children]. unfold reconcile_calls.
  rewrite (after_reconcile_noop Deployment u ns w) by apply Hp.
  rewrite (after_reconcile_noop Autoscaler u ns w) by apply Hp.
  rewrite (after_reconcile_noop NginxConfig u ns w) by apply Hp.
  rewrite (after_reconcile_noop K8sService u ns w) by apply Hp.
  by rewrite !Hp.
Qed.

Lemma creates_of_app (k : Kind) (l1 l2 : list Api) :
  creates_of k (l1 ++ l2) = creates_of k l1 + creates_of k l2.
Proof. unfold creates_of. by rewrite filter_app, length_app. Qed.

Lemma children_calls_creates (u : Revision) (ns : string) (w : World) :
  (forall c, creates_of (kind c) (children_calls children u ns w)
             = if present w c u ns then 0 else 1) /\
  creates_of Pods (children_calls children u ns w)
  = (if present w Deployment u ns then 0 else 1).
Proof.
  cbn [children_calls children]. unfold reconcile_calls.
  rewrite !present_after_other by done.
  destruct (present w Deployment u ns) eqn:HD, (present w Autoscaler u ns) eqn:HA,
    (present w NginxConfig u ns) eqn:HN, (present w K8sService u ns) eqn:HS;
    (split; [intros []; rewrite ?HD, ?HA, ?HN, ?HS; reflexivity | reflexivity]).
Qed.
Ltac step :=
  erewrite bind_runs;
  [| first [eassumption | apply logIf_runs | apply logf_runs | reflexivity]].

(** *** Fresh create *)

(** C2: for a Revision with no deletion marker and none of its children
    in the cluster, the create path fetches and creates the deployment
    (a pod first), the autoscaler, the configmap and the service, in
    that order; each is then stored; the working copy gets the service's
    derived name and the conditions [Ready=False, Reason=Deploying]; the
    status updater runs on it and its error is the cycle's. *)
Theorem fresh_create (u : Revision) (ns : string) (w : World) (tr : list Ev) :
  DeletionTimestamp (RevMeta u) = None ->
  Fake.reactors w = [] ->
  named_as_derived u (elaNS u) ->
  (forall c, absent w c u (elaNS u)) ->
  let u' := {| RevMeta := RevMeta u;
               Spec := Spec u;
               Status := {| ServiceName := child_name K8sService u;
                            Conditions := not_ready "Deploying" |} |} in
  exists (s4 : State) (r : result Revision) (s5 : State),
    calls (snd s4) = calls tr ++ fresh_create_calls u (elaNS u) /\
    (forall c, Fake.objects (fst s4) !! key c u (elaNS u) = Some (desired c u (elaNS u))) /\
    runs (updateStatus u') s4 r s5 /\
    runs (reconcileWithImage u ns) (w, tr) (err_of r, u')
         (logged "Error recording build completion: %s" (err_of r) s5).
Proof.
  intros Hd Hr Hn Ha u'.
  destruct (fake_create_path u (elaNS u) w
              (snd (log_line "Creating or reconciling resources for %s\n"
                      [ArgString (Name (RevMeta u))]
                      (log_line "Check the deletionTimestamp: %s\n" [ArgTime None] (w, tr))))
              Hr Hn) as (tr4 & r & s5 & Hc & Hu & Hrun).
  exists (after_children children u (elaNS u) w, tr4), r, s5. repeat split.
  - cbn [snd]. rewrite Hc. unfold log_line. cbn [fst snd]. trace_simpl.
    by rewrite children_calls_fresh.
  - intros c. by apply after_children_fresh.
  - exact Hu.
  - unfold runs. rewrite reconcileWithImage_active by done. exact Hrun.
Qed.

(** *** Creates, counted *)



(** *** Create twice *)

Lemma stored_after_children (u : Revision) (ns : string) (w : World) :
  stored w u -> stored (after_children children u ns w) u.
Proof. unfold stored. by rewrite after_children_revisions. Qed.

Lemma fake_create_cycle (u : Revision) (ns : string) (w : World) (tr : list Ev) :
  Fake.reactors w = [] ->
  named_as_derived u ns ->
  stored w u ->
  exists (w' : World) (tr' : list Ev) (l : list Api),
    createK8SResources u ns (w, tr)
    = (Returns (None, with_Conditions (not_ready "Deploying")
                        (with_ServiceName (child_name K8sService u) u)),
       (w', tr')) /\
    Fake.objects w' = Fake.objects (after_children children u ns w) /\
    Fake.reactors w' = [] /\
    stored w' u /\
    calls tr' = calls tr ++ children_calls children u ns w ++ l /\
    (forall k, creates_of k l = 0).
Proof.
  intros Hr Hn Hs.
  destruct (fake_create_path u ns w tr Hr Hn) as (tr4 & r & [w5 tr5] & Hc & Hu & Hrun).
  set (u' := with_Conditions (not_ready "Deploying")
               (with_ServiceName (child_name K8sService u) u)) in *.
  destruct (fake_updateStatus u' (after_children children u ns w) tr4)
    as (v & w' & tr' & _ & Hup & Hs' & _).
  { by rewrite after_children_reactors. }
  { by apply (stored_after_children u ns w). }
  unfold runs in Hu. rewrite Hup in Hu. injection Hu as <- <- <-.
  destruct (fake_updateStatus_frame _ _ _ _ _ _ Hup) as (Hobj & Hre & l & Hl & Hnone).
  exists w', tr', l. repeat split; try done.
  - by rewrite Hre, after_children_reactors.
  - by rewrite Hl, Hc, <- app_assoc.
Qed.

Lemma no_creates_among_fetches (u : Revision) (ns : string) (k : Kind) :
  creates_of k ([ KubeGet Deployments ns (child_name Deployment u);
                  KubeGet HorizontalPodAutoscalers ns (child_name Autoscaler u);
                  KubeGet ConfigMaps ns (child_name NginxConfig u);
                  KubeGet Services ns (child_name K8sService u) ] : list Api) = 0.
Proof. reflexivity. Qed.

(** C9: for a stored Revision with no deletion marker, on a cluster
    that answers as the store stands, a first run of the create path
    leaves every child present; a second run, on the working copy with
    whatever status, returns no error, makes no create call and leaves
    the objects as they were; over the two runs a child that was absent
    has been created exactly once, a child that was present never. *)
Theorem create_path_twice
    (u : Revision) (ns : string) (w : World) (st : RevisionStatus) :
  DeletionTimestamp (RevMeta u) = None ->
  Fake.reactors w = [] ->
  stored w u ->
  (forall st', named_as_derived (with_Status st' u) (elaNS u)) ->
  names_ignore_status u ->
  exists (u1 : Revision) (w1 : World) (tr1 : list Ev)
         (u2 : Revision) (w2 : World) (tr2 : list Ev),
    reconcileWithImage u ns (w, []) = (Returns (None, u1), (w1, tr1)) /\
    (forall c, present w1 c u (elaNS u) = true) /\
    reconcileWithImage (with_Status st u) ns (w1, []) = (Returns (None, u2), (w2, tr2)) /\
    (forall k, creates_of k (calls tr2) = 0) /\
    Fake.objects w2 = Fake.objects w1 /\
    (forall c, creates_of (kind c) (calls tr1 ++ calls tr2)
               = if present w c u (elaNS u) then 0 else 1).
Proof.
  intros Hd Hr Hs Hn Hst.
  assert (Hnu : named_as_derived u (elaNS u)).
  { intros c. specialize (Hn (Status u) c). by destruct u. }
  pose (started := fun v : Revision =>
          snd (log_line "Creating or reconciling resources for %s\n"
                 [ArgString (Name (RevMeta v))]
                 (log_line "Check the deletionTimestamp: %s\n" [ArgTime None]
                    (w, [] : list Ev)))).
  destruct (fake_create_cycle u (elaNS u) w (started u) Hr Hnu Hs)
    as (w1 & tr1 & l1 & H1 & Hobj1 & Hr1 & Hs1 & Hc1 & Hl1).
  assert (Hp1 : forall c, present w1 c u (elaNS u) = true).
  { intros c. rewrite (present_objects _ _ _ _ _ Hobj1). apply after_children_present. }
  set (u2 := with_Status st u) in *.
  assert (Hp2 : forall c, present w1 c u2 (elaNS u) = true).
  { intros c. unfold present, key. unfold u2. rewrite Hst. apply Hp1. }
  destruct (fake_create_cycle u2 (elaNS u) w1 (started u2) Hr1 (Hn st) Hs1)
    as (w2 & tr2 & l2 & H2 & Hobj2 & Hr2 & Hs2 & Hc2 & Hl2).
  destruct (children_all_present u2 (elaNS u) w1 Hp2) as [Hsame Hcalls].
  rewrite Hsame in Hobj2. rewrite Hcalls in Hc2.
  assert (Hquiet : forall v, calls (started v) = []) by reflexivity.
  rewrite Hquiet, app_nil_l in Hc1, Hc2.
  do 6 eexists.
  split; [rewrite reconcileWithImage_active by done; exact H1|].
  split; [exact Hp1|].
  split; [rewrite reconcileWithImage_active by done; exact H2|].
  assert (Hnone2 : forall k, creates_of k (calls tr2) = 0).
  { intros k. rewrite Hc2.
    by rewrite creates_of_app, Hl2, (no_creates_among_fetches u2 (elaNS u) k). }
  split; [exact Hnone2|]. split; [exact Hobj2|].
  intros c. rewrite creates_of_app, Hnone2, Nat.add_0_r, Hc1.
  rewrite creates_of_app, Hl1, Nat.add_0_r.
  apply children_calls_creates.
Qed.
(** *** Teardown *)

Lemma fake_delete_path_clean (u : Revision) (ns : string) (w : World) (tr : list Ev) :
  Fake.reactors w = [] ->
  (forall c, absent w c u ns) ->
  stored w u ->
  exists (v : Revision) (w' : World) (tr' : list Ev),
    Fake.revisions w !! (Namespace (RevMeta u), Name (RevMeta u)) = Some v /\
    deleteK8SResources u ns (w, tr)
    = (Returns (None, with_Conditions (not_ready "Inactive") u), (w', tr')) /\
    Fake.objects w' = Fake.objects w /\
    calls tr'
    = calls tr ++ delete_calls_clean u ns
      ++ [ElaGet (Namespace (RevMeta u)) (Name (RevMeta u));
          ElaUpdate (Namespace (RevMeta u))
            (with_Status (Status (with_Conditions (not_ready "Inactive") u)) v)].
Proof.
  intros Hr Ha Hs.
  destruct (fake_delete_absent Deployment u ns w
              (snd (log_line "Deleting the resources for %s\n"
                      [ArgString (Name (RevMeta u))] (w, tr))) Hr (Ha _))
    as (tr1 & H1 & C1).
  destruct (fake_delete_absent Autoscaler u ns w
              (snd (log_line "Deleted deployment" [] (w, tr1))) Hr (Ha _))
    as (tr2 & H2 & C2).
  destruct (fake_delete_absent NginxConfig u ns w
              (snd (log_line "Deleted autoscaler" [] (w, tr2))) Hr (Ha _))
    as (tr3 & H3 & C3).
  destruct (fake_delete_absent K8sService u ns w
              (snd (log_line "Deleted nginx configmap" [] (w, tr3))) Hr (Ha _))
    as (tr4 & H4 & C4).
  set (u' := with_Conditions (not_ready "Inactive") u).
  destruct (fake_updateStatus u' w
              (snd (log_line "2. Updating status with the following conditions %+v"
                      [ArgConditions (not_ready "Inactive")]
                      (log_line "Deleted service" [] (w, tr4)))) Hr Hs)
    as (v & w' & tr' & Hv & Hup & _ & C5).
  destruct (fake_updateStatus_frame _ _ _ _ _ _ Hup) as (Hobj & _).
  cbn [delete_child] in H1, H2, H3, H4.
  exists v, w', tr'. split; [exact Hv|]. split; [|split; [exact Hobj|]].
  - unfold deleteK8SResources. do 15 step. reflexivity.
  - rewrite C5. unfold log_line in *. cbn [fst snd] in *.
    repeat (trace_simpl; first [rewrite C4 | rewrite C3 | rewrite C2 | rewrite C1]).
    trace_simpl. unfold delete_calls_clean. cbn [kind]. by rewrite <- !app_assoc.
Qed.

(** C4: for a Revision with the deletion marker set the cycle is the
    delete path: delete-deployment, delete-autoscaler, delete-configmap
    and delete-service run in that order, each whatever the one before
    returned; a child the cluster reports gone counts as deleted; the
    working copy gets the conditions [Ready=False, Reason=Inactive]; the
    status updater runs on it and its error is the cycle's.  With no
    child in the cluster and the Revision stored, the cycle returns no
    error and leaves the objects as they were. *)
Theorem delete_path_is_best_effort :
  (forall (W : Type) (cs : Clientset PodSpec DeploymentSpec ServiceSpec AutoscalerSpec W)
          (u : Revision) (ns : string) (t : Time)
          (s : St (W := W) (PodSpec := PodSpec) (DeploymentSpec := DeploymentSpec)
                  (ServiceSpec := ServiceSpec) (AutoscalerSpec := AutoscalerSpec)),
      DeletionTimestamp (RevMeta u) = Some t ->
      let s0 := log_line "Check the deletionTimestamp: %s\n" [ArgTime (Some t)] s in
      reconcileWithImage u ns s = deleteK8SResources u (elaNS u) s0 /\
      delete_path_continues u (elaNS u) s0 /\
      (forall (c : Child) (w : W) (tr : list Ev),
          answers_not_found c u (elaNS u) w = true ->
          fst (delete_child c u (elaNS u) (w, tr)) = Returns None)) /\
  (forall (u : Revision) (ns : string) (t : Time) (w : World) (tr : list Ev),
      DeletionTimestamp (RevMeta u) = Some t ->
      Fake.reactors w = [] ->
      (forall c, absent w c u (elaNS u)) ->
      stored w u ->
      exists (v : Revision) (w' : World) (tr' : list Ev),
        Fake.revisions w !! (Namespace (RevMeta u), Name (RevMeta u)) = Some v /\
        reconcileWithImage u ns (w, tr)
        = (Returns (None, with_Conditions (not_ready "Inactive") u), (w', tr')) /\
        Fake.objects w' = Fake.objects w /\
        calls tr'
        = calls tr ++ delete_calls_clean u (elaNS u)
          ++ [ElaGet (Namespace (RevMeta u)) (Name (RevMeta u));
              ElaUpdate (Namespace (RevMeta u))
                {| RevMeta := RevMeta v; Spec := Spec v;
                   Status := {| ServiceName := ServiceName (Status u);
                                Conditions := not_ready "Inactive" |} |}]).
Proof.
  split.
  - intros W cs u ns t s Hd s0. split; [|split].
    + by apply reconcileWithImage_terminating.
    + apply delete_path_steps.
    + intros c w tr. apply absence_is_success.
  - intros u ns t w tr Hd Hr Ha Hs.
    destruct (fake_delete_path_clean u (elaNS u) w
                (snd (log_line "Check the deletionTimestamp: %s\n" [ArgTime (Some t)]
                        (w, tr))) Hr Ha Hs) as (v & w' & tr' & Hv & H & Hobj & Hc).
    exists v, w', tr'. split; [exact Hv|]. split; [|split; [exact Hobj|]].
    + rewrite (reconcileWithImage_terminating u ns (w, tr) t Hd). exact H.
    + rewrite Hc. unfold log_line. cbn [fst snd]. by trace_simpl.
Qed.
End Reconciled.

(** ** The sample cluster, run *)

Module Runs.
Import Sample.

Local Abbreviation Ev := (Event string string string string).
Local Abbreviation Api := (ApiCall string string string string).

(** C1 fails on the delete path: with the deployment of the terminating
    [r1] in the cluster and deletes of deployments failing,
    delete-deployment returns the error, yet the path goes on to the other
    three deletes and the status update and ends without error. *)
Lemma delete_path_survives_deployment_error :
  let s : Cluster * list Ev :=
    (cluster (deployment_of r1_terminating) r1_terminating [fails "delete" "deployments"],
     []) in
  fst (deleteDeployment r1_terminating "default-ela" s) = Returns (Some internal_error) /\
  fst (deleteK8SResources r1_terminating "default-ela" s)
  = Returns (None, with_Conditions (not_ready "Inactive") r1_terminating) /\
  calls (snd (snd (deleteK8SResources r1_terminating "default-ela" s)))
  = [ KubeGet Deployments "default-ela" "r1-ela-deployment";
      KubeDelete Deployments "default-ela" "r1-ela-deployment" foreground;
      KubeGet HorizontalPodAutoscalers "default-ela" "r1-autoscaler";
      KubeGet ConfigMaps "default-ela" "r1-proxy-configmap";
      KubeDelete Services "default-ela" "r1-service" foreground;
      ElaGet "default" "r1";
      ElaUpdate "default" (with_Conditions (not_ready "Inactive") r1_terminating) ] /\
  ~ deployment_error_aborts (W := Cluster) deleteK8SResources deleteDeployment.
Proof.
  intros s.
  assert (Hd : deleteDeployment r1_terminating "default-ela" s
               = (Returns (Some internal_error),
                  snd (deleteDeployment r1_terminating "default-ela" s)))
    by (vm_compute; reflexivity).
  assert (Hp : fst (deleteK8SResources r1_terminating "default-ela" s)
               = Returns (None, with_Conditions (not_ready "Inactive") r1_terminating))
    by (vm_compute; reflexivity).
  split; [by rewrite Hd|]. split; [exact Hp|]. split; [vm_compute; reflexivity|].
  intros H. destruct (H _ _ _ _ _ Hd) as [Hout _].
  rewrite Hp in Hout. discriminate Hout.
Qed.


(** C5 fails for the service: with no service in the cluster,
    delete-service issues the delete at once, where the protocol makes a
    fetch and stops there. *)
Lemma deleteService_does_not_fetch :
  let s : Cluster * list Ev := (cluster_with r1 [], []) in
  calls (snd (snd (deleteService r1 "default-ela" s)))
  = [KubeDelete Services "default-ela" "r1-service" foreground] /\
  calls (snd (snd (delete_protocol Services "default-ela" "r1-service" s)))
  = [KubeGet Services "default-ela" "r1-service"] /\
  ~ (forall c : Child, follows_delete_protocol (W := Cluster) c).
Proof.
  intros s. split; [vm_compute; reflexivity|]. split; [vm_compute; reflexivity|].
  intros H.
  specialize (H K8sService r1 "default-ela" s).
  vm_compute in H. discriminate H.
Qed.

(** The create path of [r1], aborted by a failing deployment create and
    carried through on a cluster that answers; the delete path of the
    terminating [r1]. *)
Lemma abort_and_continue_on_r1 :
  let failing : Cluster * list Ev := (cluster_with r1 [fails "create" "deployments"], []) in
  let sound : Cluster * list Ev := (cluster_with r1 [], []) in
  (reconcileDeployment r1 "default-ela" failing
   = (Returns (Some internal_error), snd (reconcileDeployment r1 "default-ela" failing)) /\
   fst (createK8SResources r1 "default-ela" failing) = Returns (Some internal_error, r1)) /\
  (reconcileDeployment r1 "default-ela" sound
   = (Returns None, snd (reconcileDeployment r1 "default-ela" sound)) /\
   create_path_continues r1 "default-ela" sound
     (snd (reconcileDeployment r1 "default-ela" sound))) /\
  delete_path_continues r1_terminating "default-ela" sound.
Proof.
  intros failing sound.
  destruct (deployment_error_aborts_create_path_only (W := Cluster))
    as (Habort & Hcont & Hdel).
  assert (Hf : reconcileDeployment r1 "default-ela" failing
               = (Returns (Some internal_error),
                  snd (reconcileDeployment r1 "default-ela" failing)))
    by (vm_compute; reflexivity).
  assert (Hs : reconcileDeployment r1 "default-ela" sound
               = (Returns None, snd (reconcileDeployment r1 "default-ela" sound)))
    by (vm_compute; reflexivity).
  split; [split; [exact Hf | exact (proj1 (Habort _ _ _ _ _ Hf))]|].
  split; [split; [exact Hs | exact (Hcont _ _ _ _ Hs)]|].
  apply Hdel.
Defined.

(** The sync handler on ["default/r1"] when namespaces cannot be read. *)
Lemma namespace_failure_on_r1 :
  let w : Cluster := cluster_with r1 [fails "get" "namespaces"] in
  SplitMetaNamespaceKey "default/r1" = Ok ("default", "r1") /\
  lister_Get "default" "r1" w = (Ok r1, w) /\
  util_GetOrCreateRevisionNamespace "default" w = (Err internal_error, w) /\
  syncHandler "default/r1" (w, [])
  = (Panics "Failed to create namespace",
     (w, [] ++ [Log "Running reconcile Revision for %q:%q\n"
                  [ArgString "default"; ArgString "r1"];
                Call (ListerGet "default" "r1") None;
                Call (GetOrCreateRevisionNamespace "default") (Some internal_error);
                Log "Failed to create namespace: %s" [ArgError (Some internal_error)]])).
Proof.
  intros w.
  assert (Hk : SplitMetaNamespaceKey "default/r1" = Ok ("default", "r1")) by reflexivity.
  assert (Hl : lister_Get "default" "r1" w = (Ok r1, w)) by (vm_compute; reflexivity).
  assert (Hn : util_GetOrCreateRevisionNamespace "default" w = (Err internal_error, w))
    by (vm_compute; reflexivity).
  split; [exact Hk|]. split; [exact Hl|]. split; [exact Hn|].
  exact (syncHandler_panics_on_namespace_failure
           "default/r1" "default" "r1" r1 internal_error w w w [] Hk Hl Hn).
Defined.
Lemma r1_named_as_derived (st : RevisionStatus) :
  named_as_derived (with_Status st r1) "default-ela".
Proof. by intros []. Qed.

Lemma r1_stored : stored (cluster_with r1 []) r1.
Proof. exists r1. split; [|reflexivity]. vm_compute. reflexivity. Qed.

Lemma r1_terminating_stored : stored (cluster_with r1_terminating []) r1_terminating.
Proof. exists r1_terminating. split; [|reflexivity]. vm_compute. reflexivity. Qed.

Lemma nothing_there (u : Revision) (c : Child) : absent (cluster_with u []) c u (elaNS u).
Proof. unfold absent. cbn [Fake.objects cluster_with]. apply lookup_empty. Qed.

(** [r1], fresh, on the empty cluster. *)
Lemma fresh_create_of_r1 :
  let w : Cluster := cluster_with r1 [] in
  let u' := {| RevMeta := RevMeta r1;
               Spec := Spec r1;
               Status := {| ServiceName := "r1-service";
                            Conditions := not_ready "Deploying" |} |} in
  DeletionTimestamp (RevMeta r1) = None /\
  Fake.reactors w = [] /\
  named_as_derived r1 "default-ela" /\
  (forall c, absent w c r1 "default-ela") /\
  exists (s4 : Cluster * list Ev) (r : result Revision) (s5 : Cluster * list Ev),
    calls (snd s4) = fresh_create_calls r1 "default-ela" /\
    (forall c, Fake.objects (fst s4) !! key c r1 "default-ela"
               = Some (desired c r1 "default-ela")) /\
    runs (updateStatus u') s4 r s5 /\
    runs (reconcileWithImage r1 "default") (w, []) (err_of r, u')
         (logged "Error recording build completion: %s" (err_of r) s5).
Proof.
  intros w u'.
  assert (Hd : DeletionTimestamp (RevMeta r1) = None) by reflexivity.
  assert (Hr : Fake.reactors w = []) by reflexivity.
  assert (Hn : named_as_derived r1 (elaNS r1)) by apply (r1_named_as_derived (Status r1)).
  assert (Ha : forall c, absent w c r1 (elaNS r1)) by apply nothing_there.
  split; [exact Hd|]. split; [exact Hr|]. split; [exact Hn|]. split; [exact Ha|].
  exact (fresh_create r1 "default" w [] Hd Hr Hn Ha).
Defined.


(** [r1] reconciled twice, the second time with the status the first
    run wrote. *)
Lemma r1_twice :
  let w : Cluster := cluster_with r1 [] in
  let st := {| ServiceName := "r1-service"; Conditions := not_ready "Deploying" |} in
  DeletionTimestamp (RevMeta r1) = None /\
  Fake.reactors w = [] /\
  stored w r1 /\
  (forall st', named_as_derived (with_Status st' r1) (elaNS r1)) /\
  names_ignore_status r1 /\
  exists (u1 : Revision) (w1 : Cluster) (tr1 : list Ev)
         (u2 : Revision) (w2 : Cluster) (tr2 : list Ev),
    reconcileWithImage r1 "default" (w, []) = (Returns (None, u1), (w1, tr1)) /\
    (forall c, present w1 c r1 (elaNS r1) = true) /\
    reconcileWithImage (with_Status st r1) "default" (w1, [])
    = (Returns (None, u2), (w2, tr2)) /\
    (forall k, creates_of k (calls tr2) = 0) /\
    Fake.objects w2 = Fake.objects w1 /\
    (forall c, creates_of (kind c) (calls tr1 ++ calls tr2)
               = if present w c r1 (elaNS r1) then 0 else 1).
Proof.
  intros w st.
  assert (Hd : DeletionTimestamp (RevMeta r1) = None) by reflexivity.
  assert (Hr : Fake.reactors w = []) by reflexivity.
  assert (Hs : stored w r1) by exact r1_stored.
  assert (Hn : forall st', named_as_derived (with_Status st' r1) (elaNS r1))
    by exact r1_named_as_derived.
  assert (Hi : names_ignore_status r1) by (by intros []).
  split; [exact Hd|]. split; [exact Hr|]. split; [exact Hs|]. split; [exact Hn|].
  split; [exact Hi|].
  exact (create_path_twice r1 "default" w st Hd Hr Hs Hn Hi).
Defined.

(** The terminating [r1] on a cluster that holds none of its children. *)
Lemma teardown_of_r1 :
  let w : Cluster := cluster_with r1_terminating [] in
  let s0 := log_line "Check the deletionTimestamp: %s\n" [ArgTime (Some 42)]
              (w, [] : list Ev) in
  DeletionTimestamp (RevMeta r1_terminating) = Some 42 /\
  Fake.reactors w = [] /\
  (forall c, absent w c r1_terminating (elaNS r1_terminating)) /\
  stored w r1_terminating /\
  (reconcileWithImage r1_terminating "default" (w, [])
   = deleteK8SResources r1_terminating (elaNS r1_terminating) s0 /\
   delete_path_continues r1_terminating (elaNS r1_terminating) s0) /\
  exists (v : Revision) (w' : Cluster) (tr' : list Ev),
    Fake.revisions w !! (Namespace (RevMeta r1_terminating), Name (RevMeta r1_terminating))
    = Some v /\
    reconcileWithImage r1_terminating "default" (w, [])
    = (Returns (None, with_Conditions (not_ready "Inactive") r1_terminating), (w', tr')) /\
    Fake.objects w' = Fake.objects w /\
    calls tr'
    = calls [] ++ delete_calls_clean r1_terminating (elaNS r1_terminating)
      ++ [ElaGet (Namespace (RevMeta r1_terminating)) (Name (RevMeta r1_terminating));
          ElaUpdate (Namespace (RevMeta r1_terminating))
            {| RevMeta := RevMeta v; Spec := Spec v;
               Status := {| ServiceName := ServiceName (Status r1_terminating);
                            Conditions := not_ready "Inactive" |} |}].
Proof.
  intros w s0.
  assert (Hd : DeletionTimestamp (RevMeta r1_terminating) = Some 42) by reflexivity.
  assert (Hr : Fake.reactors w = []) by reflexivity.
  assert (Ha : forall c, absent w c r1_terminating (elaNS r1_terminating))
    by apply nothing_there.
  assert (Hs : stored w r1_terminating) by exact r1_terminating_stored.
  destruct (delete_path_is_best_effort (hp := helpers)) as [Hgen Hclean].
  destruct (Hgen Cluster _ r1_terminating "default" 42 (w, []) Hd) as (Heq & Hcont & _).
  split; [exact Hd|]. split; [exact Hr|]. split; [exact Ha|]. split; [exact Hs|].
  split; [split; [exact Heq | exact Hcont]|].
  exact (Hclean r1_terminating "default" 42 w [] Hd Hr Ha Hs).
Defined.
(** A key that does not split, taken off the queue: the handler returns
    nil and the worker forgets the item. *)
Lemma malformed_key_is_dropped :
  let w : Cluster := enqueued "a/b/c" (cluster_with r1 []) in
  let w0 := snd (queue_Get w) in
  let s1 := snd (syncHandler "a/b/c" (w0, [] ++ [Dequeued (ItemString "a/b/c") false])) in
  queue_Get w = ((ItemString "a/b/c", false), w0) /\
  syncHandler "a/b/c" (w0, [] ++ [Dequeued (ItemString "a/b/c") false])
  = (Returns None, s1) /\
  processNextWorkItem (w, [])
  = (Returns true,
     (queue_Done (ItemString "a/b/c") (queue_Forget (ItemString "a/b/c") (fst s1)),
      snd s1 ++ [QueueForget (ItemString "a/b/c");
                 Info "Successfully synced '%s'" [ArgString "a/b/c"];
                 QueueDone (ItemString "a/b/c")])).
Proof.
  intros w w0 s1.
  assert (Hq : queue_Get w = ((ItemString "a/b/c", false), w0)) by reflexivity.
  assert (Hs : syncHandler "a/b/c" (w0, [] ++ [Dequeued (ItemString "a/b/c") false])
               = (Returns None, s1)) by reflexivity.
  split; [exact Hq|]. split; [exact Hs|].
  exact (proj2 (syncHandler_drops_or_retries "a/b/c" w []) w0 None s1 Hq Hs).
Defined.
End Runs.

(** ** Finalizers *)

Section Finalizers.
Context {PodSpec DeploymentSpec ServiceSpec AutoscalerSpec W : Type}.
Context {cs : Clientset PodSpec DeploymentSpec ServiceSpec AutoscalerSpec W}.
Context {hp : Helpers PodSpec DeploymentSpec ServiceSpec AutoscalerSpec}.

Local Abbreviation Ev := (Event PodSpec DeploymentSpec ServiceSpec AutoscalerSpec).
Local Abbreviation State := (St (W := W) (PodSpec := PodSpec) (DeploymentSpec := DeploymentSpec)
                                (ServiceSpec := ServiceSpec) (AutoscalerSpec := AutoscalerSpec)).

Lemma eqb_controller (v : string) : String.eqb v "controller" = bool_decide (v = "controller").
Proof.
  destruct (String.eqb_spec v "controller") as [->|Hne].
  - by rewrite bool_decide_eq_true_2.
  - by rewrite bool_decide_eq_false_2.
Qed.

(** Rounds over a stretch with no ["controller"] in it change nothing. *)
Lemma range_quiet (k1 k2 i : nat) (fs : StringSlice) (s : State) :
  i + k1 <= length (backing fs) ->
  (forall j v, i <= j < i + k1 -> backing fs !! j = Some v -> v <> "controller") ->
  range_finalizers (k1 + k2) i fs s = range_finalizers k2 (i + k1) fs s.
Proof.
  revert i. induction k1 as [|k1 IH]; intros i Hlen Hq.
  - by rewrite Nat.add_0_r.
  - cbn [Nat.add range_finalizers].
    destruct (lookup_lt_is_Some_2 (backing fs) i) as [v Hv]; [lia|].
    rewrite Hv, eqb_controller.
    rewrite bool_decide_eq_false_2 by (apply (Hq i); [lia | done]).
    rewrite IH; [f_equal; lia | lia |].
    intros j w Hj. apply Hq. lia.
Qed.

Lemma range_quiet_all (k i : nat) (fs : StringSlice) (s : State) :
  i + k <= length (backing fs) ->
  (forall j v, i <= j < i + k -> backing fs !! j = Some v -> v <> "controller") ->
  range_finalizers k i fs s = (Returns fs, s).
Proof.
  intros Hlen Hq. rewrite <- (Nat.add_0_r k). by rewrite range_quiet.
Qed.

(** What a removal leaves at and after the old last slot. *)
Lemma remove_index_backing (i : nat) (fs fs' : StringSlice) :
  slice_len fs <= length (backing fs) ->
  remove_index i fs = Some fs' ->
  length (backing fs') = length (backing fs) /\
  slice_len fs' = slice_len fs - 1 /\
  i + 1 <= slice_len fs /\
  forall p, slice_len fs - 1 <= p -> backing fs' !! p = backing fs !! p.
Proof.
  intros Hlen. unfold remove_index. destruct (decide _) as [Hi|]; [|done].
  intros [= <-]. cbn [backing slice_len]. repeat split; try done.
  - rewrite !length_app, !length_take, !length_drop. lia.
  - intros p Hp.
    rewrite lookup_app_r by (rewrite length_take; lia).
    rewrite lookup_app_r by (rewrite !length_take, length_drop; lia).
    rewrite lookup_drop, !length_take, length_drop. f_equal. lia.
Qed.

(** Once the slice is shorter than the range and the last slot of the
    array holds ["controller"], the loop cannot get to its end. *)
Lemma range_panics (k i : nat) (fs : StringSlice) (s : State) :
  0 < k ->
  i + k = length (backing fs) ->
  slice_len fs < length (backing fs) ->
  backing fs !! (length (backing fs) - 1) = Some "controller" ->
  range_finalizers k i fs s = (Panics "runtime error: slice bounds out of range", s).
Proof.
  revert i fs. induction k as [|k IH]; intros i fs Hk Hn Hlen Hlast; [lia|].
  cbn [range_finalizers].
  destruct (lookup_lt_is_Some_2 (backing fs) i) as [v Hv]; [lia|].
  rewrite Hv, eqb_controller.
  destruct (decide (v = "controller")) as [->|Hne].
  - rewrite bool_decide_eq_true_2 by done.
    destruct (remove_index i fs) as [fs'|] eqn:Hr; [|done].
    destruct (remove_index_backing i fs fs' ltac:(lia) Hr) as (Hb & Hl & Hi & Hkeep).
    destruct k as [|k]; [lia|].
    apply IH; [lia | lia | lia |].
    rewrite Hb, Hkeep by lia. done.
  - rewrite bool_decide_eq_false_2 by done.
    destruct k as [|k].
    + assert (i = length (backing fs) - 1) as -> by lia. congruence.
    + apply IH; [lia | lia | lia | done].
Qed.

(** The array after the first ["controller"], at index [length l], is
    taken out. *)
Lemma remove_first (l rest : list string) :
  remove_index (length l)
    {| backing := l ++ "controller" :: rest;
       slice_len := length (l ++ "controller" :: rest) |}
  = Some {| backing := l ++ rest ++ drop (length rest) ("controller" :: rest);
            slice_len := length (l ++ rest) |}.
Proof.
  unfold remove_index. cbn [backing slice_len].
  rewrite length_app. cbn [length].
  rewrite decide_True by lia. f_equal. f_equal.
  - rewrite take_app_length.
    replace (length l + S (length rest) - (length l + 1)) with (length rest) by lia.
    replace (length l + S (length rest) - 1) with (length l + length rest) by lia.
    rewrite !drop_app_add. cbn [drop].
    by rewrite take_ge by done.
  - rewrite length_app. lia.
Qed.

Lemma range_hit (k i : nat) (fs fs' : StringSlice) (s : State) :
  backing fs !! i = Some "controller" ->
  remove_index i fs = Some fs' ->
  range_finalizers (S k) i fs s = range_finalizers k (S i) fs' s.
Proof. intros Hv Hr. cbn [range_finalizers]. by rewrite Hv, Hr. Qed.

(** The loop takes out the first ["controller"] and does not look at the
    entry that slides into its place. *)
Lemma range_first (l rest : list string) (s : State) :
  "controller" ∉ l ->
  "controller" ∉ tail rest ->
  rest <> ["controller"] ->
  range_finalizers (length (l ++ "controller" :: rest)) 0
    {| backing := l ++ "controller" :: rest;
       slice_len := length (l ++ "controller" :: rest) |} s
  = (Returns {| backing := l ++ rest ++ drop (length rest) ("controller" :: rest);
                slice_len := length (l ++ rest) |}, s).
Proof.
  intros Hl Ht Hr.
  replace (length (l ++ "controller" :: rest)) with (length l + S (length rest))
    by (rewrite length_app; reflexivity).
  rewrite range_quiet; cbn [backing].
  2: { rewrite length_app. lia. }
  2: { intros j v Hj Hv. rewrite lookup_app_l in Hv by lia.
       intros ->. apply Hl. by eapply list_elem_of_lookup_2. }
  cbn [Nat.add range_finalizers backing].
  rewrite list_lookup_middle by done.
  cbn [String.eqb Ascii.eqb Bool.eqb andb].
  replace (length l + S (length rest)) with (length (l ++ "controller" :: rest))
    by (rewrite length_app; reflexivity).
  rewrite remove_first.
  apply range_quiet_all; cbn [backing].
  - rewrite !length_app, length_drop. cbn [length]. lia.
  - intros j v Hj Hv ->.
    rewrite lookup_app_r in Hv by lia.
    destruct (decide (j - length l < length rest)) as [Hlt|Hge].
    + rewrite lookup_app_l in Hv by done.
      apply Ht. apply (list_elem_of_lookup_2 _ (j - length l - 1)).
      rewrite lookup_tail. rewrite <- Hv. f_equal. lia.
    + rewrite lookup_app_r in Hv by lia.
      rewrite lookup_drop in Hv.
      replace (length rest + (j - length l - length rest)) with (S (j - length l - 1)) in Hv by lia.
      cbn [lookup list_lookup] in Hv.
      destruct rest as [|x [|y rest]].
      * done.
      * cbn [length] in *. replace (j - length l - 1) with 0 in Hv by lia.
        cbn in Hv. congruence.
      * apply Ht. apply (list_elem_of_lookup_2 _ (j - length l - 2)).
        rewrite lookup_tail. rewrite <- Hv. f_equal. cbn [length] in *. lia.
Qed.

(** The part of [removeFinalizers] after the loop: the slice is written
    to the revision, the revision is sent, the answer is dropped. *)
Lemma removeFinalizers_after (u : Revision) (ns : string) (fs : StringSlice) :
  (forall s : State,
     range_finalizers (length (Finalizers (RevMeta u))) 0
       {| backing := Finalizers (RevMeta u);
          slice_len := length (Finalizers (RevMeta u)) |} s = (Returns fs, s)) ->
  forall (w : W) (tr : list Ev),
    let u' := with_Finalizers (slice_elements fs) u in
    let r := ela_Update (Namespace (RevMeta u)) u' w in
    removeFinalizers u ns (w, tr)
    = (Returns (None, u'),
       (snd r,
        tr ++ [Log "Removing finalizers for %q\n" [ArgString (Name (RevMeta u))];
               Call (ElaUpdate (Namespace (RevMeta u)) u') (err_of (fst r));
               Log "The finalizer 'controller' is removed." []])).
Proof.
  intros Hloop w tr. unfold removeFinalizers, meta_Accessor. cbn [fst snd nonnil].
  unfold bind at 1. unfold logf at 1, emit at 1. cbn [fst snd].
  unfold bind at 1. rewrite Hloop.
  unfold elaUpdate, logf. unfold_m. cbn [fst snd RevMeta with_Finalizers Namespace].
  rewrite <- !app_assoc. reflexivity.
Qed.

Lemma take_slice (l rest over : list string) :
  take (length (l ++ rest)) (l ++ rest ++ over) = l ++ rest.
Proof. by rewrite app_assoc, take_app_length. Qed.

Lemma filter_controller_absent (l : list string) :
  "controller" ∉ l -> filter (fun v => v <> "controller") l = l.
Proof.
  induction l as [|x l IH]; [done|].
  rewrite not_elem_of_cons. intros [Hx Hl].
  rewrite filter_cons_True by done. by rewrite IH.
Qed.

Lemma count_controller_absent (l : list string) :
  length (filter (fun v => v = "controller") l) = 0 -> "controller" ∉ l.
Proof.
  induction l as [|x l IH]; [intros _; apply not_elem_of_nil|].
  destruct (decide (x = "controller")) as [->|Hx].
  - rewrite filter_cons_True by done. done.
  - rewrite filter_cons_False by done. intros H.
    apply not_elem_of_cons. split; [done | by apply IH].
Qed.

(** X1: when ["controller"] occurs at most once among the finalizers,
    [removeFinalizers] writes the list without it onto the revision, sends
    that revision in one update and returns nil, whatever the update
    answers. *)
Theorem removeFinalizers_removes_single (u : Revision) (ns : string) (w : W) (tr : list Ev) :
  length (filter (fun v => v = "controller") (Finalizers (RevMeta u))) <= 1 ->
  let u' := with_Finalizers (filter (fun v => v <> "controller") (Finalizers (RevMeta u))) u in
  let r := ela_Update (Namespace (RevMeta u)) u' w in
  removeFinalizers u ns (w, tr)
  = (Returns (None, u'),
     (snd r,
      tr ++ [Log "Removing finalizers for %q\n" [ArgString (Name (RevMeta u))];
             Call (ElaUpdate (Namespace (RevMeta u)) u') (err_of (fst r));
             Log "The finalizer 'controller' is removed." []])).
Proof.
  intros Hcount.
  destruct (decide ("controller" ∈ Finalizers (RevMeta u))) as [Hin|Hout].
  - destruct (list_elem_of_split_l _ _ Hin) as (l & rest & HF & Hl).
    assert (Hrest : "controller" ∉ rest).
    { apply count_controller_absent. rewrite HF in Hcount.
      rewrite filter_app, length_app, filter_cons_True in Hcount by done.
      cbn [length] in Hcount. lia. }
    assert (Hfilter : filter (fun v => v <> "controller") (Finalizers (RevMeta u)) = l ++ rest).
    { rewrite HF, filter_app, filter_cons_False by (intros H; by apply H).
      by rewrite !filter_controller_absent. }
    rewrite Hfilter.
    pose proof (removeFinalizers_after u ns
                  {| backing := l ++ rest ++ drop (length rest) ("controller" :: rest);
                     slice_len := length (l ++ rest) |}) as Hafter.
    unfold slice_elements in Hafter. cbn [backing slice_len] in Hafter.
    rewrite take_slice in Hafter.
    apply Hafter. intros s. rewrite HF. apply range_first; [done | |].
    + intros H. apply Hrest. destruct rest; [done | by apply list_elem_of_further].
    + intros ->. apply Hrest, list_elem_of_here.
  - rewrite filter_controller_absent by done.
    pose proof (removeFinalizers_after u ns
                  {| backing := Finalizers (RevMeta u);
                     slice_len := length (Finalizers (RevMeta u)) |}) as Hafter.
    unfold slice_elements in Hafter. cbn [backing slice_len] in Hafter.
    rewrite firstn_all in Hafter.
    apply Hafter. intros s. apply range_quiet_all; cbn [backing]; [lia|].
    intros j v _ Hv ->. apply Hout. by eapply list_elem_of_lookup_2.
Qed.

(** X2: when the last finalizer is ["controller"] and ["controller"] also
    occurs before it, [removeFinalizers] panics on a slice bound: the
    revision is not updated and nothing is sent. *)
Theorem removeFinalizers_panics_on_repeat (u : Revision) (ns : string) (w : W) (tr : list Ev)
    (pre : list string) :
  Finalizers (RevMeta u) = pre ++ ["controller"] ->
  "controller" ∈ pre ->
  removeFinalizers u ns (w, tr)
  = (Panics "runtime error: slice bounds out of range",
     (w, tr ++ [Log "Removing finalizers for %q\n" [ArgString (Name (RevMeta u))]])).
Proof.
  intros HF Hin.
  destruct (list_elem_of_split_l _ _ Hin) as (l & rest & -> & Hl).
  unfold removeFinalizers, meta_Accessor. cbn [fst snd nonnil].
  unfold bind at 1. unfold logf at 1, emit at 1. cbn [fst snd].
  unfold bind at 1. rewrite HF.
  rewrite <- app_assoc. cbn [app].
  replace (length (l ++ "controller" :: rest ++ ["controller"]))
    with (length l + S (S (length rest)))
    by (rewrite length_app; cbn [length]; rewrite length_app; cbn [length]; lia).
  rewrite range_quiet; cbn [backing].
  2: { rewrite length_app. lia. }
  2: { intros j v Hj Hv. rewrite lookup_app_l in Hv by lia.
       intros ->. apply Hl. by eapply list_elem_of_lookup_2. }
  cbn [Nat.add].
  erewrite range_hit; cycle 1.
  { cbn [backing]. by apply list_lookup_middle. }
  { replace (length l + S (S (length rest)))
      with (length (l ++ "controller" :: rest ++ ["controller"]))
      by (rewrite length_app; cbn [length]; rewrite length_app; cbn [length]; lia).
    apply remove_first. }
  assert (Hlast : drop (length (rest ++ ["controller"])) ("controller" :: rest ++ ["controller"])
                  = ["controller"]).
  { change ("controller" :: rest ++ ["controller"]) with (("controller" :: rest) ++ ["controller"]).
    apply drop_app_length'. rewrite length_app. cbn [length]. lia. }
  rewrite Hlast.
  rewrite range_panics; [reflexivity | lia | | |]; cbn [backing slice_len].
  - rewrite !length_app. cbn [length]. lia.
  - rewrite !length_app. cbn [length]. lia.
  - replace (l ++ (rest ++ ["controller"]) ++ ["controller"])
      with ((l ++ rest ++ ["controller"]) ++ ["controller"]) by (by rewrite <- !app_assoc).
    apply list_lookup_middle. rewrite !length_app. cbn [length]. lia.
Qed.

(** X3: the entry that follows a removed ["controller"] is not examined.
    With the first ["controller"] followed by [x], and no other
    ["controller"] after [x], the list written is the one without that first
    occurrence, so a second ["controller"] right behind the first stays. *)
Theorem removeFinalizers_skips_next (u : Revision) (ns : string) (w : W) (tr : list Ev)
    (l : list string) (x : string) (rest : list string) :
  Finalizers (RevMeta u) = l ++ "controller" :: x :: rest ->
  "controller" ∉ l ->
  "controller" ∉ rest ->
  rest <> [] ->
  let u' := with_Finalizers (l ++ x :: rest) u in
  let r := ela_Update (Namespace (RevMeta u)) u' w in
  removeFinalizers u ns (w, tr)
  = (Returns (None, u'),
     (snd r,
      tr ++ [Log "Removing finalizers for %q\n" [ArgString (Name (RevMeta u))];
             Call (ElaUpdate (Namespace (RevMeta u)) u') (err_of (fst r));
             Log "The finalizer 'controller' is removed." []])).
Proof.
  intros HF Hl Hrest Hne.
  pose proof (removeFinalizers_after u ns
                {| backing := l ++ (x :: rest) ++ drop (length (x :: rest)) ("controller" :: x :: rest);
                   slice_len := length (l ++ x :: rest) |}) as Hafter.
  unfold slice_elements in Hafter. cbn [backing slice_len] in Hafter.
  rewrite take_slice in Hafter.
  apply Hafter. intros s. rewrite HF. apply range_first; [done | done |].
  intros [= _ ->]. done.
Qed.
End Finalizers.

(** ** Footprints of the paths *)

Section Confinement.
Context {PodSpec DeploymentSpec ServiceSpec AutoscalerSpec W : Type}.
Context {cs : Clientset PodSpec DeploymentSpec ServiceSpec AutoscalerSpec W}.
Context {hp : Helpers PodSpec DeploymentSpec ServiceSpec AutoscalerSpec}.

Local Abbreviation Obj := (Object PodSpec DeploymentSpec ServiceSpec AutoscalerSpec).
Local Abbreviation Ev := (Event PodSpec DeploymentSpec ServiceSpec AutoscalerSpec).
Local Abbreviation Api := (ApiCall PodSpec DeploymentSpec ServiceSpec AutoscalerSpec).
Local Abbreviation State := (St (W := W) (PodSpec := PodSpec) (DeploymentSpec := DeploymentSpec)
                                (ServiceSpec := ServiceSpec) (AutoscalerSpec := AutoscalerSpec)).

Variable allowed : Api -> Prop.
Variable R : W -> W -> Prop.
Context {R_pre : PreOrder R}.
Hypothesis R_step : forall (c : Api) (w : W), allowed c -> R w (world_after c w).

Lemma confined_ext {A} (m m' : M State A) :
  (forall s, m s = m' s) -> confined allowed R m' -> confined allowed R m.
Proof. intros E H s. rewrite E. apply H. Qed.

Lemma confined_ret {A} (a : A) : confined allowed R (ret a).
Proof.
  intros s. split; [reflexivity|]. exists []. split; [by rewrite app_nil_r | constructor].
Qed.

Lemma confined_panic {A} (msg : string) : confined allowed R (panic (A := A) msg).
Proof.
  intros s. split; [reflexivity|]. exists []. split; [by rewrite app_nil_r | constructor].
Qed.

Lemma confined_bind {A B} (m : M State A) (k : A -> M State B) :
  confined allowed R m -> (forall a, confined allowed R (k a)) ->
  confined allowed R (bind m k).
Proof.
  intros Hm Hk s. unfold bind.
  destruct (Hm s) as (HR & evs & Htr & Hal).
  destruct (m s) as [[a|msg] s1]; cbn [fst snd] in *.
  - destruct (Hk a s1) as (HR' & evs' & Htr' & Hal'). split.
    + by transitivity (fst s1).
    + exists (evs ++ evs'). split.
      * by rewrite Htr', Htr, app_assoc.
      * rewrite calls_app. by apply Forall_app.
  - split; [done|]. by exists evs.
Qed.

Lemma confined_emit (e : Ev) : is_call e = None -> confined allowed R (emit e).
Proof.
  intros He s. split; [reflexivity|]. exists [e]. split; [done|].
  unfold calls. cbn. rewrite He. constructor.
Qed.

Lemma confined_logf (format : string) (args : list LogArg) :
  confined allowed R (logf format args).
Proof. by apply confined_emit. Qed.

Lemma confined_handleError (format : string) (args : list LogArg) :
  confined allowed R (handleError format args).
Proof. by apply confined_emit. Qed.

Lemma confined_logIf (err : option error) (format : string) :
  confined allowed R (logIf err format).
Proof. unfold logIf. destruct (nonnil err); [apply confined_logf | apply confined_ret]. Qed.

Lemma confined_printErr (err : option error) : confined allowed R (printErr err).
Proof.
  unfold printErr. destruct (nonnil err); [|apply confined_ret].
  apply confined_bind; [apply confined_logf | intros _; apply confined_ret].
Qed.

Lemma confined_call {A} (c : Api) (errf : A -> option error) (h : W -> A * W) :
  allowed c -> (forall w, snd (h w) = world_after c w) ->
  confined allowed R (call c errf h).
Proof.
  intros Hc Hh s. unfold call. cbn [fst snd]. split.
  - rewrite Hh. by apply R_step.
  - eexists [_]. split; [done|]. cbn. by constructor.
Qed.

Lemma confined_kubeGet (k : Kind) (ns name : string) :
  allowed (KubeGet k ns name) -> confined allowed R (kubeGet k ns name).
Proof. intros. by apply confined_call. Qed.

Lemma confined_kubeCreate (k : Kind) (ns : string) (o : Obj) :
  allowed (KubeCreate k ns o) -> confined allowed R (kubeCreate k ns o).
Proof. intros. by apply confined_call. Qed.

Lemma confined_kubeDelete (k : Kind) (ns name : string) (opts : DeleteOptions) :
  allowed (KubeDelete k ns name opts) -> confined allowed R (kubeDelete k ns name opts).
Proof. intros. by apply confined_call. Qed.

Lemma confined_elaGet (ns name : string) :
  allowed (ElaGet ns name) -> confined allowed R (elaGet ns name).
Proof. intros. by apply confined_call. Qed.

Lemma confined_elaUpdate (ns : string) (r : Revision) :
  allowed (ElaUpdate ns r) -> confined allowed R (elaUpdate ns r).
Proof. intros. by apply confined_call. Qed.

Lemma confined_listerGet (ns name : string) :
  allowed (ListerGet ns name) -> confined allowed R (listerGet ns name).
Proof. intros. by apply confined_call. Qed.

Lemma confined_getOrCreateRevisionNamespace (ns : string) :
  allowed (GetOrCreateRevisionNamespace ns) ->
  confined allowed R (getOrCreateRevisionNamespace ns).
Proof. intros. by apply confined_call. Qed.

Lemma bind_assoc {A B C} (m : M State A) (k1 : A -> M State B) (k2 : B -> M State C)
    (s : State) :
  bind (bind m k1) k2 s = bind m (fun a => bind (k1 a) k2) s.
Proof. unfold bind. by destruct (m s) as [[a|msg] s1]. Qed.

Ltac confine :=
  repeat lazymatch goal with
    | |- confined _ _ (let _ := _ in _) => cbv zeta
    | |- confined _ _ (bind (if ?b then _ else _) _) => destruct b
    | |- confined _ _ (bind (bind ?m ?k1) ?k2) =>
        apply (confined_ext _ (bind m (fun a => bind (k1 a) k2)));
        [intros ?; apply bind_assoc|]; cbv beta
    | |- confined _ _ (bind (ret ?a) ?k) => change (confined allowed R (k a)); cbv beta
    | |- confined _ _ (bind _ _) => apply confined_bind; [| intros ?]
    | |- confined _ _ (if ?b then _ else _) => destruct b
    | |- confined _ _ (match ?x with _ => _ end) => destruct x
    | |- confined _ _ (ret _) => apply confined_ret
    | |- confined _ _ (panic _) => apply confined_panic
    | |- confined _ _ (logf _ _) => apply confined_logf
    | |- confined _ _ (handleError _ _) => apply confined_handleError
    | |- confined _ _ (logIf _ _) => apply confined_logIf
    | |- confined _ _ (printErr _) => apply confined_printErr
    | |- confined _ _ (kubeGet _ _ _) => apply confined_kubeGet
    | |- confined _ _ (kubeCreate _ _ _) => apply confined_kubeCreate
    | |- confined _ _ (kubeDelete _ _ _ _) => apply confined_kubeDelete
    | |- confined _ _ (elaGet _ _) => apply confined_elaGet
    | |- confined _ _ (elaUpdate _ _) => apply confined_elaUpdate
    | |- confined _ _ (listerGet _ _) => apply confined_listerGet
    | |- confined _ _ (getOrCreateRevisionNamespace _) =>
        apply confined_getOrCreateRevisionNamespace
    end.

Lemma updateStatus_confined (u : Revision) :
  allowed (ElaGet (Namespace (RevMeta u)) (Name (RevMeta u))) ->
  (forall newu, allowed (ElaUpdate (Namespace (RevMeta u)) (with_Status (Status u) newu))) ->
  confined allowed R (updateStatus u).
Proof. intros Hg Hu. unfold updateStatus. confine; auto. Qed.

Lemma reconcile_confined (c : Child) (u : Revision) (ns : string) :
  (forall a, create_path_call u ns a -> allowed a) ->
  confined allowed R (reconcile c u ns).
Proof.
  intros Hal.
  destruct c; unfold reconcile, reconcileDeployment, reconcileAutoscaler,
    reconcileNginxConfig, reconcileService, MakeNginxConfigMap;
    confine; apply Hal; cbn;
    (split; [reflexivity|]);
    first [ by left
          | by eexists Deployment | by eexists Autoscaler
          | by eexists NginxConfig | by eexists K8sService
          | right; by eexists Deployment | right; by eexists Autoscaler
          | right; by eexists NginxConfig | right; by eexists K8sService ].
Qed.

Lemma reconcileService_confined (u : Revision) (ns : string) :
  (forall a, create_path_call u ns a -> allowed a) ->
  confined allowed R (reconcileService u ns).
Proof.
  intros Hal. unfold reconcileService.
  confine; apply Hal; cbn; (split; [reflexivity|]);
    first [by eexists K8sService | right; by eexists K8sService].
Qed.

Lemma createK8SResources_confined (u : Revision) (ns : string) :
  (forall a, create_path_call u ns a -> allowed a) ->
  confined allowed R (createK8SResources u ns).
Proof.
  intros Hal. unfold createK8SResources.
  apply confined_bind; [apply (reconcile_confined Deployment _ _ Hal)|]. intros err.
  destruct (nonnil err); [confine|].
  apply confined_bind; [apply (reconcile_confined Autoscaler _ _ Hal)|]. intros ea.
  apply confined_bind; [apply confined_logIf|]. intros _.
  apply confined_bind; [apply (reconcile_confined NginxConfig _ _ Hal)|]. intros ec.
  apply confined_bind; [apply confined_logIf|]. intros _.
  apply confined_bind; [by apply reconcileService_confined|]. intros res.
  confine; try (apply updateStatus_confined; [|intros newu]); apply Hal; by cbn.
Qed.

Lemma delete_child_confined (c : Child) (u : Revision) (ns : string) :
  (forall a, delete_path_call u ns a -> allowed a) ->
  confined allowed R (delete_child c u ns).
Proof.
  intros Hal.
  destruct c; unfold delete_child, deleteDeployment, deleteAutoscaler,
    deleteNginxConfig, deleteService;
    confine; apply Hal; cbn;
    (split; [reflexivity|]); try (split; [reflexivity|]);
    first [ by eexists Deployment | by eexists Autoscaler
          | by eexists NginxConfig | by eexists K8sService ].
Qed.

Lemma deleteK8SResources_confined (u : Revision) (ns : string) :
  (forall a, delete_path_call u ns a -> allowed a) ->
  confined allowed R (deleteK8SResources u ns).
Proof.
  intros Hal. unfold deleteK8SResources.
  apply confined_bind; [apply confined_logf|]. intros _.
  apply confined_bind; [apply (delete_child_confined Deployment _ _ Hal)|]. intros e1.
  apply confined_bind; [apply confined_logIf|]. intros _.
  apply confined_bind; [apply confined_logf|]. intros _.
  apply confined_bind; [apply (delete_child_confined Autoscaler _ _ Hal)|]. intros e2.
  apply confined_bind; [apply confined_logIf|]. intros _.
  apply confined_bind; [apply confined_logf|]. intros _.
  apply confined_bind; [apply (delete_child_confined NginxConfig _ _ Hal)|]. intros e3.
  apply confined_bind; [apply confined_logIf|]. intros _.
  apply confined_bind; [apply confined_logf|]. intros _.
  apply confined_bind; [apply (delete_child_confined K8sService _ _ Hal)|]. intros e4.
  apply confined_bind; [apply confined_logIf|]. intros _.
  apply confined_bind; [apply confined_logf|]. intros _.
  confine; try (apply updateStatus_confined; [|intros newu]); apply Hal; by cbn.
Qed.

Lemma reconcileWithImage_confined (u : Revision) (ns : string) :
  (forall a, create_path_call u (elaNS u) a -> allowed a) ->
  (forall a, delete_path_call u (elaNS u) a -> allowed a) ->
  confined allowed R (reconcileWithImage u ns).
Proof.
  intros Hc Hd. unfold reconcileWithImage, meta_Accessor. cbn [fst snd nonnil].
  apply confined_bind; [apply confined_logf|]. intros _.
  destruct (DeletionTimestamp (RevMeta u)).
  - by apply deleteK8SResources_confined.
  - apply confined_bind; [apply confined_logf|]. intros _.
    by apply createK8SResources_confined.
Qed.

Lemma syncHandler_confined (key : string) :
  (forall a, allowed a) -> confined allowed R (syncHandler key).
Proof.
  intros Hal. unfold syncHandler.
  destruct (SplitMetaNamespaceKey key) as [[namespace name]|e]; [|confine].
  apply confined_bind; [apply confined_logf|]. intros _.
  apply confined_bind; [by apply confined_listerGet|]. intros [rev|e]; [|confine].
  apply confined_bind; [by apply confined_getOrCreateRevisionNamespace|].
  intros [ns|e]; [|confine].
  apply confined_bind; [apply confined_logf|]. intros _.
  apply confined_bind; [by apply reconcileWithImage_confined|]. intros res.
  apply confined_printErr.
Qed.
End Confinement.

Section Alphabets.
Context {PodSpec DeploymentSpec ServiceSpec AutoscalerSpec W : Type}.
Context {cs : Clientset PodSpec DeploymentSpec ServiceSpec AutoscalerSpec W}.
Context {hp : Helpers PodSpec DeploymentSpec ServiceSpec AutoscalerSpec}.

Local Abbreviation Ev := (Event PodSpec DeploymentSpec ServiceSpec AutoscalerSpec).
Local Abbreviation Api := (ApiCall PodSpec DeploymentSpec ServiceSpec AutoscalerSpec).
Local Abbreviation State := (St (W := W) (PodSpec := PodSpec) (DeploymentSpec := DeploymentSpec)
                                (ServiceSpec := ServiceSpec) (AutoscalerSpec := AutoscalerSpec)).

#[local] Instance any_world_pre : PreOrder (any_world (W := W)).
Proof. by split. Qed.

Lemma confined_grows {A} (allowed : Api -> Prop) (R : W -> W -> Prop) (m : M State A)
    (s : State) :
  confined allowed R m -> exists evs : list Ev, snd (snd (m s)) = snd s ++ evs.
Proof. intros H. destruct (H s) as (_ & evs & Htr & _). by exists evs. Qed.

(** X4: whatever the cluster answers, the create path only adds to the
    trace, and the calls it makes are fetches and creates of the four
    children and of the pod, under their derived names in the namespace
    given, and the read and the write of the Revision's own status: it
    deletes nothing and updates no child. *)
Theorem create_path_footprint (u : Revision) (ns : string) (s : State) :
  exists evs : list Ev,
    snd (snd (createK8SResources u ns s)) = snd s ++ evs /\
    Forall (create_path_call u ns) (calls evs).
Proof.
  apply (createK8SResources_confined (create_path_call u ns) any_world); [done | auto].
Qed.

(** X5: whatever the cluster answers, the delete path only adds to the
    trace, and the calls it makes are fetches of the deployment, the
    autoscaler and the configmap, foreground deletes of the four children,
    and the read and the write of the Revision's own status: it creates
    nothing and leaves the pod alone. *)
Theorem delete_path_footprint (u : Revision) (ns : string) (s : State) :
  exists evs : list Ev,
    snd (snd (deleteK8SResources u ns s)) = snd s ++ evs /\
    Forall (delete_path_call u ns) (calls evs).
Proof.
  apply (deleteK8SResources_confined (delete_path_call u ns) any_world); [done | auto].
Qed.

(** X14: a cycle is of one kind.  For a Revision without deletion marker
    every call of [reconcileWithImage] is a call of the create path, for
    one with the marker every call is a call of the delete path; either
    way the children are addressed in the namespace derived from the
    Revision's own, whatever namespace the function is given. *)
Theorem cycle_footprint (u : Revision) (ns : string) (s : State) :
  exists evs : list Ev,
    snd (snd (reconcileWithImage u ns s)) = snd s ++ evs /\
    Forall (match DeletionTimestamp (RevMeta u) with
            | None => create_path_call u (elaNS u)
            | Some _ => delete_path_call u (elaNS u)
            end) (calls evs).
Proof.
  enough (confined (match DeletionTimestamp (RevMeta u) with
                    | None => create_path_call u (elaNS u)
                    | Some _ => delete_path_call u (elaNS u)
                    end) any_world (reconcileWithImage u ns)) as H.
  { by destruct (H s) as [_ Hev]. }
  unfold reconcileWithImage, meta_Accessor. cbn [fst snd nonnil].
  destruct (DeletionTimestamp (RevMeta u)) as [t|].
  - apply (confined_bind _ any_world); [apply (confined_logf _ any_world) | intros _].
    by apply (deleteK8SResources_confined _ any_world).
  - apply (confined_bind _ any_world); [apply (confined_logf _ any_world) | intros _].
    apply (confined_bind _ any_world); [apply (confined_logf _ any_world) | intros _].
    by apply (createK8SResources_confined _ any_world).
Qed.
End Alphabets.

(** ** Frames on the in-memory cluster *)

Section FakeFrames.
Context {PodSpec DeploymentSpec ServiceSpec AutoscalerSpec : Type}.
Context {hp : Helpers PodSpec DeploymentSpec ServiceSpec AutoscalerSpec}.

Local Abbreviation Obj := (Object PodSpec DeploymentSpec ServiceSpec AutoscalerSpec).
Local Abbreviation Ev := (Event PodSpec DeploymentSpec ServiceSpec AutoscalerSpec).
Local Abbreviation Api := (ApiCall PodSpec DeploymentSpec ServiceSpec AutoscalerSpec).
Local Abbreviation World :=
  (Fake.World (PodSpec := PodSpec) (DeploymentSpec := DeploymentSpec)
              (ServiceSpec := ServiceSpec) (AutoscalerSpec := AutoscalerSpec)).

#[local] Instance keeps_objects_pre : PreOrder (keeps_objects (PodSpec := PodSpec)
    (DeploymentSpec := DeploymentSpec) (ServiceSpec := ServiceSpec)
    (AutoscalerSpec := AutoscalerSpec)).
Proof.
  split.
  - by intros w k o.
  - intros w1 w2 w3 H12 H23 k o H. by apply H23, H12.
Qed.

#[local] Instance same_but_children_pre (u : Revision) (ns : string) :
  PreOrder (same_but_children (PodSpec := PodSpec) (DeploymentSpec := DeploymentSpec)
              (ServiceSpec := ServiceSpec) (AutoscalerSpec := AutoscalerSpec) u ns).
Proof.
  split.
  - by intros w k Hk.
  - intros w1 w2 w3 H12 H23 k Hk. by rewrite H23, H12.
Qed.

#[local] Instance same_queue_pre : PreOrder (same_queue (PodSpec := PodSpec)
    (DeploymentSpec := DeploymentSpec) (ServiceSpec := ServiceSpec)
    (AutoscalerSpec := AutoscalerSpec)).
Proof.
  split.
  - by intros w.
  - intros w1 w2 w3 (Hq & Hp & Hf) (Hq' & Hp' & Hf'). repeat split; congruence.
Qed.

Ltac fake_cases :=
  unfold world_after; cbn [kube_Get kube_Create kube_Delete ela_Get ela_Update lister_Get
                           util_GetOrCreateRevisionNamespace Fake.clientset];
  unfold Fake.get, Fake.create, Fake.delete, Fake.get_revision, Fake.update_revision,
    Fake.lister_get, Fake.get_or_create_namespace;
  repeat match goal with
    | |- context [match Fake.react ?v ?r ?rs with _ => _ end] => destruct (Fake.react v r rs)
    | |- context [match ?m !! ?k with _ => _ end] => destruct (m !! k) eqn:?
    | |- context [if bool_decide ?P then _ else _] => destruct (bool_decide P)
    end;
  cbn [fst snd].

Lemma create_path_step_keeps (u : Revision) (ns : string) (c : Api) (w : World) :
  create_path_call u ns c -> keeps_objects w (world_after c w).
Proof.
  intros Hc k o Hk. destruct c; try done; revert Hk; fake_cases; try done.
  cbn [Fake.objects Fake.with_objects]. intros Hk.
  rewrite lookup_insert_ne; [done | congruence].
Qed.

Lemma delete_path_step_same (u : Revision) (ns : string) (c : Api) (w : World) :
  delete_path_call u ns c -> same_but_children u ns w (world_after c w).
Proof.
  intros Hc k Hk. destruct c; try done; fake_cases; try done.
  cbn [Fake.objects Fake.with_objects].
  destruct Hc as (-> & _ & ch & -> & ->).
  rewrite lookup_delete_ne; [done|]. intros <-. by apply (Hk ch).
Qed.

Lemma any_step_same_queue (c : Api) (w : World) :
  any_call c -> same_queue w (world_after c w).
Proof. intros _. destruct c; fake_cases; done. Qed.

(** X6: on the in-memory cluster, whatever faults are injected, the
    create path changes no object that is there and removes none: what was
    stored under a key before is stored under it afterwards. *)
Theorem create_path_keeps_objects
    (u : Revision) (ns : string) (w : World) (tr : list Ev)
    (k : Kind * string * string) (o : Obj) :
  Fake.objects w !! k = Some o ->
  Fake.objects (fst (snd (createK8SResources u ns (w, tr)))) !! k = Some o.
Proof.
  pose proof (createK8SResources_confined (create_path_call u ns) keeps_objects
                (create_path_step_keeps u ns) u ns (fun _ H => H) (w, tr)) as [H _].
  apply H.
Qed.

(** X7: on the in-memory cluster, whatever faults are injected, the
    delete path leaves every object other than the four children of the
    Revision as it was: the pod that went ahead of the deployment is still
    there afterwards. *)
Theorem delete_path_touches_children_only
    (u : Revision) (ns : string) (w : World) (tr : list Ev) (k : Kind * string * string) :
  (forall c : Child, k <> key c u ns) ->
  Fake.objects (fst (snd (deleteK8SResources u ns (w, tr)))) !! k = Fake.objects w !! k.
Proof.
  pose proof (deleteK8SResources_confined (delete_path_call u ns) (same_but_children u ns)
                (delete_path_step_same u ns) u ns (fun _ H => H) (w, tr)) as [H _].
  apply H.
Qed.

Lemma syncHandler_same_queue (key : string) (w : World) (tr : list Ev) :
  same_queue w (fst (snd (syncHandler key (w, tr)))).
Proof.
  pose proof (syncHandler_confined any_call same_queue any_step_same_queue key
                (fun _ => I) (w, tr)) as [H _].
  apply H.
Qed.
End FakeFrames.

(** ** Where the handler's errors come from *)

Section Provenance.
Context {PodSpec DeploymentSpec ServiceSpec AutoscalerSpec W : Type}.
Context {cs : Clientset PodSpec DeploymentSpec ServiceSpec AutoscalerSpec W}.
Context {hp : Helpers PodSpec DeploymentSpec ServiceSpec AutoscalerSpec}.

Local Abbreviation Obj := (Object PodSpec DeploymentSpec ServiceSpec AutoscalerSpec).
Local Abbreviation Ev := (Event PodSpec DeploymentSpec ServiceSpec AutoscalerSpec).
Local Abbreviation Api := (ApiCall PodSpec DeploymentSpec ServiceSpec AutoscalerSpec).
Local Abbreviation State := (St (W := W) (PodSpec := PodSpec) (DeploymentSpec := DeploymentSpec)
                                (ServiceSpec := ServiceSpec) (AutoscalerSpec := AutoscalerSpec)).

#[local] Existing Instance any_world_pre.

Lemma any_step (c : Api) (w : W) : any_call c -> any_world w (world_after c w).
Proof. done. Qed.

Lemma any_allowed (P : Api -> Prop) (c : Api) : P c -> any_call c.
Proof. done. Qed.

Ltac grows :=
  lazymatch goal with
  | |- confined _ _ (reconcileDeployment ?u ?ns) =>
      apply (reconcile_confined _ _ any_step Deployment u ns (any_allowed _))
  | |- confined _ _ (reconcileAutoscaler ?u ?ns) =>
      apply (reconcile_confined _ _ any_step Autoscaler u ns (any_allowed _))
  | |- confined _ _ (reconcileNginxConfig ?u ?ns) =>
      apply (reconcile_confined _ _ any_step NginxConfig u ns (any_allowed _))
  | |- confined _ _ (reconcileService ?u ?ns) =>
      apply (reconcileService_confined _ _ any_step u ns (any_allowed _))
  | |- confined _ _ (deleteDeployment ?u ?ns) =>
      apply (delete_child_confined _ _ any_step Deployment u ns (any_allowed _))
  | |- confined _ _ (deleteAutoscaler ?u ?ns) =>
      apply (delete_child_confined _ _ any_step Autoscaler u ns (any_allowed _))
  | |- confined _ _ (deleteNginxConfig ?u ?ns) =>
      apply (delete_child_confined _ _ any_step NginxConfig u ns (any_allowed _))
  | |- confined _ _ (deleteService ?u ?ns) =>
      apply (delete_child_confined _ _ any_step K8sService u ns (any_allowed _))
  | |- confined _ _ (updateStatus ?u) =>
      apply (updateStatus_confined _ _ any_step u); done
  | |- confined _ _ (createK8SResources ?u ?ns) =>
      apply (createK8SResources_confined _ _ any_step u ns (any_allowed _))
  | |- confined _ _ (deleteK8SResources ?u ?ns) =>
      apply (deleteK8SResources_confined _ _ any_step u ns (any_allowed _))
  | |- confined _ _ (reconcileWithImage ?u ?ns) =>
      apply (reconcileWithImage_confined _ _ any_step u ns (any_allowed _) (any_allowed _))
  | |- confined _ _ (kubeGet _ _ _) => by apply (confined_kubeGet _ _ any_step)
  | |- confined _ _ (kubeCreate _ _ _) => by apply (confined_kubeCreate _ _ any_step)
  | |- confined _ _ (kubeDelete _ _ _ _) => by apply (confined_kubeDelete _ _ any_step)
  | |- confined _ _ (elaGet _ _) => by apply (confined_elaGet _ _ any_step)
  | |- confined _ _ (elaUpdate _ _) => by apply (confined_elaUpdate _ _ any_step)
  | |- confined _ _ (listerGet _ _) => by apply (confined_listerGet _ _ any_step)
  | |- confined _ _ (getOrCreateRevisionNamespace _) =>
      by apply (confined_getOrCreateRevisionNamespace _ _ any_step)
  | |- confined _ _ (logf _ _) => apply (confined_logf any_call any_world)
  | |- confined _ _ (logIf _ _) => apply (confined_logIf any_call any_world)
  | |- confined _ _ (handleError _ _) => apply (confined_handleError any_call any_world)
  | |- confined _ _ (if ?b then _ else _) =>
      destruct b;
      repeat first [ apply (confined_bind any_call any_world); [| intros ?]
                   | apply (confined_logf any_call any_world)
                   | apply (confined_ret any_call any_world) ]
  end.

Lemma blames_bind {A B} (source : Api -> Prop)
    (errA : A -> option error) (errB : B -> option error)
    (m : M State A) (k : A -> M State B) :
  confined any_call any_world m ->
  blames source errA m ->
  (forall a, passes (errA a) errB (k a) \/ blames source errB (k a)) ->
  blames source errB (bind m k).
Proof.
  intros Hg Hm Hk s b s' e Hrun Hb. unfold bind in Hrun.
  destruct (confined_grows _ _ m s Hg) as [evs1 Hevs1].
  destruct (m s) as [[a|msg] s1] eqn:Hms; [|discriminate]. cbn [snd] in Hevs1.
  destruct (Hk a) as [Hp|Hbl].
  - destruct (Hp s1 b s' Hrun) as ([Hn|He] & evs2 & Hevs2); [congruence|].
    destruct (Hm s a s1 e Hms) as (evs & c & Htr & Hin & Hsrc); [congruence|].
    exists (evs ++ evs2), c. rewrite Hevs2, Htr, app_assoc.
    split; [done|]. split; [apply in_or_app; by left | done].
  - destruct (Hbl s1 b s' e Hrun Hb) as (evs2 & c & Htr & Hin & Hsrc).
    exists (evs1 ++ evs2), c. rewrite Htr, Hevs1, app_assoc.
    split; [done|]. split; [apply in_or_app; by right | done].
Qed.

Lemma blames_none {A} (source : Api -> Prop) (m : M State A) :
  blames source (fun _ => None) m.
Proof. by intros s a s' e _ H. Qed.

Lemma blames_call {A} (source : Api -> Prop) (c : Api) (errf : A -> option error)
    (h : W -> A * W) :
  source c -> blames source errf (call c errf h).
Proof.
  intros Hc s a s' e [= <- <-] He. eexists [_], c. cbn [snd]. rewrite He.
  split; [done|]. split; [by left | done].
Qed.

(** The result of [m] does not matter to what follows. *)
Ltac skip :=
  apply (blames_bind _ (fun _ => None)); [grows | apply blames_none | intros ?; right].

(** What follows hands on the error it was given, or none. *)
Ltac pass :=
  left; intros ? ? ? Hrun; unfold printErr in Hrun;
  repeat match type of Hrun with
    | context [if nonnil ?e then _ else _] => destruct e; cbn [nonnil] in Hrun
    end;
  unfold_m; try discriminate;
  injection Hrun as <- <-; cbn [fst snd];
  (split; [auto|]); eexists; first [reflexivity | symmetry; apply app_nil_r].

Lemma reconcileDeployment_blames (u : Revision) (ns : string) :
  blames retry_source id (reconcileDeployment u ns).
Proof.
  unfold reconcileDeployment. cbv zeta.
  apply (blames_bind _ err_of); [grows | by apply blames_call |].
  intros [o|e0]; cbn [err_of nonnil]; [pass|].
  destruct (IsNotFound (Some e0)); cbn [negb]; [|pass].
  right. skip. skip. skip. skip.
  apply (blames_bind _ err_of); [grows | by apply blames_call |].
  intros r. pass.
Qed.

Lemma updateStatus_blames (u : Revision) : blames retry_source err_of (updateStatus u).
Proof.
  unfold updateStatus.
  apply (blames_bind _ err_of); [grows | by apply blames_call |].
  intros [newu|e]; [right; by apply blames_call | pass].
Qed.

Lemma status_tail_blames (u u' : Revision) :
  blames retry_source fst
    (let* r := updateStatus u in
     let err := err_of r in
     if nonnil err then
       logf "Error recording build completion: %s" [ArgError err] >> ret (err, u')
     else ret (None, u')).
Proof.
  apply (blames_bind _ err_of); [grows | apply updateStatus_blames |].
  intros r. cbv zeta. destruct (err_of r); cbn [nonnil]; pass.
Qed.

Lemma createK8SResources_blames (u : Revision) (ns : string) :
  blames retry_source fst (createK8SResources u ns).
Proof.
  unfold createK8SResources.
  apply (blames_bind _ id); [grows | apply reconcileDeployment_blames |].
  intros [e|]; cbn [nonnil id]; [pass|].
  right. skip. skip. skip. skip. skip. cbv zeta. skip. skip.
  apply status_tail_blames.
Qed.

Lemma deleteK8SResources_blames (u : Revision) (ns : string) :
  blames retry_source fst (deleteK8SResources u ns).
Proof.
  unfold deleteK8SResources.
  do 14 skip. apply status_tail_blames.
Qed.

Lemma reconcileWithImage_blames (u : Revision) (ns : string) :
  blames retry_source fst (reconcileWithImage u ns).
Proof.
  unfold reconcileWithImage, meta_Accessor. cbn [fst snd nonnil]. cbv zeta.
  skip. destruct (DeletionTimestamp (RevMeta u)).
  - apply deleteK8SResources_blames.
  - skip. apply createK8SResources_blames.
Qed.

(** X8: an error the handler returns is never of its own making: the
    cluster gave it, in this very run, to the lookup in the cache, to the
    fetch or the create of the deployment, or to the read or the write of
    the Revision's status.  Errors of the pod, the autoscaler, the
    configmap and the service, and of every delete, never come back. *)
Theorem syncHandler_error_provenance (key : string) (s s' : State) (e : error) :
  syncHandler key s = (Returns (Some e), s') ->
  exists (evs : list Ev) (c : Api),
    snd s' = snd s ++ evs /\ In (Call c (Some e)) evs /\ retry_source c.
Proof.
  intros Hrun. revert s s' e Hrun.
  enough (blames retry_source id (syncHandler key)) as H.
  { intros s s' e Hrun. by apply (H s (Some e) s' e). }
  unfold syncHandler.
  destruct (SplitMetaNamespaceKey key) as [[namespace name]|e0].
  - skip.
    apply (blames_bind _ err_of); [grows | by apply blames_call |].
    intros [rev|e1]; cbn [err_of].
    + right.
      apply (blames_bind _ (fun _ => None)); [grows | apply blames_none |].
      intros [ns|e2]; [right | pass].
      skip.
      apply (blames_bind _ fst); [grows | apply reconcileWithImage_blames |].
      intros res. pass.
    + destruct (IsNotFound (Some e1)); pass.
  - apply (blames_bind _ (fun _ => None)); [grows | apply blames_none |].
    intros _. pass.
Qed.
End Provenance.

(** ** When the handler panics *)

Section Panics.
Context {PodSpec DeploymentSpec ServiceSpec AutoscalerSpec W : Type}.
Context {cs : Clientset PodSpec DeploymentSpec ServiceSpec AutoscalerSpec W}.
Context {hp : Helpers PodSpec DeploymentSpec ServiceSpec AutoscalerSpec}.

Local Abbreviation Obj := (Object PodSpec DeploymentSpec ServiceSpec AutoscalerSpec).
Local Abbreviation Ev := (Event PodSpec DeploymentSpec ServiceSpec AutoscalerSpec).
Local Abbreviation Api := (ApiCall PodSpec DeploymentSpec ServiceSpec AutoscalerSpec).
Local Abbreviation State := (St (W := W) (PodSpec := PodSpec) (DeploymentSpec := DeploymentSpec)
                                (ServiceSpec := ServiceSpec) (AutoscalerSpec := AutoscalerSpec)).

Lemma createK8SResources_returns (u : Revision) (ns : string) (s : State) :
  exists a s', createK8SResources u ns s = (Returns a, s').
Proof.
  destruct (reconcile_returns Deployment u ns s) as (err & s1 & Hd). cbn [reconcile] in Hd.
  destruct err as [e|].
  - destruct (create_path_aborts u ns s s1 e Hd) as (Hf & _).
    destruct (createK8SResources u ns s) as [o s2]. cbn [fst] in Hf. subst o. eauto.
  - destruct (create_path_steps u ns s s1 Hd)
      as (ea & s2 & ec & s3 & res & s4 & r & s5 & _ & _ & _ & _ & Hrun).
    eauto.
Qed.

Lemma deleteK8SResources_returns (u : Revision) (ns : string) (s : State) :
  exists a s', deleteK8SResources u ns s = (Returns a, s').
Proof.
  destruct (delete_path_steps u ns s)
    as (e1 & s1 & e2 & s2 & e3 & s3 & e4 & s4 & r & s5 & _ & _ & _ & _ & _ & Hrun).
  eauto.
Qed.

Lemma reconcileWithImage_returns (u : Revision) (ns : string) (s : State) :
  exists a s', reconcileWithImage u ns s = (Returns a, s').
Proof.
  destruct (DeletionTimestamp (RevMeta u)) as [t|] eqn:Ht.
  - rewrite (reconcileWithImage_terminating u ns s t Ht). apply deleteK8SResources_returns.
  - rewrite (reconcileWithImage_active u ns s Ht). apply createK8SResources_returns.
Qed.

(** X9: the handler panics in one case only: the key names a Revision
    the cache holds, and the get-or-create of its namespace fails.  The
    message is then "Failed to create namespace", and the lookup and the
    namespace call are the only calls made. *)
Theorem syncHandler_panics_only_on_namespace_failure
    (key : string) (w : W) (tr : list Ev) (msg : string) (s' : State) :
  syncHandler key (w, tr) = (Panics msg, s') ->
  exists (namespace name : string) (rev : Revision) (w1 : W) (e : error),
    SplitMetaNamespaceKey key = Ok (namespace, name) /\
    lister_Get namespace name w = (Ok rev, w1) /\
    util_GetOrCreateRevisionNamespace namespace w1 = (Err e, fst s') /\
    msg = "Failed to create namespace" /\
    calls (snd s')
    = calls tr ++ [ListerGet namespace name; GetOrCreateRevisionNamespace namespace].
Proof.
  unfold syncHandler.
  destruct (SplitMetaNamespaceKey key) as [[namespace name]|e0]; [|by unfold_m].
  unfold bind at 1, logf at 1, emit at 1. cbn [fst snd].
  unfold bind at 1, listerGet at 1, call at 1. cbn [fst snd].
  destruct (lister_Get namespace name w) as [[rev|e1] w1] eqn:Hl; cbn [fst snd err_of].
  2: { destruct (IsNotFound (Some e1)); by unfold_m. }
  unfold bind at 1, getOrCreateRevisionNamespace at 1, call at 1. cbn [fst snd].
  destruct (util_GetOrCreateRevisionNamespace namespace w1) as [[ns|e2] w2] eqn:Hn;
    cbn [fst snd err_of].
  - unfold bind at 1, logf at 1, emit at 1. cbn [fst snd].
    unfold bind at 1.
    match goal with
    | |- context [reconcileWithImage ?u ?n ?s] =>
        destruct (reconcileWithImage_returns u n s) as (a & s1 & ->)
    end.
    unfold printErr. destruct (nonnil (fst a)); by unfold_m.
  - unfold_m. intros [= <- <-]. cbn [fst snd].
    exists namespace, name, rev, w1, e2. repeat split; try done.
    rewrite <- !app_assoc. cbn [app].
    rewrite !calls_app. reflexivity.
Qed.
End Panics.

(** ** Teardown on the in-memory cluster *)

Section Teardown.
Context {PodSpec DeploymentSpec ServiceSpec AutoscalerSpec : Type}.
Context {hp : Helpers PodSpec DeploymentSpec ServiceSpec AutoscalerSpec}.

Local Abbreviation Obj := (Object PodSpec DeploymentSpec ServiceSpec AutoscalerSpec).
Local Abbreviation Ev := (Event PodSpec DeploymentSpec ServiceSpec AutoscalerSpec).
Local Abbreviation Api := (ApiCall PodSpec DeploymentSpec ServiceSpec AutoscalerSpec).
Local Abbreviation World :=
  (Fake.World (PodSpec := PodSpec) (DeploymentSpec := DeploymentSpec)
              (ServiceSpec := ServiceSpec) (AutoscalerSpec := AutoscalerSpec)).
Local Abbreviation State :=
  (St (W := World) (PodSpec := PodSpec) (DeploymentSpec := DeploymentSpec)
      (ServiceSpec := ServiceSpec) (AutoscalerSpec := AutoscalerSpec)).

Ltac step :=
  erewrite bind_runs;
  [| first [eassumption | apply logIf_runs | apply logf_runs | reflexivity]].

(** delete-X with no fault injected: the child is gone afterwards, and
    nothing else has changed. *)
Lemma fake_delete_child (c : Child) (u : Revision) (ns : string) (w : World) (tr : list Ev) :
  Fake.reactors w = [] ->
  exists (w' : World) (tr' : list Ev),
    delete_child c u ns (w, tr) = (Returns None, (w', tr')) /\
    Fake.objects w' = base.delete (key c u ns) (Fake.objects w) /\
    Fake.reactors w' = [] /\
    Fake.revisions w' = Fake.revisions w.
Proof.
  intros Hr. destruct (Fake.objects w !! key c u ns) as [o|] eqn:Ho.
  - unfold key in Ho.
    destruct c; cbn [kind child_name] in Ho;
      unfold delete_child, deleteDeployment, deleteAutoscaler, deleteNginxConfig,
        deleteService;
      unfold_m; cbn [kube_Get kube_Delete Fake.clientset];
      unfold Fake.get, Fake.delete; rewrite ?Hr; cbn [Fake.react]; rewrite ?Ho;
      cbn [fst snd err_of nonnil andb negb IsNotFound id];
      rewrite ?Hr; cbn [Fake.react]; rewrite ?Ho;
      cbn [fst snd err_of nonnil andb negb IsNotFound id];
      do 2 eexists; (split; [reflexivity|]); done.
  - destruct (fake_delete_absent c u ns w tr Hr Ho) as (tr' & Hrun & _).
    exists w, tr'. split; [exact Hrun|]. split; [|done].
    symmetry. by apply delete_id.
Qed.

Lemma key_inj (c c' : Child) (u : Revision) (ns : string) :
  key c u ns = key c' u ns -> c = c'.
Proof. unfold key. intros [= H _]. by apply kind_inj. Qed.

(** The delete path with no fault injected, up to its result. *)
Lemma fake_delete_path (u : Revision) (ns : string) (w : World) (tr : list Ev) :
  Fake.reactors w = [] ->
  stored w u ->
  exists (w' : World) (tr' : list Ev),
    deleteK8SResources u ns (w, tr)
    = (Returns (None, with_Conditions (not_ready "Inactive") u), (w', tr')) /\
    Fake.objects w'
    = base.delete (key K8sService u ns)
        (base.delete (key NginxConfig u ns)
           (base.delete (key Autoscaler u ns)
              (base.delete (key Deployment u ns) (Fake.objects w)))) /\
    Fake.reactors w' = [] /\
    stored w' u.
Proof.
  intros Hr Hs.
  destruct (fake_delete_child Deployment u ns w
              (snd (log_line "Deleting the resources for %s\n"
                      [ArgString (Name (RevMeta u))] (w, tr))) Hr)
    as (w1 & tr1 & H1 & O1 & R1 & V1).
  destruct (fake_delete_child Autoscaler u ns w1
              (snd (log_line "Deleted deployment" [] (w1, tr1))) R1)
    as (w2 & tr2 & H2 & O2 & R2 & V2).
  destruct (fake_delete_child NginxConfig u ns w2
              (snd (log_line "Deleted autoscaler" [] (w2, tr2))) R2)
    as (w3 & tr3 & H3 & O3 & R3 & V3).
  destruct (fake_delete_child K8sService u ns w3
              (snd (log_line "Deleted nginx configmap" [] (w3, tr3))) R3)
    as (w4 & tr4 & H4 & O4 & R4 & V4).
  set (u' := with_Conditions (not_ready "Inactive") u).
  assert (Hs4 : stored w4 u').
  { unfold stored in *. by rewrite V4, V3, V2, V1. }
  destruct (fake_updateStatus u' w4
              (snd (log_line "2. Updating status with the following conditions %+v"
                      [ArgConditions (not_ready "Inactive")]
                      (log_line "Deleted service" [] (w4, tr4)))) R4 Hs4)
    as (v & w' & tr' & Hv & Hup & Hs' & _).
  destruct (fake_updateStatus_frame _ _ _ _ _ _ Hup) as (Hobj & Hre & _).
  cbn [delete_child] in H1, H2, H3, H4.
  exists w', tr'. split; [|split; [|split]].
  - unfold deleteK8SResources. do 15 step. reflexivity.
  - by rewrite Hobj, O4, O3, O2, O1.
  - by rewrite Hre.
  - exact Hs'.
Qed.

(** X10: on the in-memory cluster with no fault injected and the
    Revision stored, the delete path returns no error, the four children
    are gone afterwards, whichever of them were there, and every other
    object is as it was. *)
Theorem delete_path_removes_children
    (u : Revision) (ns : string) (w : World) (tr : list Ev) :
  Fake.reactors w = [] ->
  stored w u ->
  exists (w' : World) (tr' : list Ev),
    deleteK8SResources u ns (w, tr)
    = (Returns (None, with_Conditions (not_ready "Inactive") u), (w', tr')) /\
    (forall c, absent w' c u ns) /\
    (forall k, (forall c : Child, k <> key c u ns) ->
               Fake.objects w' !! k = Fake.objects w !! k).
Proof.
  intros Hr Hs.
  destruct (fake_delete_path u ns w tr Hr Hs) as (w' & tr' & Hrun & Hobj & _ & _).
  exists w', tr'. split; [exact Hrun|]. split.
  - intros c. unfold absent. rewrite Hobj.
    destruct c;
      repeat first [ apply lookup_delete_eq
                   | rewrite lookup_delete_ne by (intros H; by apply key_inj in H) ].
  - intros k Hk. rewrite Hobj.
    rewrite !lookup_delete_ne by (intros H; symmetry in H; by apply Hk in H). done.
Qed.

Lemma after_reconcile_absent (c : Child) (u : Revision) (ns : string) (w : World) :
  absent w c u ns ->
  Fake.objects (after_reconcile c u ns w)
  = <[key c u ns := desired c u ns]>
      (match c with
       | Deployment => ensure Pods ns (desired_pod u ns) (Fake.objects w)
       | _ => Fake.objects w
       end).
Proof.
  intros Ha. unfold after_reconcile. by rewrite (absent_not_present _ _ _ _ Ha).
Qed.

Lemma absent_after_other (c c' : Child) (u : Revision) (ns : string) (w : World) :
  c' <> c -> absent w c' u ns -> absent (after_reconcile c u ns w) c' u ns.
Proof. intros Hne Ha. unfold absent. by rewrite after_reconcile_other. Qed.

Lemma pod_key_not_child (c : Child) (u : Revision) (ns : string) :
  pod_key u ns <> key c u ns.
Proof. unfold pod_key, key. intros [= H _]. by destruct c. Qed.

(** X11: on the in-memory cluster with no fault injected, the create
    path followed by the delete path does not give back the cluster it
    started from: the four children are gone again, and the pod that went
    ahead of the deployment stays. *)
Theorem create_then_delete_leaves_pod
    (u : Revision) (ns : string) (w : World) (tr : list Ev) :
  Fake.reactors w = [] ->
  named_as_derived u ns ->
  stored w u ->
  (forall c, absent w c u ns) ->
  Fake.objects w !! pod_key u ns = None ->
  exists (u1 : Revision) (w1 : World) (tr1 : list Ev)
         (u2 : Revision) (w2 : World) (tr2 : list Ev),
    createK8SResources u ns (w, tr) = (Returns (None, u1), (w1, tr1)) /\
    deleteK8SResources u ns (w1, tr1) = (Returns (None, u2), (w2, tr2)) /\
    Fake.objects w2 = <[pod_key u ns := desired_pod u ns]> (Fake.objects w).
Proof.
  intros Hr Hn Hs Ha Hpod.
  destruct (fake_create_cycle u ns w tr Hr Hn Hs)
    as (w1 & tr1 & l & Hcreate & Hobj1 & Hr1 & Hs1 & _).
  destruct (fake_delete_path u ns w1 tr1 Hr1 Hs1) as (w2 & tr2 & Hdelete & Hobj2 & _ & _).
  do 6 eexists. split; [exact Hcreate|]. split; [exact Hdelete|].
  rewrite Hobj2, Hobj1. unfold children. cbn [after_children].
  assert (HaA : absent (after_reconcile Deployment u ns w) Autoscaler u ns)
    by (by apply absent_after_other).
  assert (HaN : absent (after_reconcile Autoscaler u ns (after_reconcile Deployment u ns w))
                  NginxConfig u ns)
    by (by do 2 (apply absent_after_other; [done|])).
  assert (HaS : absent (after_reconcile NginxConfig u ns
                          (after_reconcile Autoscaler u ns
                             (after_reconcile Deployment u ns w)))
                  K8sService u ns)
    by (by do 3 (apply absent_after_other; [done|])).
  rewrite (after_reconcile_absent K8sService _ _ _ HaS).
  rewrite (after_reconcile_absent NginxConfig _ _ _ HaN).
  rewrite (after_reconcile_absent Autoscaler _ _ _ HaA).
  rewrite (after_reconcile_absent Deployment _ _ _ (Ha _)).
  assert (Hens : ensure Pods ns (desired_pod u ns) (Fake.objects w)
                 = <[pod_key u ns := desired_pod u ns]> (Fake.objects w)).
  { unfold ensure, pod_key in *. cbn [desired_pod append_OwnerReference ObjMeta Name].
    by rewrite Hpod. }
  rewrite Hens. apply map_eq. intros k.
  assert (Hcase : (exists c, k = key c u ns) \/ (forall c, k <> key c u ns)).
  { destruct (decide (k = key Deployment u ns)); [left; by eexists|].
    destruct (decide (k = key Autoscaler u ns)); [left; by eexists|].
    destruct (decide (k = key NginxConfig u ns)); [left; by eexists|].
    destruct (decide (k = key K8sService u ns)); [left; by eexists|].
    right. by intros []. }
  destruct Hcase as [[c ->]|Hk].
  - transitivity (@None Obj).
    + destruct c;
        repeat first [ apply lookup_delete_eq
                     | rewrite lookup_delete_ne by (intros H; by apply key_inj in H) ].
    + symmetry. rewrite lookup_insert_ne by apply pod_key_not_child. apply Ha.
  - rewrite !lookup_delete_ne by (intros H; symmetry in H; by apply Hk in H).
    rewrite !(lookup_insert_ne _ (key _ _ _)) by (intros H; symmetry in H; by apply Hk in H).
    done.
Qed.
End Teardown.

(** ** One round of the worker *)

Section WorkerRounds.
Context {PodSpec DeploymentSpec ServiceSpec AutoscalerSpec W : Type}.
Context {cs : Clientset PodSpec DeploymentSpec ServiceSpec AutoscalerSpec W}.
Context {wq : Workqueue W}.
Context {hp : Helpers PodSpec DeploymentSpec ServiceSpec AutoscalerSpec}.

Local Abbreviation Ev := (Event PodSpec DeploymentSpec ServiceSpec AutoscalerSpec).
Local Abbreviation State := (St (W := W) (PodSpec := PodSpec) (DeploymentSpec := DeploymentSpec)
                                (ServiceSpec := ServiceSpec) (AutoscalerSpec := AutoscalerSpec)).

(** A round on a string: the handler runs, and [Done] comes after it
    however it ended. *)
Lemma round_on_string (key : string) (w w0 : W) (tr : list Ev)
    (out : Outcome (option error)) (s1 : State) :
  queue_Get w = ((ItemString key, false), w0) ->
  syncHandler key (w0, tr ++ [Dequeued (ItemString key) false]) = (out, s1) ->
  processNextWorkItem (w, tr)
  = match out with
    | Returns None =>
        (Returns true,
         (queue_Done (ItemString key) (queue_Forget (ItemString key) (fst s1)),
          snd s1 ++ [QueueForget (ItemString key);
                     Info "Successfully synced '%s'" [ArgString key];
                     QueueDone (ItemString key)]))
    | Returns (Some e) =>
        (Returns true,
         (queue_Done (ItemString key) (fst s1),
          snd s1 ++ [QueueDone (ItemString key);
                     HandleError "error syncing '%s': %s"
                       [ArgString key; ArgError (Some e)]]))
    | Panics msg =>
        (Panics msg,
         (queue_Done (ItemString key) (fst s1), snd s1 ++ [QueueDone (ItemString key)]))
    end.
Proof.
  intros Hq Hs.
  unfold processNextWorkItem, defer, queueGet, queueDone, queueForget, infof,
    handleError, emit, bind, ret.
  cbn [fst snd]. rewrite Hq. cbn [fst snd]. rewrite !Hs.
  destruct s1 as [w1 tr1].
  destruct out as [[e|]|msg]; cbn [nonnil fst snd]; by rewrite <- ?app_assoc.
Qed.

(** A round on an item that is no string. *)
Lemma round_on_other (repr : string) (w w0 : W) (tr : list Ev) :
  queue_Get w = ((ItemOther repr, false), w0) ->
  processNextWorkItem (w, tr)
  = (Returns true,
     (queue_Done (ItemOther repr) (queue_Forget (ItemOther repr) w0),
      tr ++ [Dequeued (ItemOther repr) false;
             QueueForget (ItemOther repr);
             HandleError "expected string in workqueue but got %#v"
               [ArgItem (ItemOther repr)];
             QueueDone (ItemOther repr)])).
Proof.
  intros Hq.
  unfold processNextWorkItem, defer, queueGet, queueDone, queueForget, infof,
    handleError, emit, bind, ret.
  cbn [fst snd]. rewrite Hq. cbn [fst snd]. by rewrite <- ?app_assoc.
Qed.

(** A round on a queue that was shut down. *)
Lemma round_on_shutdown (obj : Item) (w w0 : W) (tr : list Ev) :
  queue_Get w = ((obj, true), w0) ->
  processNextWorkItem (w, tr) = (Returns false, (w0, tr ++ [Dequeued obj true])).
Proof.
  intros Hq. unfold processNextWorkItem, queueGet, bind, ret.
  cbn [fst snd]. by rewrite Hq.
Qed.
End WorkerRounds.

(** ** The worker on the in-memory queue *)

Section WorkerOnFake.
Context {PodSpec DeploymentSpec ServiceSpec AutoscalerSpec : Type}.
Context {hp : Helpers PodSpec DeploymentSpec ServiceSpec AutoscalerSpec}.

Local Abbreviation Obj := (Object PodSpec DeploymentSpec ServiceSpec AutoscalerSpec).
Local Abbreviation Ev := (Event PodSpec DeploymentSpec ServiceSpec AutoscalerSpec).
Local Abbreviation Api := (ApiCall PodSpec DeploymentSpec ServiceSpec AutoscalerSpec).
Local Abbreviation World :=
  (Fake.World (PodSpec := PodSpec) (DeploymentSpec := DeploymentSpec)
              (ServiceSpec := ServiceSpec) (AutoscalerSpec := AutoscalerSpec)).
Local Abbreviation State :=
  (St (W := World) (PodSpec := PodSpec) (DeploymentSpec := DeploymentSpec)
      (ServiceSpec := ServiceSpec) (AutoscalerSpec := AutoscalerSpec)).

Lemma filter_not_self (obj : Item) (l : list Item) :
  filter (fun o => o <> obj) (obj :: l) = filter (fun o => o <> obj) l.
Proof. apply filter_cons_False. by intros H. Qed.

(** One round of the worker on a queue that holds [obj] first, as far
    as the queue goes. *)
Lemma fake_round (w : World) (tr : list Ev) (obj : Item) (q : list Item) :
  Fake.queue w = obj :: q ->
  let r := processNextWorkItem (w, tr) in
  Fake.queue (fst (snd r)) = q /\
  Fake.processing (fst (snd r)) = filter (fun o => o <> obj) (Fake.processing w) /\
  (fst r = Returns true \/ exists msg, fst r = Panics msg).
Proof.
  intros Hq r. subst r.
  set (w0 := Fake.with_queue q (obj :: Fake.processing w) (Fake.forgotten w) w).
  assert (Hget : queue_Get w = ((obj, false), w0)).
  { cbn [queue_Get Fake.workqueue]. unfold Fake.dequeue. by rewrite Hq. }
  destruct obj as [key|repr].
  - pose proof (syncHandler_same_queue key w0 (tr ++ [Dequeued (ItemString key) false]))
      as (Hsq & Hsp & _).
    destruct (syncHandler key (w0, tr ++ [Dequeued (ItemString key) false]))
      as [out [w1 tr1]] eqn:Hs.
    rewrite (round_on_string key w w0 tr out (w1, tr1) Hget Hs).
    cbn [fst snd] in *.
    destruct out as [[e|]|msg]; cbn [fst snd queue_Done queue_Forget Fake.workqueue];
      unfold Fake.done, Fake.forget;
      cbn [Fake.queue Fake.processing Fake.forgotten Fake.with_queue];
      rewrite ?Hsq, ?Hsp; subst w0;
      cbn [Fake.queue Fake.processing Fake.forgotten Fake.with_queue];
      rewrite filter_not_self; eauto.
  - rewrite (round_on_other repr w w0 tr Hget).
    cbn [fst snd queue_Done queue_Forget Fake.workqueue].
    unfold Fake.done, Fake.forget. subst w0.
    cbn [Fake.queue Fake.processing Fake.forgotten Fake.with_queue].
    rewrite filter_not_self. eauto.
Qed.

(** X12: one round of the worker on the in-memory queue, for whatever
    item comes first and whatever the cluster answers: the item leaves the
    queue and is marked done, also when the handler panics; it is
    forgotten, so not retried, exactly when it is not a string or the
    handler returned no error; and the worker goes on unless the handler
    panicked. *)
Theorem worker_settles_item (w : World) (tr : list Ev) (obj : Item) (q : list Item) :
  Fake.queue w = obj :: q ->
  let w0 := Fake.with_queue q (obj :: Fake.processing w) (Fake.forgotten w) w in
  let tr0 := tr ++ [Dequeued obj false] in
  let r := processNextWorkItem (w, tr) in
  Fake.queue (fst (snd r)) = q /\
  Fake.processing (fst (snd r)) = filter (fun o => o <> obj) (Fake.processing w) /\
  match obj with
  | ItemString key =>
      match fst (syncHandler key (w0, tr0)) with
      | Returns None =>
          fst r = Returns true /\ Fake.forgotten (fst (snd r)) = obj :: Fake.forgotten w
      | Returns (Some _) =>
          fst r = Returns true /\ Fake.forgotten (fst (snd r)) = Fake.forgotten w
      | Panics msg =>
          fst r = Panics msg /\ Fake.forgotten (fst (snd r)) = Fake.forgotten w
      end
  | ItemOther _ =>
      fst r = Returns true /\ Fake.forgotten (fst (snd r)) = obj :: Fake.forgotten w
  end.
Proof.
  intros Hq w0 tr0 r. subst r.
  assert (Hget : queue_Get w = ((obj, false), w0)).
  { cbn [queue_Get Fake.workqueue]. unfold Fake.dequeue. by rewrite Hq. }
  destruct obj as [key|repr].
  - pose proof (syncHandler_same_queue key w0 tr0) as (Hsq & Hsp & Hsf).
    destruct (syncHandler key (w0, tr0)) as [out [w1 tr1]] eqn:Hs.
    rewrite (round_on_string key w w0 tr out (w1, tr1) Hget Hs).
    cbn [fst snd] in *.
    destruct out as [[e|]|msg]; cbn [fst snd queue_Done queue_Forget Fake.workqueue];
      unfold Fake.done, Fake.forget;
      cbn [Fake.queue Fake.processing Fake.forgotten Fake.with_queue];
      rewrite ?Hsq, ?Hsp, ?Hsf; subst w0;
      cbn [Fake.queue Fake.processing Fake.forgotten Fake.with_queue];
      rewrite filter_not_self; done.
  - rewrite (round_on_other repr w w0 tr Hget).
    cbn [fst snd queue_Done queue_Forget Fake.workqueue].
    unfold Fake.done, Fake.forget. subst w0.
    cbn [Fake.queue Fake.processing Fake.forgotten Fake.with_queue].
    rewrite filter_not_self. done.
Qed.

Lemma filter_not_in_nil (l : list Item) : filter (fun o => o ∉ @nil Item) l = l.
Proof.
  induction l as [|x l IH]; [done|].
  rewrite filter_cons_True by apply not_elem_of_nil. by rewrite IH.
Qed.

Lemma filter_not_in_cons (obj : Item) (q l : list Item) :
  filter (fun o => o ∉ q) (filter (fun o => o <> obj) l) = filter (fun o => o ∉ obj :: q) l.
Proof.
  rewrite list_filter_filter. apply list_filter_iff. intros x.
  rewrite not_elem_of_cons. tauto.
Qed.

(** X13: the worker on the in-memory queue, given more rounds than the
    queue has items: it does not run out of rounds; if it stops of itself
    the queue is empty and none of its items is left in process; if it is
    stopped by a panic of the handler, the items behind the one at fault
    are still queued. *)
Theorem worker_drains_queue (fuel : nat) (w : World) (tr : list Ev) :
  length (Fake.queue w) < fuel ->
  let r := runWorker fuel (w, tr) in
  match fst r with
  | Returns (Some _) =>
      Fake.queue (fst (snd r)) = [] /\
      Fake.processing (fst (snd r))
      = filter (fun o => o ∉ Fake.queue w) (Fake.processing w)
  | Returns None => False
  | Panics _ =>
      exists (handled rest : list Item),
        Fake.queue w = handled ++ rest /\ handled <> [] /\
        Fake.queue (fst (snd r)) = rest
  end.
Proof.
  revert w tr. induction fuel as [|fuel IH]; intros w tr Hlen; [lia|].
  cbv zeta. destruct (Fake.queue w) as [|obj q] eqn:Hq.
  - assert (Hrun : runWorker (S fuel) (w, tr)
                   = (Returns (Some tt), (w, tr ++ [Dequeued (ItemOther EmptyString) true]))).
    { cbn [runWorker]. unfold bind.
      rewrite (round_on_shutdown (ItemOther EmptyString) w w tr); [reflexivity|].
      cbn [queue_Get Fake.workqueue]. unfold Fake.dequeue. by rewrite Hq. }
    rewrite Hrun. cbn [fst snd]. rewrite Hq. split; [done|]. by rewrite filter_not_in_nil.
  - pose proof (fake_round w tr obj q Hq) as (Hq1 & Hp1 & Hcases).
    destruct (processNextWorkItem (w, tr)) as [out [w1 tr1]] eqn:Hp. cbn [fst snd] in *.
    assert (Hrun : runWorker (S fuel) (w, tr)
                   = match out with
                     | Returns true => runWorker fuel (w1, tr1)
                     | Returns false => (Returns (Some tt), (w1, tr1))
                     | Panics msg => (Panics msg, (w1, tr1))
                     end).
    { cbn [runWorker]. unfold bind. rewrite Hp. by destruct out as [[]|]. }
    rewrite Hrun. clear Hrun Hp.
    destruct Hcases as [->|[msg ->]].
    + specialize (IH w1 tr1). rewrite Hq1 in IH. cbn [length] in Hlen.
      specialize (IH ltac:(lia)). cbv zeta in IH.
      destruct (runWorker fuel (w1, tr1)) as [[[[]|]|msg] [w2 tr2]]; cbn [fst snd] in *.
      * destruct IH as [IHq IHp]. split; [done|].
        by rewrite IHp, Hp1, filter_not_in_cons.
      * done.
      * destruct IH as (handled & rest & -> & Hne & Hrest).
        exists (obj :: handled), rest. by repeat split.
    + cbn [fst snd]. exists [obj], q. by repeat split.
Qed.
End WorkerOnFake.

(** ** More runs on the sample cluster *)

Module MoreRuns.
Import Sample.

Local Abbreviation Ev := (Event string string string string).
Local Abbreviation Api := (ApiCall string string string string).
Local Abbreviation Objects := (gmap (Kind * string * string) (Object string string string string)).

(** [r1] with one ["controller"] between two other finalizers. *)
Lemma finalizer_removed_from_r1 :
  let u := with_Finalizers ["a"; "controller"; "b"] r1 in
  let w : Cluster := cluster_with r1 [] in
  let u' := with_Finalizers ["a"; "b"] r1 in
  length (filter (fun v => v = "controller") (Finalizers (RevMeta u))) <= 1 /\
  removeFinalizers u "default" (w, [])
  = (Returns (None, u'),
     (snd (ela_Update "default" u' w),
      [] ++ [Log "Removing finalizers for %q\n" [ArgString "r1"];
             Call (ElaUpdate "default" u') (err_of (fst (ela_Update "default" u' w)));
             Log "The finalizer 'controller' is removed." []])).
Proof.
  intros u w u'.
  assert (H : length (filter (fun v => v = "controller") (Finalizers (RevMeta u))) <= 1)
    by (vm_compute; lia).
  split; [exact H|].
  exact (removeFinalizers_removes_single u "default" w [] H).
Defined.

(** [r1] with ["controller"] first and last. *)
Lemma finalizers_of_r1_panic :
  let u := with_Finalizers ["controller"; "x"; "controller"] r1 in
  let w : Cluster := cluster_with r1 [] in
  Finalizers (RevMeta u) = ["controller"; "x"] ++ ["controller"] /\
  "controller" ∈ ["controller"; "x"] /\
  removeFinalizers u "default" (w, [])
  = (Panics "runtime error: slice bounds out of range",
     (w, [] ++ [Log "Removing finalizers for %q\n" [ArgString "r1"]])).
Proof.
  intros u w.
  assert (H1 : Finalizers (RevMeta u) = ["controller"; "x"] ++ ["controller"])
    by reflexivity.
  assert (H2 : "controller" ∈ ["controller"; "x"]) by apply list_elem_of_here.
  split; [exact H1|]. split; [exact H2|].
  exact (removeFinalizers_panics_on_repeat u "default" w [] ["controller"; "x"] H1 H2).
Defined.

(** [r1] with ["controller"] twice in a row: one of the two stays. *)
Lemma finalizer_survives_on_r1 :
  let u := with_Finalizers ["controller"; "controller"; "x"] r1 in
  let w : Cluster := cluster_with r1 [] in
  let u' := with_Finalizers ["controller"; "x"] r1 in
  Finalizers (RevMeta u) = [] ++ "controller" :: "controller" :: ["x"] /\
  ("controller" ∉ @nil string) /\
  ("controller" ∉ ["x"]) /\
  ["x"] <> [] /\
  removeFinalizers u "default" (w, [])
  = (Returns (None, u'),
     (snd (ela_Update "default" u' w),
      [] ++ [Log "Removing finalizers for %q\n" [ArgString "r1"];
             Call (ElaUpdate "default" u') (err_of (fst (ela_Update "default" u' w)));
             Log "The finalizer 'controller' is removed." []])).
Proof.
  intros u w u'.
  assert (H1 : Finalizers (RevMeta u) = [] ++ "controller" :: "controller" :: ["x"])
    by reflexivity.
  assert (H2 : "controller" ∉ @nil string) by apply not_elem_of_nil.
  assert (H3 : "controller" ∉ ["x"]).
  { intros H. apply list_elem_of_singleton in H. discriminate H. }
  assert (H4 : ["x"] <> @nil string) by discriminate.
  split; [exact H1|]. split; [exact H2|]. split; [exact H3|]. split; [exact H4|].
  exact (removeFinalizers_skips_next u "default" w [] [] "controller" ["x"] H1 H2 H3 H4).
Defined.

(** The deployment of [r1] is there before the create path runs, with
    creates of services failing, and is there unchanged after it. *)
Lemma deployment_of_r1_kept :
  let w : Cluster := cluster (deployment_of r1) r1 [fails "create" "services"] in
  let k := (Deployments, "default-ela", "r1-ela-deployment") in
  Fake.objects w !! k = Some (desired Deployment r1 "default-ela") /\
  Fake.objects (fst (snd (createK8SResources r1 "default-ela" (w, [])))) !! k
  = Some (desired Deployment r1 "default-ela").
Proof.
  intros w k.
  assert (H : Fake.objects w !! k = Some (desired Deployment r1 "default-ela"))
    by (vm_compute; reflexivity).
  split; [exact H|].
  exact (create_path_keeps_objects r1 "default-ela" w [] k _ H).
Defined.

(** The pod of the terminating [r1] outlives the delete path. *)
Lemma pod_of_r1_outlives_teardown :
  let objs : Objects :=
    {[ pod_key r1_terminating "default-ela" := desired_pod r1_terminating "default-ela" ]} in
  let w : Cluster := cluster objs r1_terminating [] in
  (forall c : Child, pod_key r1_terminating "default-ela" <> key c r1_terminating "default-ela") /\
  Fake.objects (fst (snd (deleteK8SResources r1_terminating "default-ela" (w, []))))
    !! pod_key r1_terminating "default-ela"
  = Fake.objects w !! pod_key r1_terminating "default-ela".
Proof.
  intros objs w.
  assert (H : forall c : Child,
             pod_key r1_terminating "default-ela" <> key c r1_terminating "default-ela")
    by (intros []; discriminate).
  split; [exact H|].
  exact (delete_path_touches_children_only r1_terminating "default-ela" w []
           (pod_key r1_terminating "default-ela") H).
Defined.

(** Creates of deployments fail: the handler returns that error, and the
    trace holds the call that got it. *)
Lemma deployment_error_traced_on_r1 :
  let s : Cluster * list Ev := (cluster_with r1 [fails "create" "deployments"], []) in
  let s' := snd (syncHandler "default/r1" s) in
  syncHandler "default/r1" s = (Returns (Some internal_error), s') /\
  exists (evs : list Ev) (c : Api),
    snd s' = snd s ++ evs /\ In (Call c (Some internal_error)) evs /\ retry_source c.
Proof.
  intros s s'.
  assert (H : syncHandler "default/r1" s = (Returns (Some internal_error), s'))
    by (vm_compute; reflexivity).
  split; [exact H|].
  exact (syncHandler_error_provenance "default/r1" s s' internal_error H).
Defined.

(** The namespace cannot be fetched: the handler panics, and the theorem
    gives back the reason. *)
Lemma panic_on_r1_explained :
  let w : Cluster := cluster_with r1 [fails "get" "namespaces"] in
  let s' := snd (syncHandler "default/r1" (w, [])) in
  syncHandler "default/r1" (w, []) = (Panics "Failed to create namespace", s') /\
  exists (namespace name : string) (rev : Revision) (w1 : Cluster) (e : error),
    SplitMetaNamespaceKey "default/r1" = Ok (namespace, name) /\
    lister_Get namespace name w = (Ok rev, w1) /\
    util_GetOrCreateRevisionNamespace namespace w1 = (Err e, fst s') /\
    "Failed to create namespace" = "Failed to create namespace" /\
    calls (snd s')
    = calls [] ++ [ListerGet namespace name; GetOrCreateRevisionNamespace namespace].
Proof.
  intros w s'.
  assert (H : syncHandler "default/r1" (w, []) = (Panics "Failed to create namespace", s'))
    by (vm_compute; reflexivity).
  split; [exact H|].
  exact (syncHandler_panics_only_on_namespace_failure
           "default/r1" w [] "Failed to create namespace" s' H).
Defined.

(** The deployment of the terminating [r1] is there, and gone after the
    delete path. *)
Lemma teardown_removes_deployment_of_r1 :
  let w : Cluster := cluster (deployment_of r1_terminating) r1_terminating [] in
  Fake.reactors w = [] /\
  stored w r1_terminating /\
  exists (w' : Cluster) (tr' : list Ev),
    deleteK8SResources r1_terminating "default-ela" (w, [])
    = (Returns (None, with_Conditions (not_ready "Inactive") r1_terminating), (w', tr')) /\
    (forall c, absent w' c r1_terminating "default-ela") /\
    (forall k, (forall c : Child, k <> key c r1_terminating "default-ela") ->
               Fake.objects w' !! k = Fake.objects w !! k).
Proof.
  intros w.
  assert (Hr : Fake.reactors w = []) by reflexivity.
  assert (Hs : stored w r1_terminating).
  { exists r1_terminating. split; [|reflexivity]. vm_compute. reflexivity. }
  split; [exact Hr|]. split; [exact Hs|].
  exact (delete_path_removes_children r1_terminating "default-ela" w [] Hr Hs).
Defined.

(** [r1] created on the empty cluster and torn down again: its pod is
    what is left. *)
Lemma pod_of_r1_left_behind :
  let w : Cluster := cluster_with r1 [] in
  Fake.reactors w = [] /\
  named_as_derived r1 "default-ela" /\
  stored w r1 /\
  (forall c, absent w c r1 "default-ela") /\
  Fake.objects w !! pod_key r1 "default-ela" = None /\
  exists (u1 : Revision) (w1 : Cluster) (tr1 : list Ev)
         (u2 : Revision) (w2 : Cluster) (tr2 : list Ev),
    createK8SResources r1 "default-ela" (w, []) = (Returns (None, u1), (w1, tr1)) /\
    deleteK8SResources r1 "default-ela" (w1, tr1) = (Returns (None, u2), (w2, tr2)) /\
    Fake.objects w2 = <[pod_key r1 "default-ela" := desired_pod r1 "default-ela"]> (Fake.objects w).
Proof.
  intros w.
  assert (Hr : Fake.reactors w = []) by reflexivity.
  assert (Hn : named_as_derived r1 "default-ela") by (by intros []).
  assert (Hs : stored w r1).
  { exists r1. split; [|reflexivity]. vm_compute. reflexivity. }
  assert (Ha : forall c, absent w c r1 "default-ela").
  { intros c. unfold absent. cbn [Fake.objects cluster_with w]. apply lookup_empty. }
  assert (Hp : Fake.objects w !! pod_key r1 "default-ela" = None) by apply lookup_empty.
  split; [exact Hr|]. split; [exact Hn|]. split; [exact Hs|]. split; [exact Ha|].
  split; [exact Hp|].
  exact (create_then_delete_leaves_pod r1 "default-ela" w [] Hr Hn Hs Ha Hp).
Defined.

(** The key of [r1] comes off the queue. *)
Lemma r1_settled :
  let w : Cluster := enqueued "default/r1" (cluster_with r1 []) in
  let obj := ItemString "default/r1" in
  let w0 := Fake.with_queue [] (obj :: Fake.processing w) (Fake.forgotten w) w in
  let tr0 : list Ev := [] ++ [Dequeued obj false] in
  let r := processNextWorkItem (w, []) in
  Fake.queue w = [obj] /\
  Fake.queue (fst (snd r)) = [] /\
  Fake.processing (fst (snd r)) = filter (fun o => o <> obj) (Fake.processing w) /\
  match fst (syncHandler "default/r1" (w0, tr0)) with
  | Returns None =>
      fst r = Returns true /\ Fake.forgotten (fst (snd r)) = obj :: Fake.forgotten w
  | Returns (Some _) =>
      fst r = Returns true /\ Fake.forgotten (fst (snd r)) = Fake.forgotten w
  | Panics msg =>
      fst r = Panics msg /\ Fake.forgotten (fst (snd r)) = Fake.forgotten w
  end.
Proof.
  intros w obj w0 tr0 r.
  assert (H : Fake.queue w = [obj]) by reflexivity.
  split; [exact H|].
  exact (worker_settles_item w [] obj [] H).
Defined.

(** Two rounds for a queue of one. *)
Lemma queue_of_r1_drained :
  let w : Cluster := enqueued "default/r1" (cluster_with r1 []) in
  let r := runWorker 2 (w, [] : list Ev) in
  length (Fake.queue w) < 2 /\
  match fst r with
  | Returns (Some _) =>
      Fake.queue (fst (snd r)) = [] /\
      Fake.processing (fst (snd r))
      = filter (fun o => o ∉ Fake.queue w) (Fake.processing w)
  | Returns None => False
  | Panics _ =>
      exists (handled rest : list Item),
        Fake.queue w = handled ++ rest /\ handled <> [] /\
        Fake.queue (fst (snd r)) = rest
  end.
Proof.
  intros w r.
  assert (H : length (Fake.queue w) < 2) by (vm_compute; lia).
  split; [exact H|].
  apply (worker_drains_queue 2 w [] H).
Defined.
End MoreRuns.
